(** * Missingness injection (src/data_generation.py): mcar, mar, nmar

    A shallow embedding of the three missingness mechanisms and of the
    numpy / pandas operations they call, followed by the properties of the
    mechanisms.

    Modelling conventions.
    - A float64 is a real number or one of the IEEE 754 special values
      (+inf, -inf, NaN).  Arithmetic on finite values is exact: the rounding
      of sums, products, quotients and of [np.exp], overflow and the sign of
      zero are not modelled in the runs.  The special values propagate as
      numpy propagates them (0/0 = NaN with a warning, never an exception;
      comparisons with NaN are false).  Where rounding decides (the
      strictness of the bounds of the sigmoid, the deviation of a constant
      column) the statement is restricted to what float64 computes exactly,
      and module [Binary64] evaluates the expression with the IEEE 754
      operations.
    - The one rounding that is modelled is the conversion of an integer to
      float64, which loses the low bits of an integer above 2^53: it happens
      when an int64 value enters float arithmetic and when an int64 column
      is cast to float64.
    - A DataFrame is an ordered list of named columns plus its row count.
      [dataset[column].iloc[i] = np.nan] writes through to the frame (the
      cached column view the code relies on) and casts the column where its
      dtype cannot hold NaN (int64 to float64, bool to object).
    - A Python exception ends the run; the frame keeps what was written
      before it was raised.  A run is a function from the state (the frame
      and the position in the random stream) to a result and a state.
    - The process-wide random source is a stream of draws indexed by
      position: every draw, uniform or normal, moves the position by one,
      and the seed fixes the value found at every position. *)

From Stdlib Require Import Reals Lra Lia List String Bool Arith ZArith SpecFloat.
Import ListNotations.

Set Implicit Arguments.

(* ================================================================== *)
(** ** numpy float64 scalars *)

Module Np.

Local Open Scope R_scope.

Inductive float64 : Type :=
| Fin (r : R)
| PInf
| NInf
| NaN.

(** Sign of a real, by the decidable order of [R]. *)
Definition Rsign (r : R) : comparison :=
  if Rlt_dec r 0 then Lt else if Rlt_dec 0 r then Gt else Eq.

(** The value of [x / 0.0] and of [inf * x] from the sign of [x]. *)
Definition inf_of_sign (c : comparison) : float64 :=
  match c with
  | Lt => NInf
  | Gt => PInf
  | Eq => NaN
  end.

Definition isnan (x : float64) : bool :=
  match x with
  | NaN => true
  | _ => false
  end.

Definition neg (x : float64) : float64 :=
  match x with
  | Fin r => Fin (- r)
  | PInf => NInf
  | NInf => PInf
  | NaN => NaN
  end.

Definition add (x y : float64) : float64 :=
  match x, y with
  | NaN, _ | _, NaN => NaN
  | Fin a, Fin b => Fin (a + b)
  | PInf, NInf | NInf, PInf => NaN
  | PInf, _ | _, PInf => PInf
  | NInf, _ | _, NInf => NInf
  end.

Definition sub (x y : float64) : float64 := add x (neg y).

Definition mul (x y : float64) : float64 :=
  match x, y with
  | NaN, _ | _, NaN => NaN
  | Fin a, Fin b => Fin (a * b)
  | PInf, Fin b | Fin b, PInf => inf_of_sign (Rsign b)
  | NInf, Fin b | Fin b, NInf => inf_of_sign (CompOpp (Rsign b))
  | PInf, PInf | NInf, NInf => PInf
  | PInf, NInf | NInf, PInf => NInf
  end.

(** numpy scalar division: a zero divisor gives an infinity or NaN (and a
    RuntimeWarning), never ZeroDivisionError. *)
Definition div (x y : float64) : float64 :=
  match x, y with
  | NaN, _ | _, NaN => NaN
  | Fin a, Fin b =>
      match Rsign b with
      | Eq => inf_of_sign (Rsign a)
      | _ => Fin (a / b)
      end
  | Fin _, (PInf | NInf) => Fin 0
  | (PInf | NInf), (PInf | NInf) => NaN
  | PInf, Fin b => if Rlt_dec b 0 then NInf else PInf
  | NInf, Fin b => if Rlt_dec b 0 then PInf else NInf
  end.

(** [np.exp] *)
Definition exp (x : float64) : float64 :=
  match x with
  | Fin r => Fin (Rtrigo_def.exp r)
  | PInf => PInf
  | NInf => Fin 0
  | NaN => NaN
  end.

(** [np.sqrt] *)
Definition sqrt (x : float64) : float64 :=
  match x with
  | Fin r => if Rlt_dec r 0 then NaN else Fin (R_sqrt.sqrt r)
  | PInf => PInf
  | NInf => NaN
  | NaN => NaN
  end.

Definition abs (x : float64) : float64 :=
  match x with
  | Fin r => Fin (Rabs r)
  | PInf | NInf => PInf
  | NaN => NaN
  end.

(** [x < y]; false as soon as one side is NaN. *)
Definition ltb (x y : float64) : bool :=
  match x, y with
  | NaN, _ | _, NaN => false
  | Fin a, Fin b => if Rlt_dec a b then true else false
  | NInf, (Fin _ | PInf) => true
  | Fin _, PInf => true
  | _, _ => false
  end.

(** [x > y] *)
Definition gtb (x y : float64) : bool := ltb y x.

(** [x <= y] *)
Definition leb (x y : float64) : bool :=
  match x, y with
  | NaN, _ | _, NaN => false
  | Fin a, Fin b => if Rle_dec a b then true else false
  | NInf, _ => true
  | _, PInf => true
  | _, _ => false
  end.

Definition eq_dec (x y : float64) : {x = y} + {x <> y}.
Proof.
  destruct x as [a| | |], y as [b| | |];
    try (left; reflexivity); try (right; discriminate).
  destruct (Req_dec_T a b) as [E|N].
  - left. now subst.
  - right. intros H. apply N. now injection H.
Defined.

(** [np.finfo(np.float64).eps] *)
Definition float64_eps : R := / 2 ^ 52.

(** The integer a float64 holds once it is given the integer [z]
    ([np.float64(z)], [astype(float64)]): [z] itself up to magnitude 2^53;
    beyond that the nearest integer with 53 significant bits, a tie going
    to the one whose last kept bit is 0. *)
Definition nearest_float64 (z : Z) : Z :=
  let a := Z.abs z in
  if (a <=? 2 ^ 53)%Z then z
  else
    let e := (Z.log2 a - 52)%Z in
    let q := (a / 2 ^ e)%Z in
    let r := (a mod 2 ^ e)%Z in
    let half := (2 ^ (e - 1))%Z in
    let q' := if ((half <? r)%Z || ((r =? half)%Z && Z.odd q))%bool
              then (q + 1)%Z else q in
    (Z.sgn z * (q' * 2 ^ e))%Z.

(** The conversion of a number to float64.  It is the one rounding that
    is modelled: an integer is rounded as above, every other real is taken
    to be a float64 already. *)
Definition to_float64 (r : R) : R :=
  if Req_dec_T r (IZR (Int_part r)) then IZR (nearest_float64 (Int_part r)) else r.

Definition as_float64 (x : float64) : float64 :=
  match x with
  | Fin r => Fin (to_float64 r)
  | _ => x
  end.

End Np.

(* ================================================================== *)
(** ** float64 arithmetic with its rounding *)

(** The IEEE 754 binary64 operations, as the Standard Library specifies
    them (53 bits of precision, round to nearest, ties to even).  The runs
    below compute on reals; this module evaluates single expressions of the
    source as the machine does, where rounding decides the outcome. *)
Module Binary64.

Definition prec : Z := 53.
Definition emax : Z := 1024.

(** The float64 nearest to an integer. *)
Definition of_Z (z : Z) : spec_float := binary_normalize prec emax z 0 false.

(** The integer part of the number a float64 stands for. *)
Definition to_Z (x : spec_float) : Z :=
  match x with
  | S754_finite sign m e =>
      let a := if (0 <=? e)%Z then (Zpos m * 2 ^ e)%Z else (Zpos m / 2 ^ (- e))%Z in
      if sign then (- a)%Z else a
  | _ => 0%Z
  end.

Definition zero : spec_float := S754_zero false.
Definition one : spec_float := of_Z 1.

Definition add : spec_float -> spec_float -> spec_float := SFadd prec emax.
Definition mul : spec_float -> spec_float -> spec_float := SFmul prec emax.
Definition div : spec_float -> spec_float -> spec_float := SFdiv prec emax.
Definition sub : spec_float -> spec_float -> spec_float := SFsub prec emax.
Definition sqrt : spec_float -> spec_float := SFsqrt prec emax.
Definition ltb : spec_float -> spec_float -> bool := SFltb.

(** [sig(x) = 1 / (1 + np.exp(-x))], once [np.exp(-x)] has returned the
    float64 [e]. *)
Definition sig_of_exp (e : spec_float) : spec_float := div one (add one e).

(** [np.exp(-40.0)]: 0x1.39792499b1a24p-58, about 4.248e-18. *)
Definition exp_minus_40 : spec_float := S754_finite false 5514679113423396 (-110).

(** 2^-53, half the distance from 1.0 to the next float64. *)
Definition half_ulp_of_one : spec_float := S754_finite false 4503599627370496 (-105).

(** [np.exp(745.0)]: the exponential exceeds every float64. *)
Definition exp_745 : spec_float := S754_infinity false.

(** 0.1 as a float64: 0x1.999999999999ap-4. *)
Definition tenth : spec_float := S754_finite false 7205759403792794 (-56).

(** [np.mean] and [np.std] of a column of three values, as [Pandas.np_mean]
    and [Pandas.np_std] below compute them. *)
Definition mean3 (a b c : spec_float) : spec_float :=
  div (add (add a b) c) (of_Z 3).

Definition std3 (a b c : spec_float) : spec_float :=
  let avg := mean3 a b c in
  let sqr x := mul (sub avg x) (sub avg x) in
  sqrt (div (add (add (sqr a) (sqr b)) (sqr c)) (of_Z 3)).

End Binary64.

Abbreviation float64 := Np.float64.
Abbreviation Fin := Np.Fin.
Abbreviation PInf := Np.PInf.
Abbreviation NInf := Np.NInf.
Abbreviation NaN := Np.NaN.

(* ================================================================== *)
(** ** Python values, exceptions and the state of a run *)

(** The values a DataFrame cell holds.  Integers and floats are both
    [CNum]; the missing marker [np.nan] is the float NaN. *)
Inductive Cell : Type :=
| CStr (s : string)
| CBool (b : bool)
| CNum (x : float64).

(** [np.nan] *)
Definition nan : Cell := CNum NaN.

Definition is_missing (c : Cell) : bool :=
  match c with
  | CNum Np.NaN => true
  | _ => false
  end.

Definition Cell_eq_dec (c d : Cell) : {c = d} + {c <> d}.
Proof.
  destruct c as [s|b|x], d as [s'|b'|x']; try (right; discriminate).
  - destruct (string_dec s s') as [E|N].
    + left. now subst.
    + right. intros H. apply N. now injection H.
  - destruct (bool_dec b b') as [E|N].
    + left. now subst.
    + right. intros H. apply N. now injection H.
  - destruct (Np.eq_dec x x') as [E|N].
    + left. now subst.
    + right. intros H. apply N. now injection H.
Defined.

(** Hashing and [==] of Python keys identify [True] with [1] and [False]
    with [0]; [np.nan] is one object, found again by identity. *)
Definition key (c : Cell) : Cell :=
  match c with
  | CBool b => CNum (Fin (if b then 1 else 0)%R)
  | _ => c
  end.

Definition py_eqb (c d : Cell) : bool :=
  if Cell_eq_dec (key c) (key d) then true else false.

(** The value a cell contributes to float arithmetic: a number is
    converted to float64, [bool] is a subclass of [int]; [None] where
    Python raises TypeError. *)
Definition to_float (c : Cell) : option float64 :=
  match c with
  | CNum x => Some (Np.as_float64 x)
  | CBool b => Some (Fin (if b then 1 else 0)%R)
  | CStr _ => None
  end.

Inductive PyExc : Type :=
| Exception (msg : string)
| KeyError (k : Cell)
| IndexError
| ValueError (msg : string)
| TypeError.

Inductive Result (A : Type) : Type :=
| Ok (a : A)
| Raise (e : PyExc).

Arguments Ok {A} a.
Arguments Raise {A} e.

(** *** pandas: Series and DataFrame *)

(** The declared types of a column: numpy's object, bool, int64 and
    float64, and the pandas [category] dtype. *)
Inductive DType : Type :=
| DObject
| DBool
| DInt64
| DFloat64
| DCategory.

Definition DType_eqb (a b : DType) : bool :=
  match a, b with
  | DObject, DObject | DBool, DBool | DInt64, DInt64 | DFloat64, DFloat64
  | DCategory, DCategory => true
  | _, _ => false
  end.

Record Series : Type := mkSeries {
  dtype : DType;
  values : list Cell
}.

Record DataFrame : Type := mkFrame {
  shape0 : nat;                          (* dataset.shape[0] *)
  columns : list (string * Series)
}.

(** What a run threads: the frame the caller passed in (mutated in
    place) and the position in the random stream. *)
Record Env : Type := mkEnv {
  frame : DataFrame;
  pos : nat
}.

Definition M (A : Type) : Type := Env -> Result A * Env.

Definition ret {A} (a : A) : M A := fun env => (Ok a, env).

Definition raise {A} (e : PyExc) : M A := fun env => (Raise e, env).

Definition bind {A B} (m : M A) (k : A -> M B) : M B :=
  fun env =>
    match m env with
    | (Ok a, env') => k a env'
    | (Raise e, env') => (Raise e, env')
    end.

Definition lift {A} (r : Result A) : M A := fun env => (r, env).

Declare Scope py_scope.
Delimit Scope py_scope with py.
Notation "x <- m ;; k" := (bind m (fun x => k))
  (at level 61, m at next level, right associativity) : py_scope.
Notation "m ;;; k" := (bind m (fun _ => k))
  (at level 61, right associativity) : py_scope.

Local Open Scope py_scope.

(** [for i, a in enumerate(l): body(i, a)], counting from [i]. *)
Fixpoint for_enumerate_from {A} (i : nat) (l : list A)
    (body : nat -> A -> M unit) : M unit :=
  match l with
  | [] => ret tt
  | a :: l' => body i a ;;; for_enumerate_from (S i) l' body
  end.

Definition for_enumerate {A} (l : list A) (body : nat -> A -> M unit) : M unit :=
  for_enumerate_from 0 l body.

(** [for i in range(n): body(i)] *)
Definition for_range (n : nat) (body : nat -> M unit) : M unit :=
  for_enumerate (seq 0 n) (fun _ i => body i).

(* ================================================================== *)
(** ** pandas operations used by the mechanisms *)

Module Pandas.

(** The column called [name].  Column names are taken to be distinct, as
    in a column set; should a name repeat, this is the first such column
    (pandas then returns a sub-frame, which is not modelled). *)
Fixpoint lookup (cols : list (string * Series)) (name : string) : option Series :=
  match cols with
  | [] => None
  | (n, s) :: rest => if String.eqb n name then Some s else lookup rest name
  end.

Fixpoint index_of (cols : list (string * Series)) (name : string) : option nat :=
  match cols with
  | [] => None
  | (n, _) :: rest =>
      if String.eqb n name then Some 0
      else option_map S (index_of rest name)
  end.

Fixpoint replace (cols : list (string * Series)) (name : string) (s' : Series)
    : list (string * Series) :=
  match cols with
  | [] => []
  | (n, s) :: rest =>
      if String.eqb n name then (n, s') :: rest
      else (n, s) :: replace rest name s'
  end.

Fixpoint list_set {A} (l : list A) (i : nat) (a : A) : list A :=
  match l, i with
  | [], _ => []
  | _ :: t, O => a :: t
  | x :: t, S j => x :: list_set t j a
  end.

(** [dataset[name]]; KeyError when no column has that name. *)
Definition getitem (name : string) : M Series :=
  fun env =>
    match lookup (columns (frame env)) name with
    | Some s => (Ok s, env)
    | None => (Raise (KeyError (CStr name)), env)
    end.

(** [dataset.dtypes.loc[name]] *)
Definition dtypes_loc (name : string) : M DType :=
  fun env =>
    match lookup (columns (frame env)) name with
    | Some s => (Ok (dtype s), env)
    | None => (Raise (KeyError (CStr name)), env)
    end.

(** [dataset.columns.get_loc(name)] *)
Definition columns_get_loc (name : string) : M nat :=
  fun env =>
    match index_of (columns (frame env)) name with
    | Some j => (Ok j, env)
    | None => (Raise (KeyError (CStr name)), env)
    end.

(** [dataset.shape[0]] *)
Definition get_shape0 : M nat := fun env => (Ok (shape0 (frame env)), env).

(** [dataset.iloc[i, j]]; IndexError out of bounds. *)
Definition iloc (i j : nat) : M Cell :=
  fun env =>
    match nth_error (columns (frame env)) j with
    | Some (_, s) =>
        match nth_error (values s) i with
        | Some c => (Ok c, env)
        | None => (Raise IndexError, env)
        end
    | None => (Raise IndexError, env)
    end.

(** The dtype of a column once it holds [np.nan]: integers become
    floats, booleans become objects; the others can hold it. *)
Definition upcast_for_nan (d : DType) : DType :=
  match d with
  | DInt64 => DFloat64
  | DBool => DObject
  | d => d
  end.

(** What a cell of a column of type [d] holds once the column has type
    [d']: an int64 column that becomes float64 has every integer converted;
    a bool column that becomes object keeps its booleans. *)
Definition astype (d d' : DType) (c : Cell) : Cell :=
  match d, d', c with
  | DInt64, DFloat64, CNum x => CNum (Np.as_float64 x)
  | _, _, _ => c
  end.

(** [dataset[name].iloc[i] = np.nan], written through to the frame: the
    whole column is cast to the type that can hold NaN, then the cell is
    set. *)
Definition setitem_iloc_nan (name : string) (i : nat) : M unit :=
  fun env =>
    match lookup (columns (frame env)) name with
    | None => (Raise (KeyError (CStr name)), env)
    | Some s =>
        if i <? List.length (values s) then
          let d' := upcast_for_nan (dtype s) in
          let s' := mkSeries d' (list_set (map (astype (dtype s) d') (values s)) i nan) in
          (Ok tt,
           mkEnv (mkFrame (shape0 (frame env))
                          (replace (columns (frame env)) name s'))
                 (pos env))
        else (Raise IndexError, env)
    end.

(** [Series.unique()]: the distinct values in order of first appearance,
    found with a hash table of the values seen so far. *)
Fixpoint unique_from (seen : list Cell) (l : list Cell) : list Cell :=
  match l with
  | [] => []
  | c :: t =>
      if existsb (py_eqb c) seen then unique_from seen t
      else c :: unique_from (c :: seen) t
  end.

Definition unique (s : Series) : list Cell := unique_from [] (values s).

(** The float values of a column; [None] where a cell is not a number. *)
Fixpoint floats (l : list Cell) : option (list float64) :=
  match l with
  | [] => Some []
  | c :: t =>
      match to_float c, floats t with
      | Some x, Some xs => Some (x :: xs)
      | _, _ => None
      end
  end.

Definition fsum (xs : list float64) : float64 := fold_left Np.add xs (Fin 0).

(** The reductions skip missing values ([skipna=True]). *)
Definition notna (xs : list float64) : list float64 :=
  filter (fun x => negb (Np.isnan x)) xs.

(** [np.mean(series)], which is [series.mean()]: the sum of the values
    converted to float64, over their number, in exact arithmetic; a
    Categorical has no such reduction. *)
Definition np_mean (s : Series) : Result float64 :=
  match dtype s with
  | DCategory => Raise TypeError
  | _ =>
      match floats (values s) with
      | None => Raise TypeError
      | Some xs =>
          let valid := notna xs in
          match List.length valid with
          | O => Ok NaN
          | count => Ok (Np.div (fsum valid) (Fin (INR count)))
          end
      end
  end.

(** [np.std(series)], which is [series.std(ddof=0)]: the population
    standard deviation, in exact arithmetic. *)
Definition np_std (s : Series) : Result float64 :=
  match dtype s with
  | DCategory => Raise TypeError
  | _ =>
      match floats (values s) with
      | None => Raise TypeError
      | Some xs =>
          let valid := notna xs in
          match List.length valid with
          | O => Ok NaN
          | count =>
              let avg := Np.div (fsum valid) (Fin (INR count)) in
              let sqr := map (fun x => Np.mul (Np.sub avg x) (Np.sub avg x)) valid in
              Ok (Np.sqrt (Np.div (fsum sqr) (Fin (INR count))))
          end
      end
  end.

End Pandas.

(* ================================================================== *)
(** ** Python dictionaries keyed by cell values *)

Module Dict.

Definition t : Type := list (Cell * float64).

Fixpoint setitem (d : t) (k : Cell) (v : float64) : t :=
  match d with
  | [] => [(k, v)]
  | (k', v') :: rest =>
      if py_eqb k' k then (k', v) :: rest
      else (k', v') :: setitem rest k v
  end.

Fixpoint get (d : t) (k : Cell) : option float64 :=
  match d with
  | [] => None
  | (k', v) :: rest => if py_eqb k' k then Some v else get rest k
  end.

(** [d[k]] *)
Definition getitem (d : t) (k : Cell) : M float64 :=
  match get d k with
  | Some v => ret v
  | None => raise (KeyError k)
  end.

(** [{k: f(k) for k in keys}], continuing from [d]. *)
Fixpoint comprehension (keys : list Cell) (f : Cell -> M float64) (d : t) : M t :=
  match keys with
  | [] => ret d
  | k :: rest => v <- f k ;; comprehension rest f (setitem d k v)
  end.

End Dict.

(* ================================================================== *)
(** ** numpy.random: the process-wide random source *)

(** A seed fixes the whole stream: the value a uniform draw finds at
    each position (in [0, 1), as [random_sample] guarantees) and the value
    a standard-normal draw finds there. *)
Record Seed : Type := mkSeed {
  uniform_at : nat -> R;
  normal_at : nat -> R;
  uniform_range : forall n, (0 <= uniform_at n < 1)%R
}.

Module NpRandom.

(** [atol] of the probability check in [choice]. *)
Definition atol : R := R_sqrt.sqrt Np.float64_eps.

(** [p.cumsum()], continuing from the running sum [acc]. *)
Fixpoint cumsum_from (acc : float64) (p : list float64) : list float64 :=
  match p with
  | [] => []
  | x :: t => Np.add acc x :: cumsum_from (Np.add acc x) t
  end.

Definition cumsum (p : list float64) : list float64 :=
  match p with
  | [] => []
  | x :: t => x :: cumsum_from x t
  end.

(** [cdf.searchsorted(u, side='right')] on a sorted [cdf]: the first
    index whose entry exceeds [u]. *)
Fixpoint searchsorted_right (cdf : list float64) (u : float64) : nat :=
  match cdf with
  | [] => 0
  | c :: t => if Np.leb c u then S (searchsorted_right t u) else 0
  end.

(** [kahan_sum(p)]: in exact arithmetic, the plain sum. *)
Definition kahan_sum (p : list float64) : float64 := fold_left Np.add p (Fin 0).

(** The checks [choice] makes on [p] before it samples. *)
Definition choice_check (a : list Z) (p : list float64) : option PyExc :=
  if negb (List.length p =? List.length a) then
    Some (ValueError "'a' and 'p' must have same size")
  else
    let p_sum := kahan_sum p in
    if Np.isnan p_sum then Some (ValueError "probabilities contain NaN")
    else if existsb (fun x => Np.ltb x (Fin 0)) p then
      Some (ValueError "probabilities are not non-negative")
    else if Np.gtb (Np.abs (Np.sub p_sum (Fin 1))) (Fin atol) then
      Some (ValueError "probabilities do not sum to 1")
    else None.

(** The element [choice] returns for the uniform sample [u]. *)
Definition choice_pick (a : list Z) (p : list float64) (u : R) : Result Z :=
  let cdf := cumsum p in
  let cdf := map (fun c => Np.div c (last cdf NaN)) cdf in
  let idx := searchsorted_right cdf (Fin u) in
  match nth_error a idx with
  | Some v => Ok v
  | None => Raise IndexError
  end.

Section Draws.

Variable g : Seed.

(** [random_sample()] *)
Definition random_sample : M R :=
  fun env => (Ok (uniform_at g (pos env)), mkEnv (frame env) (S (pos env))).

(** [np.random.normal()] *)
Definition normal : M float64 :=
  fun env => (Ok (Fin (normal_at g (pos env))), mkEnv (frame env) (S (pos env))).

(** [np.random.choice(a, p=p)] *)
Definition choice (a : list Z) (p : list float64) : M Z :=
  match choice_check a p with
  | Some e => raise e
  | None => u <- random_sample ;; lift (choice_pick a p u)
  end.

End Draws.

End NpRandom.

(* ================================================================== *)
(** ** data_generation.py *)

Module DataGeneration.

(** [sig(x) = 1 / (1 + np.exp(-x))], in exact arithmetic.  In float64
    the sum and the quotient are rounded and the result reaches 1.0 and 0.0
    (see [Binary64.sig_of_exp]). *)
Definition sig (x : float64) : float64 :=
  Np.div (Fin 1) (Np.add (Fin 1) (Np.exp (Np.neg x))).

(** [norm(val, mean, std) = (val - mean) / std] *)
Definition norm (val mean std : float64) : float64 :=
  Np.div (Np.sub val mean) std.

(** [(x < 0) or (x > 1)] *)
Definition out_of_range (x : float64) : bool :=
  Np.ltb x (Fin 0) || Np.gtb x (Fin 1).

(** A cell used as a number in [norm]. *)
Definition as_float (c : Cell) : M float64 :=
  match to_float c with
  | Some x => ret x
  | None => raise TypeError
  end.

(** [(dataset.dtypes.loc[c] == object) or (dataset.dtypes.loc[c] == bool)] *)
Definition is_categorical (column : string) : M bool :=
  d <- Pandas.dtypes_loc column ;;
  if DType_eqb d DObject then ret true
  else d' <- Pandas.dtypes_loc column ;; ret (DType_eqb d' DBool).

Section Mechanisms.

Variable g : Seed.

(** [np.random.choice([1, 0], p = [q, 1 - q]) == 1] *)
Definition trial (q : float64) : M bool :=
  c <- NpRandom.choice g [1%Z; 0%Z] [q; Np.sub (Fin 1) q] ;;
  ret (Z.eqb c 1).

(** [{cat: sig(np.random.normal()) for cat in series.unique()}] *)
Definition cat_dict_of (s : Series) : M Dict.t :=
  Dict.comprehension (Pandas.unique s)
    (fun _ => z <- NpRandom.normal g ;; ret (sig z)) [].

Definition mcar (column : string) (p : float64) : M unit :=
  if out_of_range p then
    raise (Exception "probability of missing values must be between 0 and 1")
  else
    col <- Pandas.getitem column ;;
    for_enumerate (values col) (fun i val =>
      hit <- trial p ;;
      if hit then Pandas.setitem_iloc_nan column i else ret tt).

(** The categorical branch of [mar] (lines 78-84). *)
Definition mar_categorical (miss_column dep_column : string) (b : float64) : M unit :=
  dep <- Pandas.getitem dep_column ;;
  cat_dict <- cat_dict_of dep ;;
  n <- Pandas.get_shape0 ;;
  for_range n (fun i =>
    j <- Pandas.columns_get_loc dep_column ;;
    dep_val <- Pandas.iloc i j ;;
    pr <- Dict.getitem cat_dict dep_val ;;
    hit <- trial (Np.mul pr b) ;;
    if hit then Pandas.setitem_iloc_nan miss_column i else ret tt).

(** The numeric branch of [mar] (lines 86-99). *)
Definition mar_numeric (miss_column dep_column : string) (b : float64) : M unit :=
  dep <- Pandas.getitem dep_column ;;
  mean <- lift (Pandas.np_mean dep) ;;
  dep' <- Pandas.getitem dep_column ;;
  std <- lift (Pandas.np_std dep') ;;
  n <- Pandas.get_shape0 ;;
  for_range n (fun i =>
    j <- Pandas.columns_get_loc dep_column ;;
    dep_val <- Pandas.iloc i j ;;
    x <- as_float dep_val ;;
    let prob := sig (norm x mean std) in
    hit <- trial (Np.mul prob b) ;;
    if hit then Pandas.setitem_iloc_nan miss_column i else ret tt).

Definition mar (miss_column dep_column : string) (b : float64) : M unit :=
  if out_of_range b then
    raise (Exception "beta value must be between 0 and 1")
  else
    categorical <- is_categorical dep_column ;;
    if categorical then mar_categorical miss_column dep_column b
    else mar_numeric miss_column dep_column b.

(** The categorical branch of [nmar] (lines 140-145). *)
Definition nmar_categorical (column : string) (b : float64) : M unit :=
  col <- Pandas.getitem column ;;
  cat_dict <- cat_dict_of col ;;
  col' <- Pandas.getitem column ;;
  for_enumerate (values col') (fun i val =>
    pr <- Dict.getitem cat_dict val ;;
    hit <- trial (Np.mul pr b) ;;
    if hit then Pandas.setitem_iloc_nan column i else ret tt).

(** The numeric branch of [nmar] (lines 147-159). *)
Definition nmar_numeric (column : string) (b : float64) : M unit :=
  col <- Pandas.getitem column ;;
  mean <- lift (Pandas.np_mean col) ;;
  col' <- Pandas.getitem column ;;
  std <- lift (Pandas.np_std col') ;;
  col'' <- Pandas.getitem column ;;
  for_enumerate (values col'') (fun i val =>
    x <- as_float val ;;
    let prob := sig (norm x mean std) in
    hit <- trial (Np.mul prob b) ;;
    if hit then Pandas.setitem_iloc_nan column i else ret tt).

Definition nmar (column : string) (b : float64) : M unit :=
  if out_of_range b then
    raise (Exception "beta value must be between 0 and 1")
  else
    categorical <- is_categorical column ;;
    if categorical then nmar_categorical column b
    else nmar_numeric column b.

End Mechanisms.

End DataGeneration.

(* ================================================================== *)
(** ** Vocabulary of the statements *)

Import DataGeneration.

(** *** Cells and rows *)

(** The cell of column [name] in row [i]. *)
Definition cell (ds : DataFrame) (name : string) (i : nat) : option Cell :=
  match Pandas.lookup (columns ds) name with
  | Some s => nth_error (values s) i
  | None => None
  end.

(** The cell [dataset.iloc[i, dataset.columns.get_loc(name)]] reads. *)
Definition read (ds : DataFrame) (name : string) (i : nat) : Result Cell :=
  match Pandas.lookup (columns ds) name with
  | None => Raise (KeyError (CStr name))
  | Some s =>
      match nth_error (values s) i with
      | Some c => Ok c
      | None => Raise IndexError
      end
  end.

(** *** The trial and the probability of a row *)

(** The outcome of the Bernoulli trial with probability [q] that reads
    the random stream at position [k]. *)
Definition trial_at (g : Seed) (k : nat) (q : float64) : Result bool :=
  match NpRandom.choice_check [1%Z; 0%Z] [q; Np.sub (Fin 1) q] with
  | Some e => Raise e
  | None =>
      match NpRandom.choice_pick [1%Z; 0%Z] [q; Np.sub (Fin 1) q] (uniform_at g k) with
      | Ok c => Ok (Z.eqb c 1)
      | Raise e => Raise e
      end
  end.

(** The ProbabilityAssignment of a categorical column when the draws
    start at stream position [k]: the i-th distinct value is given the
    sigmoid of the normal sample found at position [k + i]. *)
Definition categorical_assignment (g : Seed) (k : nat) (s : Series) : Dict.t :=
  combine (Pandas.unique s)
          (map (fun i => sig (Fin (normal_at g (k + i))))
               (seq 0 (List.length (Pandas.unique s)))).

(** The trial probability of row [j] in the categorical branch. *)
Definition categorical_row_prob (d : Dict.t) (b : float64)
    (ds : DataFrame) (dep : string) (j : nat) : Result float64 :=
  match read ds dep j with
  | Raise e => Raise e
  | Ok c =>
      match Dict.get d c with
      | None => Raise (KeyError c)
      | Some pr => Ok (Np.mul pr b)
      end
  end.

(** The trial probability of row [j] in the numeric branch. *)
Definition numeric_row_prob (mean std b : float64)
    (ds : DataFrame) (dep : string) (j : nat) : Result float64 :=
  match read ds dep j with
  | Raise e => Raise e
  | Ok c =>
      match to_float c with
      | None => Raise TypeError
      | Some x => Ok (Np.mul (sig (norm x mean std)) b)
      end
  end.

(** The declared types that take the categorical branch. *)
Definition is_categorical_dtype (d : DType) : bool :=
  match d with
  | DObject | DBool => true
  | DInt64 | DFloat64 | DCategory => false
  end.

(** The trial probability of row [j] in a MAR call on frame [ds] started
    at stream position [k] (for NMAR, [dep] is the target column). *)
Definition row_prob (g : Seed) (ds : DataFrame) (k : nat) (dep : string)
    (b : float64) (j : nat) : Result float64 :=
  match Pandas.lookup (columns ds) dep with
  | None => Raise (KeyError (CStr dep))
  | Some s =>
      if is_categorical_dtype (dtype s) then
        categorical_row_prob (categorical_assignment g k s) b ds dep j
      else
        match Pandas.np_mean s, Pandas.np_std s with
        | Ok mean, Ok std => numeric_row_prob mean std b ds dep j
        | Raise e, _ => Raise e
        | _, Raise e => Raise e
        end
  end.

(** The stream position of the trial of row 0 in such a call: after the
    normal draws of the categorical assignment, if any. *)
Definition first_trial (ds : DataFrame) (k : nat) (dep : string) : nat :=
  match Pandas.lookup (columns ds) dep with
  | Some s =>
      if is_categorical_dtype (dtype s) then k + List.length (Pandas.unique s)
      else k
  | None => k
  end.

(** A trial probability on which the trial cannot return 1: zero, or NaN
    (which the sampler rejects). *)
Definition never_hits (q : float64) : Prop :=
  q = NaN \/ exists r, q = Fin r /\ r = 0%R.

(** A tuning parameter outside [0, 1]: a number below 0 or above 1, or
    an infinity. *)
Definition outside_unit_interval (x : float64) : Prop :=
  match x with
  | Np.Fin r => (r < 0 \/ 1 < r)%R
  | Np.PInf | Np.NInf => True
  | Np.NaN => False
  end.

(** *** Frames before and after a call *)

(** [ds'] is [ds] with some cells of column [col] overwritten by the
    missing marker: same row count, same column names in the same order,
    every column of another name untouched, and in a column named [col]
    every cell either kept or turned into [nan]. *)
Definition column_overwritten (col : string) (c c' : string * Series) : Prop :=
  fst c' = fst c /\
  (snd c' = snd c \/
   (fst c = col /\
    Forall2 (fun v v' => v' = v \/ v' = nan) (values (snd c)) (values (snd c')))).

Definition nan_overwrite (col : string) (ds ds' : DataFrame) : Prop :=
  shape0 ds' = shape0 ds /\
  Forall2 (column_overwritten col) (columns ds) (columns ds').

(** What a call leaves alone: the row count, the column names and their
    order, every column of another name than [col], and the length of every
    column. *)
Definition frame_effect (col : string) (ds ds' : DataFrame) : Prop :=
  shape0 ds' = shape0 ds /\
  map fst (columns ds') = map fst (columns ds) /\
  (forall name, name <> col ->
     Pandas.lookup (columns ds') name = Pandas.lookup (columns ds) name) /\
  (forall name i, cell ds' name i = None <-> cell ds name i = None).

(** What the cell [v] of column [col] of [ds] has become in [ds'], if it
    was not overwritten: [v] as the type the column has in [ds'] stores
    it. *)
Definition stored (ds ds' : DataFrame) (col : string) (v : Cell) : Cell :=
  match Pandas.lookup (columns ds) col, Pandas.lookup (columns ds') col with
  | Some s, Some s' => Pandas.astype (dtype s) (dtype s') v
  | _, _ => v
  end.

(** [s'] is the column [s] after some of its cells were overwritten by
    the missing marker: its type is that of [s] or the type that can hold
    NaN, and every cell is [nan] or the cell of [s], cast. *)
Definition converted (s s' : Series) : Prop :=
  (dtype s' = dtype s \/ dtype s' = Pandas.upcast_for_nan (dtype s)) /\
  Forall2 (fun v v' => v' = nan \/ v' = Pandas.astype (dtype s) (dtype s') v)
          (values s) (values s').

(** [ds'] is [ds] after cells of column [col] were overwritten: the
    column [col] is replaced by a converted one, nothing else differs. *)
Definition cast_overwrite (col : string) (ds ds' : DataFrame) : Prop :=
  shape0 ds' = shape0 ds /\
  match Pandas.lookup (columns ds) col with
  | None => columns ds' = columns ds
  | Some s =>
      exists s', columns ds' = Pandas.replace (columns ds) col s' /\ converted s s'
  end.

(** *** Runs *)

(** A run leaves every frame property [P] it is started in intact. *)
Definition preserves {A} (P : DataFrame -> Prop) (m : M A) : Prop :=
  forall env r env', P (frame env) -> m env = (r, env') -> P (frame env').

(** The only results a computation can return normally. *)
Definition returns_only {A} (Q : A -> Prop) (m : M A) : Prop :=
  forall env a env', m env = (Ok a, env') -> Q a.

(** A computation that never touches the frame. *)
Definition frame_fixed {A} (m : M A) : Prop :=
  forall env, frame (snd (m env)) = frame env.

(** One iteration of an injection loop: with the row's trial probability
    [qr] at hand, draw the trial and overwrite row [j] of [miss] on a 1. *)
Definition inject_row (g : Seed) (miss : string) (qr : Result float64) (j : nat) : M unit :=
  (q <- lift qr ;;
   hit <- trial g q ;;
   if hit then Pandas.setitem_iloc_nan miss j else ret tt)%py.

(** The state of a run that started on frame [ds0] at stream position
    [k0] once rows [0 .. j-1] are done, where [Q i] is the trial probability
    of row [i]: one draw was made per row; each finished row had a valid
    probability; a row whose trial returned 1 had a cell of [miss] to
    overwrite, which is now [nan]; a row whose trial returned 0 has its
    original value, as the column now stores it; so have the rows still to
    do. *)
Definition rows_done (g : Seed) (miss : string) (ds0 : DataFrame) (k0 : nat)
    (Q : nat -> Result float64) (j : nat) (env : Env) : Prop :=
  pos env = k0 + j /\
  cast_overwrite miss ds0 (frame env) /\
  (forall i, i < j ->
     exists q hit,
       Q i = Ok q /\ trial_at g (k0 + i) q = Ok hit /\
       (hit = true -> exists v, cell ds0 miss i = Some v) /\
       forall v, cell ds0 miss i = Some v ->
                 cell (frame env) miss i =
                   Some (if hit then nan else stored ds0 (frame env) miss v)) /\
  (forall i, j <= i ->
     cell (frame env) miss i = option_map (stored ds0 (frame env) miss) (cell ds0 miss i)).

(** *** Examples *)

(** The messages of the exceptions the runs below end with. *)
Definition msg_p : string := "probability of missing values must be between 0 and 1".

Definition msg_b : string := "beta value must be between 0 and 1".

Definition msg_nan : string := "probabilities contain NaN".

(** A seed whose uniform draws are all 0 and whose normal draws are all 0. *)
Definition seed0 : Seed.
Proof.
  refine (mkSeed (fun _ => 0%R) (fun _ => 0%R) _).
  intros _. split; [apply Rle_refl | exact Rlt_0_1].
Defined.

(** A seed whose uniform draws are all 3/4 and whose normal draws are
    all 0. *)
Definition seed_high : Seed.
Proof.
  refine (mkSeed (fun _ => (3 / 4)%R) (fun _ => 0%R) _).
  intros _. lra.
Defined.

(** A frame with one float column holding an already missing cell. *)
Definition frame_x : DataFrame :=
  mkFrame 2 [("x"%string, mkSeries DFloat64 [nan; CNum (Fin 3%R)])].

(** A frame whose numeric column is constant. *)
Definition frame_constant : DataFrame :=
  mkFrame 2 [("revenue"%string, mkSeries DInt64 [CNum (Fin 5%R); CNum (Fin 5%R)]);
             ("sales"%string, mkSeries DFloat64 [CNum (Fin 1%R); CNum (Fin 2%R)])].

(** A frame with a categorical column and one row. *)
Definition frame_region : DataFrame :=
  mkFrame 1 [("region"%string, mkSeries DObject [CStr "A"])].

(** A seed whose first uniform draw is 3/4 and whose later ones are 0. *)
Definition seed_late : Seed.
Proof.
  refine (mkSeed (fun n => match n with O => (3 / 4)%R | S _ => 0%R end)
                 (fun _ => 0%R) _).
  intros [|n]; lra.
Defined.

(** A frame with an int64 column that holds 2^53 + 1, and the frame it
    becomes once its second cell is overwritten. *)
Definition frame_ids : DataFrame :=
  mkFrame 2 [("id"%string,
              mkSeries DInt64 [CNum (Fin 9007199254740993%R); CNum (Fin 5%R)])].

Definition frame_ids_after : DataFrame :=
  mkFrame 2 [("id"%string,
              mkSeries DFloat64 [CNum (Fin 9007199254740992%R); nan])].

(** *** Further vocabulary *)

(** The logistic function on the reals. *)
Definition sigma (x : R) : R := (1 / (1 + exp (- x)))%R.

(** The comparison [u < q] of a uniform sample with a probability. *)
Definition below (u q : R) : bool := if Rlt_dec u q then true else false.

(** A column of finite numbers. *)
Definition number_cells (xs : list R) : list Cell := map (fun x => CNum (Fin x)) xs.

(** The base probability of row [j] (the trial probability before it is
    scaled by [b]) in a MAR call on frame [ds] started at stream position
    [k]. *)
Definition base_prob (g : Seed) (ds : DataFrame) (k : nat) (dep : string)
    (j : nat) : Result float64 :=
  match Pandas.lookup (columns ds) dep with
  | None => Raise (KeyError (CStr dep))
  | Some s =>
      if is_categorical_dtype (dtype s) then
        match read ds dep j with
        | Raise e => Raise e
        | Ok c =>
            match Dict.get (categorical_assignment g k s) c with
            | None => Raise (KeyError c)
            | Some pr => Ok pr
            end
        end
      else
        match Pandas.np_mean s, Pandas.np_std s with
        | Ok mean, Ok std =>
            match read ds dep j with
            | Raise e => Raise e
            | Ok c =>
                match to_float c with
                | None => Raise TypeError
                | Some x => Ok (sig (norm x mean std))
                end
            end
        | Raise e, _ => Raise e
        | _, Raise e => Raise e
        end
  end.

(** Two frames whose columns have the same names and are dispatched to
    the same branch. *)
Definition same_dispatch (ds ds' : DataFrame) : Prop :=
  Forall2 (fun c c' : string * Series =>
             fst c' = fst c /\
             is_categorical_dtype (dtype (snd c')) = is_categorical_dtype (dtype (snd c)))
          (columns ds) (columns ds').

(** The messages of the sampler. *)
Definition msg_negative : string := "probabilities are not non-negative".

(** A frame with a categorical column of one distinct value and a target
    column. *)
Definition frame_single : DataFrame :=
  mkFrame 2 [("region"%string, mkSeries DObject [CStr "A"; CStr "A"]);
             ("sales"%string, mkSeries DFloat64 (number_cells [1%R; 2%R]))].

(** A frame with an object column whose only cell is missing. *)
Definition frame_object : DataFrame :=
  mkFrame 1 [("c"%string, mkSeries DObject [nan])].

(* ================================================================== *)
(** ** Facts about float64 arithmetic *)

(** The conversion agrees with the Standard Library's binary64 on
    integers on both sides of 2^53 and at the ends of the int64 range. *)
Lemma nearest_float64_binary64 :
  Forall (fun z => Binary64.to_Z (Binary64.of_Z z) = Np.nearest_float64 z)
         [5; -7; 9007199254740992; 9007199254740993; 9007199254740994;
          9007199254740995; -9007199254740993; 18014398509481985;
          1234567890123456789; 4611686018427387905; 9223372036854775807;
          -9223372036854775808]%Z.
Proof. repeat constructor. Qed.

(** Where rounding decides: the float64 mean of the constant column
    [0.1, 0.1, 0.1] is the float64 after 0.1 and its deviation is 2^-56, not
    0, while the constant column [5, 5, 5] has mean 5 and deviation 0. *)
Lemma constant_column_rounding :
  Binary64.mean3 Binary64.tenth Binary64.tenth Binary64.tenth =
    S754_finite false 7205759403792795 (-56)%Z /\
  Binary64.std3 Binary64.tenth Binary64.tenth Binary64.tenth =
    S754_finite false 4503599627370496 (-108)%Z /\
  Binary64.mean3 (Binary64.of_Z 5) (Binary64.of_Z 5) (Binary64.of_Z 5) =
    Binary64.of_Z 5 /\
  Binary64.std3 (Binary64.of_Z 5) (Binary64.of_Z 5) (Binary64.of_Z 5) = Binary64.zero.
Proof. repeat split. Qed.

Section FloatFacts.

Local Open Scope R_scope.

Lemma Rsign_zero (r : R) : r = 0 -> Np.Rsign r = Eq.
Proof.
  intros ->. unfold Np.Rsign.
  destruct (Rlt_dec 0 0); [lra|reflexivity].
Qed.

Lemma ltb_Fin_false (a b : R) : b <= a -> Np.ltb (Fin a) (Fin b) = false.
Proof. intros H. simpl. destruct (Rlt_dec a b); [lra|reflexivity]. Qed.

Lemma leb_Fin_true (a b : R) : a <= b -> Np.leb (Fin a) (Fin b) = true.
Proof. intros H. simpl. destruct (Rle_dec a b); [reflexivity|lra]. Qed.

Lemma leb_Fin_false (a b : R) : b < a -> Np.leb (Fin a) (Fin b) = false.
Proof. intros H. simpl. destruct (Rle_dec a b); [lra|reflexivity]. Qed.

Lemma div_Fin (a b : R) : b <> 0 -> Np.div (Fin a) (Fin b) = Fin (a / b).
Proof.
  intros H. unfold Np.div, Np.Rsign.
  destruct (Rlt_dec b 0); [reflexivity|].
  destruct (Rlt_dec 0 b); [reflexivity|lra].
Qed.

Lemma nearest_small (z : Z) : (Z.abs z <= 2 ^ 53)%Z -> Np.nearest_float64 z = z.
Proof.
  intros H. unfold Np.nearest_float64. apply Z.leb_le in H. now rewrite H.
Qed.

(** Beyond 2^53 the result has the form [± q * 2^e] with 53 significant bits. *)
Lemma nearest_big (z : Z) :
  (2 ^ 53 < Z.abs z)%Z ->
  exists q e : Z,
    (1 <= e)%Z /\ (2 ^ 52 <= q <= 2 ^ 53)%Z /\
    Np.nearest_float64 z = (Z.sgn z * (q * 2 ^ e))%Z.
Proof.
  intros H. unfold Np.nearest_float64.
  assert (Hle : (Z.abs z <=? 2 ^ 53)%Z = false) by (apply Z.leb_gt; exact H).
  rewrite Hle. cbv zeta.
  set (a := Z.abs z) in *.
  assert (Ha : (0 < a)%Z) by lia.
  assert (Hlog : (53 <= Z.log2 a)%Z).
  { change 53%Z with (Z.log2 (2 ^ 53)). apply Z.log2_le_mono. lia. }
  set (e := (Z.log2 a - 52)%Z).
  assert (He : (1 <= e)%Z) by (unfold e; lia).
  destruct (Z.log2_spec a Ha) as [Hlo Hhi].
  replace (Z.log2 a) with (52 + e)%Z in Hlo by (unfold e; lia).
  replace (Z.succ (Z.log2 a)) with (53 + e)%Z in Hhi by (unfold e; lia).
  rewrite Z.pow_add_r in Hlo, Hhi by lia.
  assert (Hp : (0 < 2 ^ e)%Z) by (apply Z.pow_pos_nonneg; lia).
  assert (Hq1 : (2 ^ 52 <= a / 2 ^ e)%Z) by (apply Z.div_le_lower_bound; lia).
  assert (Hq2 : (a / 2 ^ e < 2 ^ 53)%Z) by (apply Z.div_lt_upper_bound; lia).
  eexists. exists e. split; [exact He|]. split; [|reflexivity].
  destruct (_ || _)%bool; lia.
Qed.

Lemma nearest_canonical (sg q e : Z) :
  sg = 1%Z \/ sg = (-1)%Z ->
  (0 <= e)%Z -> (2 ^ 52 <= q <= 2 ^ 53)%Z ->
  Np.nearest_float64 (sg * (q * 2 ^ e)) = (sg * (q * 2 ^ e))%Z.
Proof.
  intros Hsg He Hq.
  assert (Hp : (0 < 2 ^ e)%Z) by (apply Z.pow_pos_nonneg; lia).
  set (w := (q * 2 ^ e)%Z).
  assert (Hw : (0 < w)%Z) by (unfold w; nia).
  assert (Habs : Z.abs (sg * w) = w) by (destruct Hsg; subst sg; lia).
  assert (Hsgn : Z.sgn (sg * w) = sg) by (destruct Hsg; subst sg; lia).
  destruct (Z_le_gt_dec w (2 ^ 53)) as [Hs|Hb].
  { apply nearest_small. now rewrite Habs. }
  unfold Np.nearest_float64. rewrite Habs, Hsgn.
  assert (Hle : (w <=? 2 ^ 53)%Z = false) by (apply Z.leb_gt; lia).
  rewrite Hle. cbv zeta.
  assert (He1 : (1 <= e)%Z).
  { destruct (Z.eq_dec e 0) as [->|]; [|lia]. unfold w in Hb. simpl in Hb. lia. }
  destruct (Z.eq_dec q (2 ^ 53)) as [Hq53|Hq53].
  - assert (Ew : w = (2 ^ (53 + e))%Z).
    { unfold w. rewrite Hq53, Z.pow_add_r by lia. reflexivity. }
    rewrite Ew, Z.log2_pow2 by lia.
    replace (53 + e - 52)%Z with (e + 1)%Z by lia.
    replace (53 + e)%Z with (52 + (e + 1))%Z by lia.
    rewrite (Z.pow_add_r 2 52 (e + 1)) by lia.
    assert (Hp1 : (0 < 2 ^ (e + 1))%Z) by (apply Z.pow_pos_nonneg; lia).
    rewrite (Z.div_mul (2 ^ 52) (2 ^ (e + 1))) by (apply Z.neq_sym, Z.lt_neq; exact Hp1).
    rewrite (Z.mod_mul (2 ^ 52) (2 ^ (e + 1))) by (apply Z.neq_sym, Z.lt_neq; exact Hp1).
    replace (e + 1 - 1)%Z with e by lia.
    assert (H1 : (2 ^ e <? 0)%Z = false) by (apply Z.ltb_ge; lia).
    assert (H2 : (0 =? 2 ^ e)%Z = false) by (apply Z.eqb_neq; lia).
    rewrite H1, H2. reflexivity.
  - assert (Hlq : Z.log2 q = 52%Z).
    { apply Z.log2_unique; [lia|]. change (Z.succ 52) with 53%Z. lia. }
    unfold w. rewrite Z.log2_mul_pow2 by lia. rewrite Hlq.
    replace (e + 52 - 52)%Z with e by lia.
    rewrite (Z.div_mul q (2 ^ e)) by (apply Z.neq_sym, Z.lt_neq; exact Hp).
    rewrite (Z.mod_mul q (2 ^ e)) by (apply Z.neq_sym, Z.lt_neq; exact Hp).
    assert (Hp1 : (0 < 2 ^ (e - 1))%Z) by (apply Z.pow_pos_nonneg; lia).
    assert (H1 : (2 ^ (e - 1) <? 0)%Z = false) by (apply Z.ltb_ge; lia).
    assert (H2 : (0 =? 2 ^ (e - 1))%Z = false) by (apply Z.eqb_neq; lia).
    rewrite H1, H2. reflexivity.
Qed.

Lemma nearest_idempotent (z : Z) :
  Np.nearest_float64 (Np.nearest_float64 z) = Np.nearest_float64 z.
Proof.
  destruct (Z_le_gt_dec (Z.abs z) (2 ^ 53)) as [Hs|Hb].
  - rewrite (nearest_small z Hs). exact (nearest_small z Hs).
  - destruct (@nearest_big z) as (q & e & He & Hq & E); [lia|].
    rewrite E. apply nearest_canonical; [lia|lia|exact Hq].
Qed.

Lemma Int_part_IZR (z : Z) : Int_part (IZR z) = z.
Proof.
  unfold Int_part.
  assert (H : (z + 1)%Z = up (IZR z)).
  { apply tech_up; rewrite plus_IZR; lra. }
  lia.
Qed.

Lemma to_float64_IZR (z : Z) : Np.to_float64 (IZR z) = IZR (Np.nearest_float64 z).
Proof.
  unfold Np.to_float64. rewrite Int_part_IZR.
  destruct (Req_dec_T (IZR z) (IZR z)) as [_|N]; [reflexivity|now destruct N].
Qed.

Lemma to_float64_exact (z : Z) : (Z.abs z <= 2 ^ 53)%Z -> Np.to_float64 (IZR z) = IZR z.
Proof. intros H. now rewrite to_float64_IZR, nearest_small. Qed.

Lemma to_float64_idempotent (r : R) : Np.to_float64 (Np.to_float64 r) = Np.to_float64 r.
Proof.
  destruct (Req_dec_T r (IZR (Int_part r))) as [E|N].
  - rewrite E. now rewrite !to_float64_IZR, nearest_idempotent.
  - assert (H : Np.to_float64 r = r).
    { unfold Np.to_float64.
      destruct (Req_dec_T r (IZR (Int_part r))); [contradiction|reflexivity]. }
    now rewrite !H.
Qed.

Lemma atol_pos : 0 < NpRandom.atol.
Proof.
  unfold NpRandom.atol, Np.float64_eps. apply sqrt_lt_R0.
  apply Rinv_0_lt_compat. apply pow_lt. lra.
Qed.

Lemma sig_Fin (x : R) : sig (Fin x) = Fin (1 / (1 + exp (- x))).
Proof.
  unfold sig. simpl Np.neg. simpl Np.exp. simpl Np.add.
  apply div_Fin. pose proof (exp_pos (- x)). lra.
Qed.

Lemma sig_Fin_range (x : R) : 0 < 1 / (1 + exp (- x)) < 1.
Proof.
  pose proof (exp_pos (- x)) as He.
  assert (Hd : 0 < 1 + exp (- x)) by lra.
  split.
  - apply Rdiv_lt_0_compat; lra.
  - apply Rmult_lt_reg_r with (1 + exp (- x)); [exact Hd|].
    unfold Rdiv. rewrite Rmult_assoc, Rinv_l by lra. lra.
Qed.

Lemma sig_zero : sig (Fin 0) = Fin (1 / 2).
Proof.
  rewrite sig_Fin. f_equal. rewrite Ropp_0, exp_0. lra.
Qed.

End FloatFacts.

(* ================================================================== *)
(** ** The Bernoulli trial *)

Section TrialFacts.

Local Open Scope R_scope.

Variable g : Seed.

Lemma trial_run (q : float64) (env : Env) :
  trial g q env =
  match NpRandom.choice_check [1%Z; 0%Z] [q; Np.sub (Fin 1) q] with
  | Some e => (Raise e, env)
  | None => (trial_at g (pos env) q, mkEnv (frame env) (S (pos env)))
  end.
Proof.
  unfold trial, trial_at, NpRandom.choice, bind.
  destruct (NpRandom.choice_check _ _) as [e|]; [reflexivity|].
  unfold NpRandom.random_sample, lift, ret. cbn [pos frame].
  destruct (NpRandom.choice_pick _ _ _); reflexivity.
Qed.

Lemma trial_frame (q : float64) (env : Env) :
  frame (snd (trial g q env)) = frame env.
Proof.
  rewrite trial_run. destruct (NpRandom.choice_check _ _); reflexivity.
Qed.

(** A normal return of the trial is its outcome at the current position,
    and moves the stream by one draw. *)
Lemma trial_ok (q : float64) (env env' : Env) (hit : bool) :
  trial g q env = (Ok hit, env') ->
  trial_at g (pos env) q = Ok hit /\ env' = mkEnv (frame env) (S (pos env)).
Proof.
  rewrite trial_run. destruct (NpRandom.choice_check _ _); [discriminate|].
  intros H. injection H as H1 H2. auto.
Qed.

Lemma check_Fin (r : R) :
  0 <= r <= 1 ->
  NpRandom.choice_check [1%Z; 0%Z] [Fin r; Np.sub (Fin 1) (Fin r)] = None.
Proof.
  intros Hr. unfold NpRandom.choice_check. cbn [List.length Nat.eqb negb].
  unfold NpRandom.kahan_sum. cbn [fold_left Np.sub Np.neg Np.add Np.isnan existsb].
  rewrite (ltb_Fin_false (a := r) (b := 0)) by lra.
  rewrite (ltb_Fin_false (a := 1 + - r) (b := 0)) by lra.
  cbn [orb]. unfold Np.gtb. cbn [Np.abs].
  replace (0 + r + (1 + - r) + - (1)) with 0 by lra.
  rewrite Rabs_R0, ltb_Fin_false; [reflexivity|].
  pose proof atol_pos. lra.
Qed.

(** With a probability in [0, 1] the trial succeeds exactly when the
    uniform sample falls below the probability. *)
Lemma trial_at_Fin (k : nat) (r : R) :
  0 <= r <= 1 ->
  trial_at g k (Fin r) = Ok (if Rlt_dec (uniform_at g k) r then true else false).
Proof.
  intros Hr. unfold trial_at. rewrite check_Fin by exact Hr.
  pose proof (uniform_range g k) as Hu.
  unfold NpRandom.choice_pick.
  cbn [NpRandom.cumsum NpRandom.cumsum_from Np.sub Np.neg Np.add last map].
  replace (r + (1 + - (r))) with 1 by lra.
  rewrite !div_Fin by lra.
  cbn [NpRandom.searchsorted_right].
  rewrite (leb_Fin_false (a := 1 / 1) (b := uniform_at g k)) by lra.
  destruct (Rlt_dec (uniform_at g k) r) as [Hlt|Hge].
  - rewrite leb_Fin_false by lra. reflexivity.
  - rewrite leb_Fin_true by lra. reflexivity.
Qed.

Lemma trial_at_zero (k : nat) (r : R) : r = 0 -> trial_at g k (Fin r) = Ok false.
Proof.
  intros ->. rewrite trial_at_Fin by lra.
  pose proof (uniform_range g k).
  destruct (Rlt_dec (uniform_at g k) 0); [lra|reflexivity].
Qed.

Lemma trial_at_one (k : nat) : trial_at g k (Fin 1) = Ok true.
Proof.
  rewrite trial_at_Fin by lra.
  pose proof (uniform_range g k).
  destruct (Rlt_dec (uniform_at g k) 1); [reflexivity|lra].
Qed.

Lemma trial_NaN (env : Env) :
  trial g NaN env = (Raise (ValueError "probabilities contain NaN"), env).
Proof. rewrite trial_run. reflexivity. Qed.

End TrialFacts.

(* ================================================================== *)
(** ** Reasoning about runs *)

Section RunFacts.

Context {A B : Type}.

Lemma bind_ok (m : M A) (k : A -> M B) (env env' : Env) (b : B) :
  bind m k env = (Ok b, env') ->
  exists a env1, m env = (Ok a, env1) /\ k a env1 = (Ok b, env').
Proof.
  unfold bind. destruct (m env) as [[a|e] env1]; [|discriminate].
  intros H. exists a, env1. auto.
Qed.

Lemma bind_step (m : M A) (k : A -> M B) (env env1 : Env) (a : A) :
  m env = (Ok a, env1) -> bind m k env = k a env1.
Proof. intros H. unfold bind. now rewrite H. Qed.

Lemma bind_raise (m : M A) (k : A -> M B) (env env1 : Env) (e : PyExc) :
  m env = (Raise e, env1) -> bind m k env = (Raise e, env1).
Proof. intros H. unfold bind. now rewrite H. Qed.

Lemma preserves_bind (P : DataFrame -> Prop) (m : M A) (k : A -> M B) :
  preserves P m -> (forall a, preserves P (k a)) -> preserves P (bind m k).
Proof.
  intros Hm Hk env r env' HP. unfold bind.
  destruct (m env) as [[a|e] env1] eqn:E; intros H.
  - eapply Hk; [|exact H]. eapply Hm; eauto.
  - injection H as _ <-. eapply Hm; eauto.
Qed.

Lemma preserves_bind_only (P : DataFrame -> Prop) (Q : A -> Prop)
    (m : M A) (k : A -> M B) :
  preserves P m -> returns_only Q m ->
  (forall a, Q a -> preserves P (k a)) -> preserves P (bind m k).
Proof.
  intros Hm HQ Hk env r env' HP. unfold bind.
  destruct (m env) as [[a|e] env1] eqn:E; intros H.
  - eapply Hk; [eapply HQ; eauto| |exact H]. eapply Hm; eauto.
  - injection H as _ <-. eapply Hm; eauto.
Qed.

End RunFacts.

Lemma frame_fixed_preserves {A} (P : DataFrame -> Prop) (m : M A) :
  frame_fixed m -> preserves P m.
Proof.
  intros H env r env' HP E. specialize (H env). rewrite E in H. simpl in H.
  now rewrite H.
Qed.

Lemma frame_fixed_bind {A B} (m : M A) (k : A -> M B) :
  frame_fixed m -> (forall a, frame_fixed (k a)) -> frame_fixed (bind m k).
Proof.
  intros Hm Hk env. unfold bind. specialize (Hm env).
  destruct (m env) as [[a|e] env1]; simpl in *.
  - now rewrite Hk.
  - exact Hm.
Qed.

Lemma frame_fixed_ret {A} (a : A) : frame_fixed (ret a).
Proof. intros env. reflexivity. Qed.

Lemma frame_fixed_raise {A} (e : PyExc) : frame_fixed (@raise A e).
Proof. intros env. reflexivity. Qed.

Lemma frame_fixed_lift {A} (r : Result A) : frame_fixed (lift r).
Proof. intros env. reflexivity. Qed.

Lemma frame_fixed_getitem (name : string) : frame_fixed (Pandas.getitem name).
Proof. intros env. unfold Pandas.getitem. now destruct (Pandas.lookup _ _). Qed.

Lemma frame_fixed_dtypes_loc (name : string) : frame_fixed (Pandas.dtypes_loc name).
Proof. intros env. unfold Pandas.dtypes_loc. now destruct (Pandas.lookup _ _). Qed.

Lemma frame_fixed_get_loc (name : string) : frame_fixed (Pandas.columns_get_loc name).
Proof. intros env. unfold Pandas.columns_get_loc. now destruct (Pandas.index_of _ _). Qed.

Lemma frame_fixed_get_shape0 : frame_fixed Pandas.get_shape0.
Proof. intros env. reflexivity. Qed.

Lemma frame_fixed_iloc (i j : nat) : frame_fixed (Pandas.iloc i j).
Proof.
  intros env. unfold Pandas.iloc.
  destruct (nth_error (columns _) j) as [[n s]|]; [|reflexivity].
  now destruct (nth_error (values s) i).
Qed.

Lemma frame_fixed_dict_getitem (d : Dict.t) (k : Cell) : frame_fixed (Dict.getitem d k).
Proof. intros env. unfold Dict.getitem. now destruct (Dict.get d k). Qed.

Lemma frame_fixed_as_float (c : Cell) : frame_fixed (as_float c).
Proof. intros env. unfold as_float. now destruct (to_float c). Qed.

Lemma frame_fixed_is_categorical (name : string) : frame_fixed (is_categorical name).
Proof.
  unfold is_categorical. apply frame_fixed_bind; [apply frame_fixed_dtypes_loc|].
  intros d. destruct (DType_eqb d DObject); [apply frame_fixed_ret|].
  apply frame_fixed_bind; [apply frame_fixed_dtypes_loc|].
  intros d'. apply frame_fixed_ret.
Qed.

Lemma frame_fixed_normal (g : Seed) : frame_fixed (NpRandom.normal g).
Proof. intros env. reflexivity. Qed.

Lemma frame_fixed_trial (g : Seed) (q : float64) : frame_fixed (trial g q).
Proof. intros env. apply trial_frame. Qed.

Lemma frame_fixed_comprehension (keys : list Cell) (f : Cell -> M float64) (d : Dict.t) :
  (forall k, frame_fixed (f k)) -> frame_fixed (Dict.comprehension keys f d).
Proof.
  intros Hf. revert d. induction keys as [|k keys IH]; intros d; simpl.
  - apply frame_fixed_ret.
  - apply frame_fixed_bind; [apply Hf|]. intros v. apply IH.
Qed.

Lemma frame_fixed_cat_dict_of (g : Seed) (s : Series) : frame_fixed (cat_dict_of g s).
Proof.
  unfold cat_dict_of. apply frame_fixed_comprehension. intros k.
  apply frame_fixed_bind; [apply frame_fixed_normal|]. intros z. apply frame_fixed_ret.
Qed.

Lemma preserves_for_enumerate_from {A} (P : DataFrame -> Prop)
    (l : list A) (body : nat -> A -> M unit) (i : nat) :
  (forall j a, preserves P (body j a)) ->
  preserves P (for_enumerate_from i l body).
Proof.
  intros Hb. revert i. induction l as [|a l IH]; intros i; simpl.
  - apply frame_fixed_preserves, frame_fixed_ret.
  - apply preserves_bind; [apply Hb|]. intros _. apply IH.
Qed.

Lemma preserves_for_range (P : DataFrame -> Prop) (n : nat) (body : nat -> M unit) :
  (forall j, preserves P (body j)) -> preserves P (for_range n body).
Proof.
  intros Hb. unfold for_range, for_enumerate.
  apply preserves_for_enumerate_from. intros _ j. apply Hb.
Qed.

Create HintDb frame_fixed.

#[local] Hint Resolve frame_fixed_ret frame_fixed_raise frame_fixed_lift
  frame_fixed_getitem frame_fixed_dtypes_loc frame_fixed_get_loc
  frame_fixed_get_shape0 frame_fixed_iloc frame_fixed_dict_getitem
  frame_fixed_as_float frame_fixed_is_categorical frame_fixed_normal
  frame_fixed_trial frame_fixed_cat_dict_of : frame_fixed.

(** Splits a run into its statements, leaving the frame-changing ones. *)
Ltac preserves_step :=
  match goal with
  | |- preserves _ (bind _ _) => apply preserves_bind; [|intros ?]
  | |- preserves _ (for_range _ _) => apply preserves_for_range; intros ?
  | |- preserves _ (for_enumerate _ _) =>
      apply preserves_for_enumerate_from; intros ? ?
  | |- preserves _ (if ?c then _ else _) => destruct c
  | |- preserves _ _ => solve [apply frame_fixed_preserves; auto with frame_fixed]
  end.

(* ================================================================== *)
(** ** Overwriting cells of one column *)

Section CastFacts.

Lemma upcast_idempotent (d : DType) :
  Pandas.upcast_for_nan (Pandas.upcast_for_nan d) = Pandas.upcast_for_nan d.
Proof. now destruct d. Qed.

Lemma astype_same (d : DType) (c : Cell) : Pandas.astype d d c = c.
Proof. now destruct d, c. Qed.

Lemma astype_other (d d' : DType) (c : Cell) : d <> DInt64 -> Pandas.astype d d' c = c.
Proof. intros H. destruct d; try reflexivity. now destruct H. Qed.

Lemma astype_categorical (d d' : DType) (c : Cell) :
  is_categorical_dtype d = true -> Pandas.astype d d' c = c.
Proof. intros H. apply astype_other. now destruct d. Qed.

Lemma astype_is_missing (d d' : DType) (c : Cell) :
  is_missing (Pandas.astype d d' c) = is_missing c.
Proof. destruct d, d', c as [s|b|[r| | |]]; reflexivity. Qed.

Lemma is_missing_nan (c : Cell) : is_missing c = true -> c = nan.
Proof. destruct c as [s|b|[r| | |]]; try discriminate. reflexivity. Qed.

Lemma astype_nan (d d' : DType) : Pandas.astype d d' nan = nan.
Proof. now destruct d, d'. Qed.

Lemma astype_nan_inv (d d' : DType) (c : Cell) : Pandas.astype d d' c = nan -> c = nan.
Proof.
  intros H. apply is_missing_nan. rewrite <- (astype_is_missing d d' c). now rewrite H.
Qed.

(** Casting along the way is casting at the end. *)
Lemma astype_upcast (d0 d1 : DType) (c : Cell) :
  d1 = d0 \/ d1 = Pandas.upcast_for_nan d0 ->
  Pandas.astype d1 (Pandas.upcast_for_nan d1) (Pandas.astype d0 d1 c) =
  Pandas.astype d0 (Pandas.upcast_for_nan d1) c.
Proof. intros [-> | ->]; destruct d0, c; reflexivity. Qed.

(** The float a cell stands for does not depend on the cast. *)
Lemma to_float_astype (d d' : DType) (c : Cell) :
  to_float (Pandas.astype d d' c) = to_float c.
Proof.
  destruct d, d', c as [s|b|[r| | |]]; try reflexivity.
  cbn [Pandas.astype to_float Np.as_float64]. now rewrite to_float64_idempotent.
Qed.

Lemma lookup_replace (cols : list (string * Series)) (col name : string) (s s' : Series) :
  Pandas.lookup cols col = Some s ->
  Pandas.lookup (Pandas.replace cols col s') name =
  if String.eqb name col then Some s' else Pandas.lookup cols name.
Proof.
  induction cols as [|[n s1] cols IH]; simpl; [discriminate|].
  destruct (String.eqb n col) eqn:E; intros H.
  - apply String.eqb_eq in E. subst n. simpl.
    rewrite (String.eqb_sym name col).
    destruct (String.eqb col name); reflexivity.
  - simpl. destruct (String.eqb n name) eqn:E2.
    + apply String.eqb_eq in E2. subst n. now rewrite E.
    + apply IH. exact H.
Qed.

Lemma replace_same (cols : list (string * Series)) (col : string) (s : Series) :
  Pandas.lookup cols col = Some s -> Pandas.replace cols col s = cols.
Proof.
  induction cols as [|[n s1] cols IH]; simpl; [reflexivity|].
  destruct (String.eqb n col); intros H.
  - now injection H as ->.
  - now rewrite IH.
Qed.

Lemma replace_replace (cols : list (string * Series)) (col : string) (s1 s2 : Series) :
  Pandas.replace (Pandas.replace cols col s1) col s2 = Pandas.replace cols col s2.
Proof.
  induction cols as [|[n s] cols IH]; simpl; [reflexivity|].
  destruct (String.eqb n col) eqn:E; simpl; rewrite E; [reflexivity|now rewrite IH].
Qed.

Lemma replace_names (cols : list (string * Series)) (col : string) (s' : Series) :
  map fst (Pandas.replace cols col s') = map fst cols.
Proof.
  induction cols as [|[n s] cols IH]; simpl; [reflexivity|].
  destruct (String.eqb n col); simpl; [reflexivity|now rewrite IH].
Qed.

Lemma nth_error_list_set {A} (l : list A) (i j : nat) (a : A) :
  i < List.length l ->
  nth_error (Pandas.list_set l i a) j =
  if Nat.eqb j i then Some a else nth_error l j.
Proof.
  revert i j. induction l as [|x l IH]; intros [|i] [|j] H; simpl in *;
    try lia; try reflexivity.
  apply IH. lia.
Qed.

Lemma Forall2_nth {A B} (R : A -> B -> Prop) (l : list A) (l' : list B) (i : nat) :
  Forall2 R l l' ->
  match nth_error l i, nth_error l' i with
  | Some a, Some b => R a b
  | None, None => True
  | _, _ => False
  end.
Proof.
  intros H. revert i. induction H as [|a b l l' Hab H IH]; intros [|i]; simpl.
  - exact I.
  - exact I.
  - exact Hab.
  - apply IH.
Qed.

Lemma Forall2_cast_set (R R' : Cell -> Cell -> Prop) (f : Cell -> Cell)
    (l0 l : list Cell) (i : nat) :
  (forall v v', R v v' -> R' v (f v')) ->
  (forall v, R' v nan) ->
  Forall2 R l0 l ->
  Forall2 R' l0 (Pandas.list_set (map f l) i nan).
Proof.
  intros Hf Hn H. revert i. induction H as [|v v' l0 l Hv H IH]; intros [|i]; simpl;
    constructor; auto.
  clear IH. induction H; simpl; constructor; auto.
Qed.

Lemma converted_refl (s : Series) : converted s s.
Proof.
  split; [now left|].
  induction (values s) as [|v l IH]; constructor; [|exact IH].
  right. now rewrite astype_same.
Qed.

(** Overwriting a cell of an already converted column. *)
Lemma converted_setitem (s0 s1 : Series) (i : nat) :
  converted s0 s1 ->
  converted s0
    (mkSeries (Pandas.upcast_for_nan (dtype s1))
       (Pandas.list_set
          (map (Pandas.astype (dtype s1) (Pandas.upcast_for_nan (dtype s1))) (values s1))
          i nan)).
Proof.
  intros [Hd H]. split; cbn [dtype values].
  - destruct Hd as [-> | ->]; [now right|]. right. apply upcast_idempotent.
  - eapply Forall2_cast_set; [| |exact H].
    + intros v v' [-> | ->].
      * left. apply astype_nan.
      * right. apply astype_upcast. exact Hd.
    + intros v. now left.
Qed.

End CastFacts.

Section OverwriteFacts.

Variable col : string.

Lemma column_overwritten_refl (c : string * Series) : column_overwritten col c c.
Proof. split; [reflexivity|left; reflexivity]. Qed.

Lemma columns_overwritten_refl (cols : list (string * Series)) :
  Forall2 (column_overwritten col) cols cols.
Proof. induction cols; constructor; auto using column_overwritten_refl. Qed.

Lemma cast_overwrite_refl (ds : DataFrame) : cast_overwrite col ds ds.
Proof.
  split; [reflexivity|].
  destruct (Pandas.lookup (columns ds) col) as [s|] eqn:El; [|reflexivity].
  exists s. split; [symmetry; now apply replace_same|apply converted_refl].
Qed.

Lemma preserves_setitem (ds0 : DataFrame) (i : nat) :
  preserves (cast_overwrite col ds0) (Pandas.setitem_iloc_nan col i).
Proof.
  intros env r env' [Hn Hc]. unfold Pandas.setitem_iloc_nan.
  destruct (Pandas.lookup (columns (frame env)) col) as [s|] eqn:El.
  - destruct (i <? List.length (values s)); intros H; injection H as _ <-;
      [|split; assumption].
    split; [exact Hn|]. cbn [frame columns].
    destruct (Pandas.lookup (columns ds0) col) as [s0|] eqn:E0.
    + destruct Hc as (s1 & Hcols & Hconv).
      rewrite Hcols in El. rewrite (@lookup_replace _ _ _ _ _ E0), String.eqb_refl in El.
      injection El as ->.
      eexists. split; [rewrite Hcols; apply replace_replace|].
      now apply converted_setitem.
    + rewrite Hc in El. congruence.
  - intros H. injection H as _ <-. split; assumption.
Qed.

(** How columns and cells compare across an overwrite. *)
Lemma overwrite_lookup_col (ds ds' : DataFrame) (s : Series) :
  cast_overwrite col ds ds' ->
  Pandas.lookup (columns ds) col = Some s ->
  exists s', Pandas.lookup (columns ds') col = Some s' /\ converted s s'.
Proof.
  intros [_ H] Hl. rewrite Hl in H. destruct H as (s' & Hcols & Hconv).
  exists s'. split; [|exact Hconv].
  rewrite Hcols, (@lookup_replace _ _ _ _ _ Hl). now rewrite String.eqb_refl.
Qed.

Lemma overwrite_lookup_None (ds ds' : DataFrame) :
  cast_overwrite col ds ds' ->
  Pandas.lookup (columns ds) col = None ->
  Pandas.lookup (columns ds') col = None.
Proof. intros [_ H] Hl. rewrite Hl in H. now rewrite H. Qed.

Lemma overwrite_other_column (ds ds' : DataFrame) (name : string) :
  cast_overwrite col ds ds' -> name <> col ->
  Pandas.lookup (columns ds') name = Pandas.lookup (columns ds) name.
Proof.
  intros [_ H] Hne.
  destruct (Pandas.lookup (columns ds) col) as [s|] eqn:Hl.
  - destruct H as (s' & Hcols & _). rewrite Hcols, (@lookup_replace _ _ _ _ _ Hl).
    apply String.eqb_neq in Hne. now rewrite Hne.
  - now rewrite H.
Qed.

Lemma overwrite_names (ds ds' : DataFrame) :
  cast_overwrite col ds ds' ->
  map fst (columns ds') = map fst (columns ds).
Proof.
  intros [_ H]. destruct (Pandas.lookup (columns ds) col) as [s|].
  - destruct H as (s' & -> & _). apply replace_names.
  - now rewrite H.
Qed.

Lemma stored_nan (ds ds' : DataFrame) (name : string) : stored ds ds' name nan = nan.
Proof.
  unfold stored.
  destruct (Pandas.lookup (columns ds) name), (Pandas.lookup (columns ds') name);
    try reflexivity.
  apply astype_nan.
Qed.

Lemma stored_refl (ds : DataFrame) (name : string) (c : Cell) : stored ds ds name c = c.
Proof.
  unfold stored. destruct (Pandas.lookup (columns ds) name); [|reflexivity].
  apply astype_same.
Qed.

Lemma stored_nan_inv (ds ds' : DataFrame) (name : string) (c : Cell) :
  stored ds ds' name c = nan -> c = nan.
Proof.
  unfold stored.
  destruct (Pandas.lookup (columns ds) name), (Pandas.lookup (columns ds') name); auto.
  apply astype_nan_inv.
Qed.

Lemma to_float_stored (ds ds' : DataFrame) (name : string) (c : Cell) :
  to_float (stored ds ds' name c) = to_float c.
Proof.
  unfold stored.
  destruct (Pandas.lookup (columns ds) name), (Pandas.lookup (columns ds') name);
    try reflexivity.
  apply to_float_astype.
Qed.

(** The cells of a column that takes the categorical branch are held as
    they are. *)
Lemma stored_categorical (ds ds' : DataFrame) (name : string) (s : Series) (c : Cell) :
  Pandas.lookup (columns ds) name = Some s ->
  is_categorical_dtype (dtype s) = true ->
  stored ds ds' name c = c.
Proof.
  intros Hl Hc. unfold stored. rewrite Hl.
  destruct (Pandas.lookup (columns ds') name); [|reflexivity].
  now apply astype_categorical.
Qed.

Lemma overwrite_cell (ds ds' : DataFrame) (name : string) (i : nat) :
  cast_overwrite col ds ds' ->
  match cell ds name i, cell ds' name i with
  | Some c, Some c' => c' = nan \/ c' = stored ds ds' name c
  | None, None => True
  | _, _ => False
  end.
Proof.
  intros H. destruct (string_dec name col) as [->|Hne].
  - unfold cell, stored.
    destruct (Pandas.lookup (columns ds) col) as [s|] eqn:Hl.
    + destruct (overwrite_lookup_col H Hl) as (s' & Hl' & _ & Hv). rewrite Hl'.
      exact (Forall2_nth i Hv).
    + rewrite (overwrite_lookup_None H Hl). exact I.
  - unfold cell, stored. rewrite (overwrite_other_column H Hne).
    destruct (Pandas.lookup (columns ds) name) as [s|]; [|exact I].
    destruct (nth_error (values s) i); [|exact I].
    right. now rewrite astype_same.
Qed.

Lemma overwrite_missing_stays (ds ds' : DataFrame) (name : string) (i : nat) (c : Cell) :
  cast_overwrite col ds ds' ->
  cell ds name i = Some c -> is_missing c = true ->
  cell ds' name i = Some nan.
Proof.
  intros H Hc Hm. apply overwrite_cell with (name := name) (i := i) in H.
  rewrite Hc in H. destruct (cell ds' name i) as [c'|]; [|contradiction].
  apply is_missing_nan in Hm. subst c.
  destruct H as [-> | ->]; [reflexivity|now rewrite stored_nan].
Qed.

(** An overwrite that leaves only missing cells in the column is an
    overwrite by the missing marker alone. *)
Lemma replace_all_nan (cols : list (string * Series)) (s s' : Series) :
  Pandas.lookup cols col = Some s ->
  Forall2 (fun v v' : Cell => v' = v \/ v' = nan) (values s) (values s') ->
  Forall2 (column_overwritten col) cols (Pandas.replace cols col s').
Proof.
  induction cols as [|[n s1] cols IH]; simpl; [discriminate|].
  destruct (String.eqb n col) eqn:E; intros Hl Hv.
  - injection Hl as ->. apply String.eqb_eq in E. constructor.
    + split; [reflexivity|]. right. split; [exact E|exact Hv].
    + apply columns_overwritten_refl.
  - constructor; [apply column_overwritten_refl|]. now apply IH.
Qed.

Lemma cast_overwrite_all_nan (ds ds' : DataFrame) (s : Series) :
  cast_overwrite col ds ds' ->
  Pandas.lookup (columns ds) col = Some s ->
  (forall i, i < List.length (values s) -> cell ds' col i = Some nan) ->
  nan_overwrite col ds ds'.
Proof.
  intros H Hl Hall. destruct (overwrite_lookup_col H Hl) as (s' & Hl' & Hd & Hv).
  destruct H as [Hn H]. rewrite Hl in H. destruct H as (s2 & Hcols & _).
  assert (s2 = s').
  { rewrite Hcols, (@lookup_replace _ _ _ _ _ Hl), String.eqb_refl in Hl'. congruence. }
  subst s2. split; [exact Hn|]. rewrite Hcols. apply replace_all_nan with (s := s);
    [exact Hl|].
  assert (Hc : forall i, i < List.length (values s) -> nth_error (values s') i = Some nan).
  { intros i Hi. specialize (Hall i Hi). unfold cell in Hall. now rewrite Hl' in Hall. }
  clear Hl Hl' Hcols Hall Hd. revert Hc.
  induction Hv as [|v v' l l' _ Hv IH]; intros Hc; constructor.
  - right. specialize (Hc 0). simpl in Hc. injection Hc as ->; [reflexivity|lia].
  - apply IH. intros i Hi. apply (Hc (S i)). simpl. lia.
Qed.

End OverwriteFacts.

(* ================================================================== *)
(** ** The mechanisms only ever overwrite cells of the target column *)

Section MechanismFrames.

Variable g : Seed.

Lemma preserves_mcar (ds0 : DataFrame) (column : string) (p : float64) :
  preserves (cast_overwrite column ds0) (mcar g column p).
Proof.
  unfold mcar. repeat preserves_step. apply preserves_setitem.
Qed.

Lemma preserves_mar (ds0 : DataFrame) (miss dep : string) (b : float64) :
  preserves (cast_overwrite miss ds0) (mar g miss dep b).
Proof.
  unfold mar, mar_categorical, mar_numeric.
  repeat preserves_step; apply preserves_setitem.
Qed.

Lemma preserves_nmar (ds0 : DataFrame) (column : string) (b : float64) :
  preserves (cast_overwrite column ds0) (nmar g column b).
Proof.
  unfold nmar, nmar_categorical, nmar_numeric.
  repeat preserves_step; apply preserves_setitem.
Qed.

End MechanismFrames.

(* ================================================================== *)
(** ** Parameter validation *)

Lemma outside_out_of_range (x : float64) :
  outside_unit_interval x -> out_of_range x = true.
Proof.
  unfold out_of_range, Np.gtb. destruct x as [r| | |]; simpl; intros H.
  - destruct H as [H|H].
    + destruct (Rlt_dec r 0); [reflexivity|contradiction].
    + destruct (Rlt_dec r 0); [reflexivity|].
      destruct (Rlt_dec 1 r); [reflexivity|contradiction].
  - reflexivity.
  - reflexivity.
  - contradiction.
Qed.

Lemma in_range_not_out (r : R) : (0 <= r <= 1)%R -> out_of_range (Fin r) = false.
Proof.
  intros H. unfold out_of_range, Np.gtb. now rewrite !ltb_Fin_false by lra.
Qed.

(* ================================================================== *)
(** ** The injection loop, row by row *)

Lemma setitem_ok (miss : string) (j : nat) (env env' : Env) :
  Pandas.setitem_iloc_nan miss j env = (Ok tt, env') ->
  pos env' = pos env /\
  (exists v, cell (frame env) miss j = Some v) /\
  cell (frame env') miss j = Some nan /\
  (forall i, i <> j ->
     cell (frame env') miss i =
       option_map (stored (frame env) (frame env') miss) (cell (frame env) miss i)).
Proof.
  unfold Pandas.setitem_iloc_nan, cell, stored.
  destruct (Pandas.lookup (columns (frame env)) miss) as [s|] eqn:El; [|discriminate].
  destruct (j <? List.length (values s)) eqn:Ej; [|discriminate].
  apply Nat.ltb_lt in Ej. intros H. injection H as <-. cbn [frame pos columns].
  rewrite lookup_replace with (s := s) by exact El. rewrite String.eqb_refl.
  cbn [values dtype].
  assert (Ej' : j < List.length
                      (map (Pandas.astype (dtype s) (Pandas.upcast_for_nan (dtype s)))
                           (values s))) by now rewrite length_map.
  split; [reflexivity|]. split.
  - destruct (nth_error (values s) j) eqn:En; [eauto|].
    apply nth_error_None in En. lia.
  - split.
    + rewrite nth_error_list_set by exact Ej'. now rewrite Nat.eqb_refl.
    + intros i Hi. rewrite nth_error_list_set by exact Ej'.
      apply Nat.eqb_neq in Hi. rewrite Hi. apply nth_error_map.
Qed.

Lemma setitem_total (miss : string) (j : nat) (env : Env) (v : Cell) :
  cell (frame env) miss j = Some v ->
  exists env', Pandas.setitem_iloc_nan miss j env = (Ok tt, env').
Proof.
  unfold Pandas.setitem_iloc_nan, cell.
  destruct (Pandas.lookup (columns (frame env)) miss) as [s|]; [|discriminate].
  intros H. assert (Hj : j < List.length (values s)).
  { apply nth_error_Some. congruence. }
  apply Nat.ltb_lt in Hj. rewrite Hj. eauto.
Qed.

(** What a cell was cast to before an overwrite and is cast to by it is
    what it is cast to in the end. *)
Lemma stored_step (miss : string) (j : nat) (ds0 : DataFrame) (env env' : Env) (v : Cell) :
  cast_overwrite miss ds0 (frame env) ->
  Pandas.setitem_iloc_nan miss j env = (Ok tt, env') ->
  stored (frame env) (frame env') miss (stored ds0 (frame env) miss v) =
  stored ds0 (frame env') miss v.
Proof.
  intros Hov H. unfold Pandas.setitem_iloc_nan in H. unfold stored.
  destruct (Pandas.lookup (columns (frame env)) miss) as [s|] eqn:El; [|discriminate].
  destruct (j <? List.length (values s)); [|discriminate].
  injection H as <-. cbn [frame columns].
  rewrite lookup_replace with (s := s) by exact El. rewrite String.eqb_refl.
  cbn [dtype].
  destruct (Pandas.lookup (columns ds0) miss) as [s0|] eqn:E0.
  - destruct (overwrite_lookup_col Hov E0) as (s1 & El1 & Hd & _).
    assert (s1 = s) by congruence. subst s1.
    apply astype_upcast. exact Hd.
  - rewrite (overwrite_lookup_None Hov E0) in El. discriminate.
Qed.

Section InjectionLoop.

Variable g : Seed.
Variable miss : string.
Variable ds0 : DataFrame.
Variable k0 : nat.
Variable Q : nat -> Result float64.

Lemma rows_done_start : rows_done g miss ds0 k0 Q 0 (mkEnv ds0 k0).
Proof.
  split; [simpl; lia|]. split; [apply cast_overwrite_refl|].
  split; [intros i Hi; lia|].
  intros i _. cbn [frame]. destruct (cell ds0 miss i); [|reflexivity].
  simpl. now rewrite stored_refl.
Qed.

Lemma inject_row_ok (j : nat) (env env' : Env) :
  rows_done g miss ds0 k0 Q j env ->
  inject_row g miss (Q j) j env = (Ok tt, env') ->
  rows_done g miss ds0 k0 Q (S j) env'.
Proof.
  intros (Hpos & Hov & Hdone & Htodo) H. unfold inject_row in H.
  apply bind_ok in H as (q & env1 & Hq & H).
  unfold lift in Hq. injection Hq as Hq <-.
  apply bind_ok in H as (hit & env2 & Ht & H).
  apply trial_ok in Ht as [Ht ->]. rewrite Hpos in Ht.
  assert (Hstep : pos env' = k0 + S j /\
                  cast_overwrite miss ds0 (frame env') /\
                  (hit = true -> exists v, cell ds0 miss j = Some v) /\
                  (forall v, cell ds0 miss j = Some v ->
                             cell (frame env') miss j =
                               Some (if hit then nan else stored ds0 (frame env') miss v)) /\
                  (forall i, i <> j ->
                     cell (frame env') miss i =
                       option_map (stored (frame env) (frame env') miss)
                                  (cell (frame env) miss i)) /\
                  (forall v, stored (frame env) (frame env') miss
                               (stored ds0 (frame env) miss v) =
                             stored ds0 (frame env') miss v)).
  { destruct hit.
    - pose proof (@preserves_setitem miss ds0 j
                    (mkEnv (frame env) (S (pos env))) _ _ Hov H) as Hov'.
      assert (Hst : forall v, stored (frame env) (frame env') miss
                                (stored ds0 (frame env) miss v) =
                              stored ds0 (frame env') miss v).
      { intros v.
        exact (@stored_step miss j ds0 (mkEnv (frame env) (S (pos env))) env' v Hov H). }
      apply setitem_ok in H as (Hp & Hex & Hj & Hother). cbn [frame pos] in *.
      split; [lia|]. split; [exact Hov'|]. split; [|split; [auto|split; assumption]].
      intros _. rewrite Htodo in Hex by lia.
      destruct (cell ds0 miss j) as [v|]; [eauto|]. now destruct Hex.
    - unfold ret in H. injection H as <-. cbn [frame pos].
      split; [lia|]. split; [exact Hov|]. split; [discriminate|].
      split; [|split].
      + intros v Hv. rewrite Htodo by lia. now rewrite Hv.
      + intros i _. destruct (cell (frame env) miss i); [|reflexivity].
        simpl. now rewrite stored_refl.
      + intros v. apply stored_refl. }
  destruct Hstep as (Hpos' & Hov' & Hex & Hj & Hother & Hst).
  split; [exact Hpos'|]. split; [exact Hov'|]. split.
  - intros i Hi. destruct (Nat.eq_dec i j) as [->|Hne].
    + exists q, hit. auto.
    + destruct (Hdone i) as (q' & hit' & Hq' & Ht' & Hex' & Hc'); [lia|].
      exists q', hit'. split; [exact Hq'|]. split; [exact Ht'|].
      split; [exact Hex'|].
      intros v Hv. rewrite Hother by exact Hne. rewrite (Hc' v Hv). simpl.
      destruct hit'; [now rewrite stored_nan|now rewrite Hst].
  - intros i Hi. rewrite Hother by lia. rewrite Htodo by lia.
    destruct (cell ds0 miss i); [|reflexivity]. simpl. now rewrite Hst.
Qed.

(** A loop whose iterations are injection steps ends, when it returns,
    with every row done. *)
Lemma inject_loop_ok {A} (l : list A) (body : nat -> A -> M unit) :
  forall i env env',
    (forall j a e, i <= j -> nth_error l (j - i) = Some a ->
                   rows_done g miss ds0 k0 Q j e ->
                   body j a e = inject_row g miss (Q j) j e) ->
    rows_done g miss ds0 k0 Q i env ->
    for_enumerate_from i l body env = (Ok tt, env') ->
    rows_done g miss ds0 k0 Q (i + List.length l) env'.
Proof.
  induction l as [|a l IH]; intros i env env' Hb Hinv H; simpl in *.
  - unfold ret in H. injection H as <-. now rewrite Nat.add_0_r.
  - apply bind_ok in H as ([] & env1 & H1 & H).
    rewrite Hb in H1; [|lia|now rewrite Nat.sub_diag|exact Hinv].
    apply inject_row_ok in H1; [|exact Hinv].
    replace (i + S (List.length l)) with (S i + List.length l) by lia.
    eapply IH; [|exact H1|exact H].
    intros j a' e Hj Hn. apply Hb; [lia|].
    replace (j - i) with (S (j - S i)) by lia. exact Hn.
Qed.

(** Such a loop returns normally as soon as every row has a valid trial
    probability and every row whose trial returns 1 has a cell to overwrite. *)
Lemma inject_loop_total {A} (l : list A) (body : nat -> A -> M unit) :
  forall i env,
    (forall j a e, i <= j -> nth_error l (j - i) = Some a ->
                   rows_done g miss ds0 k0 Q j e ->
                   body j a e = inject_row g miss (Q j) j e) ->
    rows_done g miss ds0 k0 Q i env ->
    (forall j, i <= j < i + List.length l ->
       exists q hit, Q j = Ok q /\ trial_at g (k0 + j) q = Ok hit /\
                     (hit = true -> exists v, cell ds0 miss j = Some v)) ->
    exists env', for_enumerate_from i l body env = (Ok tt, env').
Proof.
  induction l as [|a l IH]; intros i env Hb Hinv Hrows; simpl in *.
  - eexists. reflexivity.
  - assert (Hrow : exists env1, inject_row g miss (Q i) i env = (Ok tt, env1)).
    { destruct (Hrows i) as (q & hit & Hq & Ht & Hcell); [lia|].
      destruct Hinv as (Hpos & Hov & Hdone & Htodo).
      unfold inject_row. rewrite Hq. unfold lift.
      erewrite bind_step by reflexivity.
      pose proof (trial_run g q env) as Hrun. unfold trial_at in Ht.
      rewrite Hpos in Hrun.
      destruct (NpRandom.choice_check _ _) eqn:Ec; [discriminate|].
      unfold trial_at in Hrun. rewrite Ec, Ht in Hrun.
      erewrite bind_step by exact Hrun.
      destruct hit; [|eexists; reflexivity].
      destruct Hcell as [v Hv]; [reflexivity|].
      apply setitem_total with (v := stored ds0 (frame env) miss v). cbn [frame].
      rewrite Htodo by lia. now rewrite Hv. }
    destruct Hrow as [env1 H1].
    assert (H1' : body i a env = (Ok tt, env1)).
    { rewrite Hb; [exact H1|lia|now rewrite Nat.sub_diag|exact Hinv]. }
    apply inject_row_ok in H1; [|exact Hinv].
    destruct (IH (S i) env1) as [env' H']; [|exact H1| |].
    + intros j a' e Hj Hn. apply Hb; [lia|].
      replace (j - i) with (S (j - S i)) by lia. exact Hn.
    + intros j Hj. apply Hrows. lia.
    + exists env'. erewrite bind_step by exact H1'. exact H'.
Qed.

End InjectionLoop.

(* ================================================================== *)
(** ** Trials that cannot succeed *)

Section ZeroProbability.

Variable g : Seed.

Lemma trial_never_hits (q : float64) :
  never_hits q -> returns_only (fun hit => hit = false) (trial g q).
Proof.
  intros Hq env hit env' H. apply trial_ok in H as [H _].
  destruct Hq as [->|(r & -> & Hr)].
  - discriminate.
  - rewrite trial_at_zero in H by exact Hr. congruence.
Qed.

Lemma mul_zero_never_hits (pr : float64) : never_hits (Np.mul pr (Fin 0%R)).
Proof.
  destruct pr as [x| | |]; simpl.
  - right. exists (x * 0)%R. split; [reflexivity|lra].
  - left. now rewrite Rsign_zero.
  - left. now rewrite Rsign_zero.
  - left. reflexivity.
Qed.

Lemma preserves_inject_never (P : DataFrame -> Prop) (q : float64) (miss : string) (i : nat) :
  never_hits q ->
  preserves P (hit <- trial g q ;;
               if hit then Pandas.setitem_iloc_nan miss i else ret tt).
Proof.
  intros Hq. apply preserves_bind_only with (Q := fun hit => hit = false).
  - apply frame_fixed_preserves, frame_fixed_trial.
  - apply trial_never_hits, Hq.
  - intros hit ->. apply frame_fixed_preserves, frame_fixed_ret.
Qed.

End ZeroProbability.

Ltac preserves_zero_step :=
  match goal with
  | |- preserves _ (bind (trial _ _) _) =>
      apply preserves_inject_never;
      first [apply mul_zero_never_hits | right; eexists; split; reflexivity]
  | |- preserves _ (bind _ _) => apply preserves_bind; [|intros ?]
  | |- preserves _ (for_range _ _) => apply preserves_for_range; intros ?
  | |- preserves _ (for_enumerate _ _) =>
      apply preserves_for_enumerate_from; intros ? ?
  | |- preserves _ (if ?c then _ else _) => destruct c
  | |- preserves _ _ => solve [apply frame_fixed_preserves; auto with frame_fixed]
  end.

(* ================================================================== *)
(** ** MCAR *)

Section Mcar.

Variable g : Seed.

Lemma mcar_returns (ds : DataFrame) (k : nat) (column : string) (p : float64)
    (s : Series) (env' : Env) :
  Pandas.lookup (columns ds) column = Some s ->
  mcar g column p (mkEnv ds k) = (Ok tt, env') ->
  rows_done g column ds k (fun _ => Ok p) (List.length (values s)) env'.
Proof.
  intros Hl H. unfold mcar in H. destruct (out_of_range p); [discriminate|].
  apply bind_ok in H as (s' & env1 & Hs & H).
  unfold Pandas.getitem in Hs. cbn [frame columns] in Hs. rewrite Hl in Hs.
  injection Hs as <- <-.
  apply (inject_loop_ok (g := g) (miss := column) (ds0 := ds) (k0 := k)
           (Q := fun _ => Ok p)) in H.
  - exact H.
  - intros j a e _ _ _. reflexivity.
  - apply rows_done_start.
Qed.

Lemma mcar_total (ds : DataFrame) (k : nat) (column : string) (p : float64) (s : Series) :
  Pandas.lookup (columns ds) column = Some s ->
  out_of_range p = false ->
  (forall j, exists hit, trial_at g (k + j) p = Ok hit) ->
  exists env', mcar g column p (mkEnv ds k) = (Ok tt, env').
Proof.
  intros Hl Hp Ht. unfold mcar. rewrite Hp.
  assert (Hs : Pandas.getitem column (mkEnv ds k) = (Ok s, mkEnv ds k)).
  { unfold Pandas.getitem. cbn [frame columns]. now rewrite Hl. }
  erewrite bind_step by exact Hs.
  apply (inject_loop_total (g := g) (miss := column) (ds0 := ds) (k0 := k)
           (Q := fun _ => Ok p)).
  - intros j a e _ _ _. reflexivity.
  - apply rows_done_start.
  - intros j Hj. destruct (Ht j) as [hit Hhit]. exists p, hit.
    split; [reflexivity|]. split; [exact Hhit|]. intros _.
    unfold cell. rewrite Hl.
    destruct (nth_error (values s) j) eqn:En; [eauto|].
    apply nth_error_None in En. simpl in Hj. lia.
Qed.

Lemma mcar_zero_frame (ds : DataFrame) (column : string) :
  preserves (fun f => f = ds) (mcar g column (Fin 0%R)).
Proof.
  unfold mcar. repeat preserves_zero_step.
Qed.

End Mcar.

Lemma mcar_zero_run
    (g : Seed) (ds : DataFrame) (k : nat) (column : string) (s : Series) :
  Pandas.lookup (columns ds) column = Some s ->
  mcar g column (Fin 0%R) (mkEnv ds k) =
    (Ok tt, mkEnv ds (k + List.length (values s))).
Proof.
  intros Hl.
  destruct (@mcar_total g ds k column (Fin 0%R) s Hl) as [env' H].
  - apply in_range_not_out. lra.
  - intros j. exists false. apply trial_at_zero. reflexivity.
  - rewrite H. f_equal.
    pose proof (@mcar_zero_frame g ds column (mkEnv ds k) _ _ eq_refl H) as Hf.
    apply mcar_returns with (s := s) in H; [|exact Hl].
    destruct H as (Hpos & _). destruct env' as [f n]. simpl in *. congruence.
Qed.

Lemma mcar_one_run
    (g : Seed) (ds : DataFrame) (k : nat) (column : string) (s : Series) :
  Pandas.lookup (columns ds) column = Some s ->
  exists ds',
    mcar g column (Fin 1%R) (mkEnv ds k) =
      (Ok tt, mkEnv ds' (k + List.length (values s))) /\
    nan_overwrite column ds ds' /\
    forall i, i < List.length (values s) -> cell ds' column i = Some nan.
Proof.
  intros Hl.
  destruct (@mcar_total g ds k column (Fin 1%R) s Hl) as [env' H].
  - apply in_range_not_out. lra.
  - intros j. exists true. apply trial_at_one.
  - exists (frame env').
    pose proof (@mcar_returns g ds k column _ s env' Hl H) as (Hpos & Hov & Hdone & _).
    assert (Hall : forall i, i < List.length (values s) ->
                     cell (frame env') column i = Some nan).
    { intros i Hi. destruct (Hdone i Hi) as (q & hit & Hq & Ht & _ & Hc).
      injection Hq as <-. rewrite trial_at_one in Ht. injection Ht as <-.
      destruct (nth_error (values s) i) as [v|] eqn:En.
      - apply (Hc v). unfold cell. now rewrite Hl.
      - apply nth_error_None in En. lia. }
    split; [|split; [|exact Hall]].
    + rewrite H. f_equal. destruct env' as [f n]. simpl in *. congruence.
    + exact (@cast_overwrite_all_nan column ds (frame env') s Hov Hl Hall).
Qed.

(* ================================================================== *)
(** ** Reading a column *)

Lemma lookup_index_of (cols : list (string * Series)) (name : string) (s : Series) :
  Pandas.lookup cols name = Some s ->
  exists j, Pandas.index_of cols name = Some j /\ nth_error cols j = Some (name, s).
Proof.
  induction cols as [|[n s1] cols IH]; simpl; [discriminate|].
  destruct (String.eqb n name) eqn:E; intros H.
  - injection H as ->. apply String.eqb_eq in E. subst n. exists 0. auto.
  - destruct (IH H) as (j & Hj & Hn). exists (S j). rewrite Hj. auto.
Qed.

Lemma lookup_None_index_of (cols : list (string * Series)) (name : string) :
  Pandas.lookup cols name = None -> Pandas.index_of cols name = None.
Proof.
  induction cols as [|[n s1] cols IH]; simpl; [reflexivity|].
  destruct (String.eqb n name); [discriminate|].
  intros H. now rewrite IH.
Qed.

(** [dataset.iloc[i, dataset.columns.get_loc(name)]] reads the cell of
    column [name] in row [i]. *)
Lemma read_cell (name : string) (i : nat) (env : Env) :
  bind (Pandas.columns_get_loc name) (fun j => Pandas.iloc i j) env =
  match Pandas.lookup (columns (frame env)) name with
  | None => (Raise (KeyError (CStr name)), env)
  | Some s =>
      match nth_error (values s) i with
      | Some c => (Ok c, env)
      | None => (Raise IndexError, env)
      end
  end.
Proof.
  unfold bind, Pandas.columns_get_loc, Pandas.iloc.
  destruct (Pandas.lookup (columns (frame env)) name) as [s|] eqn:El.
  - destruct (lookup_index_of _ _ El) as (j & Hj & Hn).
    rewrite Hj, Hn. reflexivity.
  - now rewrite (lookup_None_index_of _ _ El).
Qed.

Lemma is_categorical_run (name : string) (env : Env) (s : Series) :
  Pandas.lookup (columns (frame env)) name = Some s ->
  is_categorical name env =
  (Ok (match dtype s with DObject | DBool => true | _ => false end), env).
Proof.
  intros Hl. unfold is_categorical, bind, Pandas.dtypes_loc. rewrite Hl.
  destruct (dtype s) eqn:Ed; simpl; try rewrite Hl; try rewrite Ed; reflexivity.
Qed.

Lemma getitem_run (name : string) (env : Env) (s : Series) :
  Pandas.lookup (columns (frame env)) name = Some s ->
  Pandas.getitem name env = (Ok s, env).
Proof. intros Hl. unfold Pandas.getitem. now rewrite Hl. Qed.

(* ================================================================== *)
(** ** A constant numeric column *)

Section ConstantColumn.

Local Open Scope R_scope.

(** An integer up to magnitude 2^53 enters float arithmetic as it is. *)
Lemma to_float_int (c : Z) :
  (Z.abs c <= 2 ^ 53)%Z -> to_float (CNum (Fin (IZR c))) = Some (Fin (IZR c)).
Proof. intros H. cbn [to_float Np.as_float64]. now rewrite to_float64_exact. Qed.

Lemma floats_repeat (c : Z) (n : nat) :
  (Z.abs c <= 2 ^ 53)%Z ->
  Pandas.floats (repeat (CNum (Fin (IZR c))) n) = Some (repeat (Fin (IZR c)) n).
Proof.
  intros H. induction n as [|n IH]; [reflexivity|].
  cbn [repeat Pandas.floats]. now rewrite to_float_int, IH.
Qed.

Lemma notna_repeat (v : R) (n : nat) :
  Pandas.notna (repeat (Fin v) n) = repeat (Fin v) n.
Proof.
  unfold Pandas.notna. induction n as [|n IH]; simpl; [reflexivity|now rewrite IH].
Qed.

Lemma fold_add_repeat (v a : R) (n : nat) :
  fold_left Np.add (repeat (Fin v) n) (Fin a) = Fin (a + INR n * v).
Proof.
  revert a. induction n as [|n IH]; intros a.
  - simpl. f_equal. lra.
  - cbn [repeat fold_left Np.add]. rewrite IH. f_equal. rewrite S_INR. lra.
Qed.

Lemma fsum_repeat (v : R) (n : nat) :
  Pandas.fsum (repeat (Fin v) n) = Fin (INR n * v).
Proof. unfold Pandas.fsum. rewrite fold_add_repeat. f_equal. lra. Qed.

Lemma INR_S_neq_0 (n : nat) : INR (S n) <> 0.
Proof. apply not_0_INR. discriminate. Qed.

Lemma np_mean_constant (d : DType) (c : Z) (n : nat) :
  d = DInt64 \/ d = DFloat64 ->
  (Z.abs c <= 2 ^ 53)%Z ->
  Pandas.np_mean (mkSeries d (repeat (CNum (Fin (IZR c))) (S n))) = Ok (Fin (IZR c)).
Proof.
  intros Hd Hc.
  assert (E : forall s, dtype s = d ->
              Pandas.np_mean s =
              match Pandas.floats (values s) with
              | None => Raise TypeError
              | Some xs =>
                  match List.length (Pandas.notna xs) with
                  | O => Ok NaN
                  | count => Ok (Np.div (Pandas.fsum (Pandas.notna xs)) (Fin (INR count)))
                  end
              end).
  { intros s Hs. unfold Pandas.np_mean. rewrite Hs. now destruct Hd as [-> | ->]. }
  rewrite E by reflexivity. cbn [values]. rewrite floats_repeat by exact Hc.
  cbv zeta. rewrite notna_repeat, repeat_length, fsum_repeat.
  rewrite div_Fin by apply INR_S_neq_0.
  do 2 f_equal. field. apply INR_S_neq_0.
Qed.

Lemma np_std_constant (d : DType) (c : Z) (n : nat) :
  d = DInt64 \/ d = DFloat64 ->
  (Z.abs c <= 2 ^ 53)%Z ->
  Pandas.np_std (mkSeries d (repeat (CNum (Fin (IZR c))) (S n))) = Ok (Fin 0).
Proof.
  intros Hd Hc.
  assert (E : forall s, dtype s = d ->
              Pandas.np_std s =
              match Pandas.floats (values s) with
              | None => Raise TypeError
              | Some xs =>
                  let valid := Pandas.notna xs in
                  match List.length valid with
                  | O => Ok NaN
                  | count =>
                      let avg := Np.div (Pandas.fsum valid) (Fin (INR count)) in
                      let sqr := map (fun x => Np.mul (Np.sub avg x) (Np.sub avg x)) valid in
                      Ok (Np.sqrt (Np.div (Pandas.fsum sqr) (Fin (INR count))))
                  end
              end).
  { intros s Hs. unfold Pandas.np_std. rewrite Hs. now destruct Hd as [-> | ->]. }
  rewrite E by reflexivity. cbn [values]. rewrite floats_repeat by exact Hc.
  cbv zeta. rewrite notna_repeat, repeat_length, fsum_repeat.
  rewrite div_Fin by apply INR_S_neq_0.
  rewrite map_repeat. cbn [Np.sub Np.neg Np.add Np.mul].
  rewrite fsum_repeat, div_Fin by apply INR_S_neq_0.
  set (v := IZR c).
  assert (E0 : INR (S n) * ((INR (S n) * v / INR (S n) + - v) *
                           (INR (S n) * v / INR (S n) + - v)) / INR (S n) = 0).
  { field. apply INR_S_neq_0. }
  rewrite E0. unfold Np.sqrt.
  destruct (Rlt_dec 0 0); [lra|]. now rewrite sqrt_0.
Qed.

(** The z-score of a value that equals the mean, over a zero standard
    deviation, is 0/0. *)
Lemma norm_zero_std (v : R) : norm (Fin v) (Fin v) (Fin 0) = NaN.
Proof.
  unfold norm. cbn [Np.sub Np.neg Np.add]. unfold Np.div.
  rewrite (Rsign_zero (r := 0)) by reflexivity.
  rewrite Rsign_zero by lra. reflexivity.
Qed.

Lemma constant_values (s : Series) (v : Cell) (rest : list Cell) :
  values s = v :: rest ->
  Forall (eq v) rest ->
  s = mkSeries (dtype s) (repeat v (S (List.length rest))).
Proof.
  intros Hv Hr. destruct s as [d vals]. simpl in *. subst vals.
  f_equal. f_equal. now apply Forall_eq_repeat.
Qed.

(** The whole sum of such a column is an integer that float64 holds, and
    so is the value. *)
Lemma constant_in_range (s : Series) (c : Z) (v : Cell) (rest : list Cell) :
  values s = v :: rest ->
  (Z.of_nat (List.length (values s)) * Z.abs c <= 2 ^ 53)%Z ->
  (Z.abs c <= 2 ^ 53)%Z.
Proof.
  intros Hv H. rewrite Hv in H. cbn [List.length] in H.
  rewrite Nat2Z.inj_succ in H. nia.
Qed.

End ConstantColumn.

Lemma numeric_not_categorical (s : Series) :
  dtype s = DInt64 \/ dtype s = DFloat64 ->
  match dtype s with DObject | DBool => true | _ => false end = false.
Proof. intros [->| ->]; reflexivity. Qed.

Section ZeroVariance.

Variable g : Seed.

(** NMAR on a constant numeric column stops at the first row. *)
Lemma nmar_zero_variance (ds : DataFrame) (k : nat) (column : string) (b : float64)
    (s : Series) (c : Z) (rest : list Cell) :
  Pandas.lookup (columns ds) column = Some s ->
  dtype s = DInt64 \/ dtype s = DFloat64 ->
  values s = CNum (Fin (IZR c)) :: rest ->
  Forall (eq (CNum (Fin (IZR c)))) rest ->
  (Z.abs c <= 2 ^ 53)%Z ->
  out_of_range b = false ->
  nmar g column b (mkEnv ds k) = (Raise (ValueError msg_nan), mkEnv ds k).
Proof.
  intros Hl Hd Hv Hr Hc Hb. unfold nmar. rewrite Hb.
  erewrite bind_step by (apply is_categorical_run; exact Hl).
  rewrite (numeric_not_categorical _ Hd). unfold nmar_numeric.
  erewrite bind_step by (apply getitem_run; exact Hl).
  pose proof (constant_values _ Hv Hr) as Hs.
  assert (Hm : Pandas.np_mean s = Ok (Fin (IZR c)))
    by (rewrite Hs; apply np_mean_constant; assumption).
  assert (Hsd : Pandas.np_std s = Ok (Fin 0%R))
    by (rewrite Hs; apply np_std_constant; assumption).
  rewrite Hm. erewrite bind_step by reflexivity.
  erewrite bind_step by (apply getitem_run; exact Hl).
  rewrite Hsd. erewrite bind_step by reflexivity.
  erewrite bind_step by (apply getitem_run; exact Hl).
  rewrite Hv. unfold for_enumerate. cbn [for_enumerate_from].
  apply bind_raise. unfold as_float. rewrite to_float_int by exact Hc.
  erewrite bind_step by reflexivity.
  cbv zeta. rewrite norm_zero_std. apply bind_raise.
  change (sig NaN) with NaN. change (Np.mul NaN b) with NaN. apply trial_NaN.
Qed.

(** MAR on a constant numeric dependent column stops at the first row. *)
Lemma mar_zero_variance (ds : DataFrame) (k : nat) (miss dep : string) (b : float64)
    (s : Series) (c : Z) (rest : list Cell) :
  Pandas.lookup (columns ds) dep = Some s ->
  dtype s = DInt64 \/ dtype s = DFloat64 ->
  values s = CNum (Fin (IZR c)) :: rest ->
  Forall (eq (CNum (Fin (IZR c)))) rest ->
  (Z.abs c <= 2 ^ 53)%Z ->
  out_of_range b = false ->
  shape0 ds <> 0 ->
  mar g miss dep b (mkEnv ds k) = (Raise (ValueError msg_nan), mkEnv ds k).
Proof.
  intros Hl Hd Hv Hr Hc Hb Hn. unfold mar. rewrite Hb.
  erewrite bind_step by (apply is_categorical_run; exact Hl).
  rewrite (numeric_not_categorical _ Hd). unfold mar_numeric.
  erewrite bind_step by (apply getitem_run; exact Hl).
  pose proof (constant_values _ Hv Hr) as Hs.
  assert (Hm : Pandas.np_mean s = Ok (Fin (IZR c)))
    by (rewrite Hs; apply np_mean_constant; assumption).
  assert (Hsd : Pandas.np_std s = Ok (Fin 0%R))
    by (rewrite Hs; apply np_std_constant; assumption).
  rewrite Hm. erewrite bind_step by reflexivity.
  erewrite bind_step by (apply getitem_run; exact Hl).
  rewrite Hsd. erewrite bind_step by reflexivity.
  erewrite bind_step by reflexivity. cbn [frame].
  destruct (shape0 ds) as [|n]; [contradiction|].
  unfold for_range, for_enumerate. cbn [seq for_enumerate_from].
  apply bind_raise.
  pose proof (read_cell dep 0 (mkEnv ds k)) as Hread. cbn [frame] in Hread.
  rewrite Hl, Hv in Hread. cbn [nth_error] in Hread.
  unfold bind in Hread |- *.
  destruct (Pandas.columns_get_loc dep (mkEnv ds k)) as [[j|e] env1]; [|discriminate].
  rewrite Hread. unfold as_float. rewrite to_float_int by exact Hc.
  cbn [ret]. cbv zeta.
  rewrite norm_zero_std.
  change (sig NaN) with NaN. change (Np.mul NaN b) with NaN.
  rewrite trial_NaN. reflexivity.
Qed.

End ZeroVariance.

(* ================================================================== *)
(** ** Absent columns *)

Lemma preserves_setitem_absent (ds : DataFrame) (miss : string) (i : nat) :
  Pandas.lookup (columns ds) miss = None ->
  preserves (fun f => f = ds) (Pandas.setitem_iloc_nan miss i).
Proof.
  intros Hl env r env' Hf. unfold Pandas.setitem_iloc_nan. rewrite Hf, Hl.
  intros H. injection H as _ <-. exact Hf.
Qed.

Lemma mar_absent_target_frame (g : Seed) (ds : DataFrame) (miss dep : string) (b : float64) :
  Pandas.lookup (columns ds) miss = None ->
  preserves (fun f => f = ds) (mar g miss dep b).
Proof.
  intros Hl. unfold mar, mar_categorical, mar_numeric.
  repeat preserves_step; apply preserves_setitem_absent; exact Hl.
Qed.

Lemma getitem_absent (name : string) (env : Env) :
  Pandas.lookup (columns (frame env)) name = None ->
  Pandas.getitem name env = (Raise (KeyError (CStr name)), env).
Proof. intros Hl. unfold Pandas.getitem. now rewrite Hl. Qed.

Lemma is_categorical_absent (name : string) (env : Env) :
  Pandas.lookup (columns (frame env)) name = None ->
  is_categorical name env = (Raise (KeyError (CStr name)), env).
Proof.
  intros Hl. unfold is_categorical, bind, Pandas.dtypes_loc. now rewrite Hl.
Qed.

(** MAR on [frame_region] with [b = 1/2] and the absent target column
    "sales": the one category is given [sig(0) = 1/2], the trial
    probability is 1/4, the uniform sample 3/4 makes the only trial return
    0, and the call returns normally. *)
Lemma mar_absent_target_returns :
  mar seed_high "sales" "region" (Fin (1 / 2)%R) (mkEnv frame_region 0) =
    (Ok tt, mkEnv frame_region 2).
Proof.
  unfold mar. rewrite in_range_not_out by lra.
  erewrite bind_step by (apply is_categorical_run; reflexivity).
  cbn [dtype]. unfold mar_categorical.
  erewrite bind_step by (apply getitem_run; reflexivity).
  erewrite bind_step by reflexivity.
  erewrite bind_step by reflexivity.
  unfold for_range, for_enumerate. cbn [frame shape0 frame_region seq for_enumerate_from].
  cbn [pos normal_at seed_high]. rewrite sig_zero.
  erewrite bind_step; [reflexivity|].
  erewrite bind_step by reflexivity.
  erewrite bind_step by reflexivity.
  erewrite bind_step by reflexivity.
  assert (Ht : trial seed_high (Np.mul (Fin (1 / 2)%R) (Fin (1 / 2)%R))
                 (mkEnv frame_region 1) = (Ok false, mkEnv frame_region 2)).
  { rewrite trial_run. cbn [Np.mul].
    rewrite check_Fin by lra. rewrite trial_at_Fin by lra.
    cbn [pos uniform_at seed_high].
    destruct (Rlt_dec (3 / 4) (1 / 2 * (1 / 2))); [lra|reflexivity]. }
  erewrite bind_step by exact Ht. reflexivity.
Qed.

(* ================================================================== *)
(** ** Distinct values and the categorical assignment *)

Section Categories.

Lemma py_eqb_true_iff (c d : Cell) : py_eqb c d = true <-> key c = key d.
Proof.
  unfold py_eqb. destruct (Cell_eq_dec (key c) (key d)); split; congruence.
Qed.

Lemma py_eqb_refl (c : Cell) : py_eqb c c = true.
Proof. now apply py_eqb_true_iff. Qed.

Lemma py_eqb_sym (c d : Cell) : py_eqb c d = py_eqb d c.
Proof.
  destruct (py_eqb d c) eqn:E.
  - apply py_eqb_true_iff. symmetry. now apply py_eqb_true_iff.
  - destruct (py_eqb c d) eqn:E'; [|reflexivity].
    apply py_eqb_true_iff in E'. symmetry in E'. apply py_eqb_true_iff in E'.
    congruence.
Qed.

Lemma py_eqb_trans_r (k c d : Cell) : py_eqb c d = true -> py_eqb k c = py_eqb k d.
Proof.
  intros H. apply py_eqb_true_iff in H. unfold py_eqb. now rewrite H.
Qed.

Lemma unique_from_fresh (l seen : list Cell) :
  Forall (fun c => existsb (py_eqb c) seen = false) (Pandas.unique_from seen l).
Proof.
  revert seen. induction l as [|c l IH]; intros seen; simpl; [constructor|].
  destruct (existsb (py_eqb c) seen) eqn:E; [apply IH|].
  constructor; [exact E|].
  specialize (IH (c :: seen)). eapply Forall_impl; [|exact IH].
  intros x Hx. simpl in Hx. now apply orb_false_elim in Hx.
Qed.

Lemma unique_from_distinct (l seen : list Cell) :
  ForallOrdPairs (fun c d => py_eqb c d = false) (Pandas.unique_from seen l).
Proof.
  revert seen. induction l as [|c l IH]; intros seen; simpl; [constructor|].
  destruct (existsb (py_eqb c) seen) eqn:E; [apply IH|].
  constructor; [|apply IH].
  pose proof (unique_from_fresh l (c :: seen)) as Hf.
  eapply Forall_impl; [|exact Hf].
  intros x Hx. simpl in Hx. apply orb_false_elim in Hx as [Hx _].
  now rewrite py_eqb_sym.
Qed.

Lemma unique_from_covers (l seen : list Cell) (v : Cell) :
  In v l ->
  existsb (py_eqb v) seen = true \/
  existsb (py_eqb v) (Pandas.unique_from seen l) = true.
Proof.
  revert seen. induction l as [|c l IH]; intros seen Hin; [contradiction|].
  simpl. destruct Hin as [->|Hin].
  - destruct (existsb (py_eqb v) seen) eqn:E; [now left|].
    right. simpl. now rewrite py_eqb_refl.
  - destruct (existsb (py_eqb c) seen) eqn:E; [now apply IH|].
    destruct (IH (c :: seen) Hin) as [H|H].
    + simpl in H. apply orb_true_iff in H as [H|H]; [|now left].
      right. simpl. now rewrite H.
    + right. simpl. rewrite H. apply orb_true_r.
Qed.

Lemma setitem_fresh (d : Dict.t) (k : Cell) (v : float64) :
  existsb (py_eqb k) (map fst d) = false ->
  Dict.setitem d k v = d ++ [(k, v)].
Proof.
  induction d as [|[k' v'] d IH]; simpl; [reflexivity|].
  intros H. apply orb_false_elim in H as [H1 H2].
  rewrite py_eqb_sym, H1. now rewrite IH.
Qed.

Lemma get_py_eqb (d : Dict.t) (c c' : Cell) :
  py_eqb c c' = true -> Dict.get d c = Dict.get d c'.
Proof.
  intros H. induction d as [|[k v] d IH]; simpl; [reflexivity|].
  rewrite (@py_eqb_trans_r k c c' H). now rewrite IH.
Qed.

(** Looking a value up in a dictionary built from distinct keys finds the
    entry of the one key it equals. *)
Lemma get_combine (keys : list Cell) (vals : list float64) (c : Cell) :
  List.length vals = List.length keys ->
  existsb (py_eqb c) keys = true ->
  exists idx key v,
    nth_error keys idx = Some key /\ nth_error vals idx = Some v /\
    py_eqb key c = true /\ Dict.get (combine keys vals) c = Some v.
Proof.
  revert vals. induction keys as [|k keys IH]; intros [|v vals] Hlen H;
    simpl in *; try discriminate.
  destruct (py_eqb k c) eqn:E.
  - exists 0, k, v. auto.
  - rewrite py_eqb_sym, E in H. simpl in H.
    destruct (IH vals) as (idx & key & v' & H1 & H2 & H3 & H4); [lia|exact H|].
    exists (S idx), key, v'. auto.
Qed.

Variable g : Seed.

Lemma comprehension_fresh (keys : list Cell) :
  forall (d : Dict.t) (env : Env),
    Forall (fun c => existsb (py_eqb c) (map fst d) = false) keys ->
    ForallOrdPairs (fun c c' => py_eqb c c' = false) keys ->
    Dict.comprehension keys (fun _ => z <- NpRandom.normal g ;; ret (sig z)) d env =
    (Ok (d ++ combine keys
                (map (fun i => sig (Fin (normal_at g (pos env + i))))
                     (seq 0 (List.length keys)))),
     mkEnv (frame env) (pos env + List.length keys)).
Proof.
  induction keys as [|c keys IH]; intros d env Hf Hd.
  - simpl. unfold ret. rewrite app_nil_r, Nat.add_0_r. now destruct env.
  - cbn [Dict.comprehension].
    erewrite bind_step by reflexivity.
    inversion Hf as [|? ? Hc Hf']; subst. inversion Hd as [|? ? Hc' Hd']; subst.
    rewrite setitem_fresh by exact Hc.
    rewrite IH; [|clear IH|exact Hd'].
    + cbn [frame pos List.length seq map combine].
      rewrite <- app_assoc. cbn [app]. rewrite Nat.add_0_r.
      rewrite <- seq_shift, map_map.
      rewrite (map_ext (fun x => sig (Fin (normal_at g (pos env + S x))))
                       (fun i => sig (Fin (normal_at g (S (pos env) + i)))))
        by (intros; do 3 f_equal; lia).
      replace (S (pos env) + List.length keys) with (pos env + S (List.length keys))
        by lia.
      reflexivity.
    + rewrite map_app. cbn [map fst].
      rewrite Forall_forall in Hf', Hc' |- *. intros x Hx.
      rewrite existsb_app, (Hf' x Hx). cbn [existsb orb].
      rewrite py_eqb_sym, (Hc' x Hx). reflexivity.
Qed.

(** The dictionary the categorical branch builds: one normal draw per
    distinct value, in order of first appearance. *)
Lemma cat_dict_of_run (s : Series) (env : Env) :
  cat_dict_of g s env =
  (Ok (categorical_assignment g (pos env) s),
   mkEnv (frame env) (pos env + List.length (Pandas.unique s))).
Proof.
  unfold cat_dict_of, categorical_assignment.
  rewrite comprehension_fresh.
  - reflexivity.
  - apply Forall_forall. reflexivity.
  - apply unique_from_distinct.
Qed.

End Categories.

(* ================================================================== *)
(** ** MAR and NMAR, row by row *)

Lemma cast_overwrite_frame_effect (col : string) (ds ds' : DataFrame) :
  cast_overwrite col ds ds' -> frame_effect col ds ds'.
Proof.
  intros H. split; [apply H|]. split; [eapply overwrite_names, H|].
  split; [intros name Hne; eapply overwrite_other_column; eauto|].
  intros name i. pose proof (overwrite_cell name i H) as Hc.
  destruct (cell ds name i), (cell ds' name i); try contradiction;
    split; congruence.
Qed.

Lemma read_bind {B} (name : string) (i : nat) (K : Cell -> M B) (env : Env) :
  bind (Pandas.columns_get_loc name) (fun j => bind (Pandas.iloc i j) K) env =
  match read (frame env) name i with
  | Ok c => K c env
  | Raise e => (Raise e, env)
  end.
Proof.
  unfold read, bind, Pandas.columns_get_loc, Pandas.iloc.
  destruct (Pandas.lookup (columns (frame env)) name) as [s|] eqn:El.
  - destruct (lookup_index_of _ _ El) as (j & Hj & Hn).
    rewrite Hj, Hn. destruct (nth_error (values s) i); reflexivity.
  - now rewrite (lookup_None_index_of _ _ El).
Qed.

Lemma nth_error_seq_eq (start n j a : nat) :
  nth_error (seq start n) j = Some a -> a = start + j.
Proof.
  revert start j. induction n as [|n IH]; intros start [|j] H; simpl in *;
    try discriminate.
  - injection H as <-. lia.
  - apply IH in H. lia.
Qed.

Section RowByRow.

Variable g : Seed.

Lemma rows_done_ext (miss : string) (ds0 : DataFrame) (k0 : nat)
    (Q Q' : nat -> Result float64) (j : nat) (env : Env) :
  (forall i, Q i = Q' i) ->
  rows_done g miss ds0 k0 Q j env -> rows_done g miss ds0 k0 Q' j env.
Proof.
  intros HQ (Hp & Hov & Hdone & Htodo).
  split; [exact Hp|]. split; [exact Hov|]. split; [|exact Htodo].
  intros i Hi. destruct (Hdone i Hi) as (q & hit & H1 & H2 & H3 & H4).
  exists q, hit. rewrite <- HQ. auto.
Qed.

(** The cell a row reads from the dependent column is still the
    original one when its turn comes, as the column stores it by then. *)
Lemma rows_done_read (miss dep : string) (ds0 : DataFrame) (k0 : nat)
    (Q : nat -> Result float64) (j : nat) (env : Env) :
  rows_done g miss ds0 k0 Q j env ->
  read (frame env) dep j =
  match read ds0 dep j with
  | Ok c => Ok (stored ds0 (frame env) dep c)
  | Raise e => Raise e
  end.
Proof.
  intros (_ & Hov & _ & Htodo). unfold read.
  destruct (String.eqb dep miss) eqn:E.
  - apply String.eqb_eq in E. subst dep.
    specialize (Htodo j (Nat.le_refl j)). unfold cell in Htodo.
    destruct (Pandas.lookup (columns ds0) miss) as [s0|] eqn:E0.
    + destruct (overwrite_lookup_col Hov E0) as (s1 & E1 & _). rewrite E1 in Htodo |- *.
      rewrite Htodo. now destruct (nth_error (values s0) j).
    + now rewrite (overwrite_lookup_None Hov E0).
  - apply String.eqb_neq in E. unfold stored.
    rewrite (overwrite_other_column Hov E).
    destruct (Pandas.lookup (columns ds0) dep) as [s|]; [|reflexivity].
    destruct (nth_error (values s) j); [|reflexivity].
    now rewrite astype_same.
Qed.

Lemma categorical_body (miss dep : string) (ds0 : DataFrame) (k0 : nat)
    (d : Dict.t) (b : float64) (j : nat) (env : Env) (s : Series) :
  Pandas.lookup (columns ds0) dep = Some s ->
  is_categorical_dtype (dtype s) = true ->
  rows_done g miss ds0 k0 (categorical_row_prob d b ds0 dep) j env ->
  (jl <- Pandas.columns_get_loc dep ;;
   dep_val <- Pandas.iloc j jl ;;
   pr <- Dict.getitem d dep_val ;;
   hit <- trial g (Np.mul pr b) ;;
   if hit then Pandas.setitem_iloc_nan miss j else ret tt) env =
  inject_row g miss (categorical_row_prob d b ds0 dep j) j env.
Proof.
  intros Hl Hcat Hinv. rewrite read_bind.
  rewrite (@rows_done_read miss dep ds0 k0 _ j env Hinv).
  unfold inject_row, categorical_row_prob.
  destruct (read ds0 dep j) as [c|e]; [|reflexivity].
  rewrite (@stored_categorical ds0 (frame env) dep s c Hl Hcat).
  unfold Dict.getitem. destruct (Dict.get d c); reflexivity.
Qed.

Lemma numeric_body (miss dep : string) (ds0 : DataFrame) (k0 : nat)
    (mean std b : float64) (j : nat) (env : Env) :
  rows_done g miss ds0 k0 (numeric_row_prob mean std b ds0 dep) j env ->
  (jl <- Pandas.columns_get_loc dep ;;
   dep_val <- Pandas.iloc j jl ;;
   x <- as_float dep_val ;;
   let prob := sig (norm x mean std) in
   hit <- trial g (Np.mul prob b) ;;
   if hit then Pandas.setitem_iloc_nan miss j else ret tt) env =
  inject_row g miss (numeric_row_prob mean std b ds0 dep j) j env.
Proof.
  intros Hinv. rewrite read_bind.
  rewrite (@rows_done_read miss dep ds0 k0 _ j env Hinv).
  unfold inject_row, numeric_row_prob.
  destruct (read ds0 dep j) as [c|e]; [|reflexivity].
  unfold as_float. rewrite to_float_stored. destruct (to_float c); reflexivity.
Qed.

Lemma mar_categorical_returns (ds : DataFrame) (k : nat) (miss dep : string)
    (b : float64) (s : Series) (env' : Env) :
  Pandas.lookup (columns ds) dep = Some s ->
  is_categorical_dtype (dtype s) = true ->
  mar_categorical g miss dep b (mkEnv ds k) = (Ok tt, env') ->
  rows_done g miss ds (k + List.length (Pandas.unique s))
    (categorical_row_prob (categorical_assignment g k s) b ds dep)
    (shape0 ds) env'.
Proof.
  intros Hl Hcat H. unfold mar_categorical in H.
  erewrite bind_step in H by (apply getitem_run; exact Hl).
  erewrite bind_step in H by apply cat_dict_of_run.
  erewrite bind_step in H by reflexivity.
  cbn [frame pos] in H. unfold for_range, for_enumerate in H.
  eapply inject_loop_ok in H.
  - rewrite length_seq in H. exact H.
  - intros j a e _ Ha Hinv. rewrite Nat.sub_0_r in Ha.
    apply nth_error_seq_eq in Ha. subst a. cbn [Nat.add].
    eapply categorical_body; eauto.
  - apply rows_done_start.
Qed.

Lemma mar_numeric_returns (ds : DataFrame) (k : nat) (miss dep : string)
    (b : float64) (s : Series) (env' : Env) :
  Pandas.lookup (columns ds) dep = Some s ->
  mar_numeric g miss dep b (mkEnv ds k) = (Ok tt, env') ->
  exists mean std,
    Pandas.np_mean s = Ok mean /\ Pandas.np_std s = Ok std /\
    rows_done g miss ds k (numeric_row_prob mean std b ds dep) (shape0 ds) env'.
Proof.
  intros Hl H. unfold mar_numeric in H.
  erewrite bind_step in H by (apply getitem_run; exact Hl).
  destruct (Pandas.np_mean s) as [mean|e] eqn:Em; [|discriminate].
  erewrite bind_step in H by reflexivity.
  erewrite bind_step in H by (apply getitem_run; exact Hl).
  destruct (Pandas.np_std s) as [std|e] eqn:Es; [|discriminate].
  erewrite bind_step in H by reflexivity.
  erewrite bind_step in H by reflexivity.
  cbn [frame pos] in H. unfold for_range, for_enumerate in H.
  exists mean, std. split; [reflexivity|]. split; [reflexivity|].
  eapply inject_loop_ok in H.
  - rewrite length_seq in H. exact H.
  - intros j a e _ Ha Hinv. rewrite Nat.sub_0_r in Ha.
    apply nth_error_seq_eq in Ha. subst a. cbn [Nat.add].
    eapply numeric_body; exact Hinv.
  - apply rows_done_start.
Qed.

End RowByRow.

Section RowByRowNmar.

Variable g : Seed.

Lemma read_snapshot (ds : DataFrame) (column : string) (s : Series) (j : nat) (val : Cell) :
  Pandas.lookup (columns ds) column = Some s ->
  nth_error (values s) j = Some val ->
  read ds column j = Ok val.
Proof. intros Hl Hn. unfold read. now rewrite Hl, Hn. Qed.

Lemma nmar_categorical_returns (ds : DataFrame) (k : nat) (column : string)
    (b : float64) (s : Series) (env' : Env) :
  Pandas.lookup (columns ds) column = Some s ->
  nmar_categorical g column b (mkEnv ds k) = (Ok tt, env') ->
  rows_done g column ds (k + List.length (Pandas.unique s))
    (categorical_row_prob (categorical_assignment g k s) b ds column)
    (List.length (values s)) env'.
Proof.
  intros Hl H. unfold nmar_categorical in H.
  erewrite bind_step in H by (apply getitem_run; exact Hl).
  erewrite bind_step in H by apply cat_dict_of_run.
  erewrite bind_step in H by (apply getitem_run; exact Hl).
  cbn [frame pos] in H. unfold for_enumerate in H.
  eapply inject_loop_ok in H.
  - exact H.
  - intros j a e _ Ha Hinv. rewrite Nat.sub_0_r in Ha.
    unfold inject_row, categorical_row_prob.
    rewrite (@read_snapshot ds column s j a Hl Ha).
    unfold Dict.getitem. destruct (Dict.get _ a); reflexivity.
  - apply rows_done_start.
Qed.

Lemma nmar_numeric_returns (ds : DataFrame) (k : nat) (column : string)
    (b : float64) (s : Series) (env' : Env) :
  Pandas.lookup (columns ds) column = Some s ->
  nmar_numeric g column b (mkEnv ds k) = (Ok tt, env') ->
  exists mean std,
    Pandas.np_mean s = Ok mean /\ Pandas.np_std s = Ok std /\
    rows_done g column ds k (numeric_row_prob mean std b ds column)
      (List.length (values s)) env'.
Proof.
  intros Hl H. unfold nmar_numeric in H.
  erewrite bind_step in H by (apply getitem_run; exact Hl).
  destruct (Pandas.np_mean s) as [mean|e] eqn:Em; [|discriminate].
  erewrite bind_step in H by reflexivity.
  erewrite bind_step in H by (apply getitem_run; exact Hl).
  destruct (Pandas.np_std s) as [std|e] eqn:Es; [|discriminate].
  erewrite bind_step in H by reflexivity.
  erewrite bind_step in H by (apply getitem_run; exact Hl).
  unfold for_enumerate in H.
  exists mean, std. split; [reflexivity|]. split; [reflexivity|].
  eapply inject_loop_ok in H.
  - exact H.
  - intros j a e _ Ha Hinv. rewrite Nat.sub_0_r in Ha.
    unfold inject_row, numeric_row_prob.
    rewrite (@read_snapshot ds column s j a Hl Ha).
    unfold as_float. destruct (to_float a); reflexivity.
  - apply rows_done_start.
Qed.

(** A MAR call that returns has done every row of the frame. *)
Lemma mar_returns (ds : DataFrame) (k : nat) (miss dep : string) (b : float64) (env' : Env) :
  mar g miss dep b (mkEnv ds k) = (Ok tt, env') ->
  rows_done g miss ds (first_trial ds k dep) (row_prob g ds k dep b) (shape0 ds) env'.
Proof.
  intros H. unfold mar in H. destruct (out_of_range b); [discriminate|].
  destruct (Pandas.lookup (columns ds) dep) as [s|] eqn:Hl.
  - erewrite bind_step in H by (apply is_categorical_run; exact Hl).
    unfold first_trial, row_prob. rewrite Hl.
    fold (is_categorical_dtype (dtype s)) in H.
    destruct (is_categorical_dtype (dtype s)) eqn:Hcat.
    + eapply rows_done_ext; [|eapply mar_categorical_returns; eauto].
      intros i. reflexivity.
    + destruct (@mar_numeric_returns g ds k miss dep b s env' Hl H) as (mean & std & Hm & Hs & Hr).
      eapply rows_done_ext; [|exact Hr].
      intros i. now rewrite Hm, Hs.
  - erewrite bind_raise in H by (apply is_categorical_absent; exact Hl).
    discriminate.
Qed.

(** An NMAR call that returns has done every row of its column. *)
Lemma nmar_returns (ds : DataFrame) (k : nat) (column : string) (b : float64) (env' : Env) :
  nmar g column b (mkEnv ds k) = (Ok tt, env') ->
  exists s,
    Pandas.lookup (columns ds) column = Some s /\
    rows_done g column ds (first_trial ds k column) (row_prob g ds k column b)
      (List.length (values s)) env'.
Proof.
  intros H. unfold nmar in H. destruct (out_of_range b); [discriminate|].
  destruct (Pandas.lookup (columns ds) column) as [s|] eqn:Hl.
  - exists s. split; [reflexivity|].
    erewrite bind_step in H by (apply is_categorical_run; exact Hl).
    unfold first_trial, row_prob. rewrite Hl.
    fold (is_categorical_dtype (dtype s)) in H.
    destruct (is_categorical_dtype (dtype s)).
    + eapply rows_done_ext; [|eapply nmar_categorical_returns; eauto].
      intros i. reflexivity.
    + destruct (@nmar_numeric_returns ds k column b s env' Hl H) as (mean & std & Hm & Hs & Hr).
      eapply rows_done_ext; [|exact Hr].
      intros i. now rewrite Hm, Hs.
  - erewrite bind_raise in H by (apply is_categorical_absent; exact Hl).
    discriminate.
Qed.

End RowByRowNmar.

(** A finished row whose trial returned 0 holds its original value, as
    the column stores it. *)
Lemma rows_done_kept (g : Seed) (miss : string) (ds : DataFrame) (k0 n : nat)
    (Q : nat -> Result float64) (env' : Env) :
  rows_done g miss ds k0 Q n env' ->
  forall i v q,
    cell ds miss i = Some v -> Q i = Ok q ->
    trial_at g (k0 + i) q = Ok false ->
    cell (frame env') miss i = Some (stored ds (frame env') miss v).
Proof.
  intros (_ & _ & Hdone & Htodo) i v q Hv Hq Ht.
  destruct (Nat.lt_ge_cases i n) as [Hi|Hi].
  - destruct (Hdone i Hi) as (q' & hit & Hq' & Ht' & _ & Hc).
    assert (q' = q) by congruence. subst q'.
    assert (hit = false) by congruence. subst hit. auto.
  - rewrite Htodo by exact Hi. now rewrite Hv.
Qed.

(* ================================================================== *)
(** ** The categorical branch *)

Section CategoricalBranch.

Local Open Scope R_scope.

Variable g : Seed.

(** Every value of the column has its probability in the assignment:
    the sigmoid of the draw made for the distinct value it equals. *)
Lemma categorical_get (k : nat) (s : Series) (c : Cell) :
  In c (values s) ->
  exists idx key,
    nth_error (Pandas.unique s) idx = Some key /\ py_eqb key c = true /\
    Dict.get (categorical_assignment g k s) c =
      Some (sig (Fin (normal_at g (k + idx)))).
Proof.
  intros Hin. unfold categorical_assignment.
  destruct (@get_combine (Pandas.unique s)
              (map (fun i => sig (Fin (normal_at g (k + i))))
                   (seq 0 (List.length (Pandas.unique s)))) c)
    as (idx & key & v & Hk & Hv & He & Hg).
  - now rewrite length_map, length_seq.
  - destruct (unique_from_covers (values s) [] c Hin) as [H|H];
      [discriminate|exact H].
  - exists idx, key. split; [exact Hk|]. split; [exact He|].
    rewrite Hg. f_equal.
    rewrite nth_error_map in Hv.
    destruct (nth_error (seq 0 _) idx) as [a|] eqn:Ea; [|discriminate].
    apply nth_error_seq_eq in Ea. simpl in Ea. subst a.
    now injection Hv as <-.
Qed.

(** The trial of a row of the categorical branch is always well formed. *)
Lemma categorical_trial (k k' : nat) (s : Series) (c : Cell) (b : R) :
  In c (values s) -> 0 <= b <= 1 ->
  exists pr hit,
    Dict.get (categorical_assignment g k s) c = Some pr /\
    trial_at g k' (Np.mul pr (Fin b)) = Ok hit.
Proof.
  intros Hin Hb. destruct (categorical_get k s c Hin) as (idx & key & _ & _ & Hg).
  rewrite Hg, sig_Fin. eexists. eexists. split; [reflexivity|].
  cbn [Np.mul]. apply trial_at_Fin.
  pose proof (sig_Fin_range (normal_at g (k + idx))). nra.
Qed.

Lemma nmar_categorical_body (ds : DataFrame) (column : string) (s : Series)
    (d : Dict.t) (b : float64) (j : nat) (a : Cell) (e : Env) :
  Pandas.lookup (columns ds) column = Some s ->
  nth_error (values s) j = Some a ->
  (pr <- Dict.getitem d a ;;
   hit <- trial g (Np.mul pr b) ;;
   if hit then Pandas.setitem_iloc_nan column j else ret tt) e =
  inject_row g column (categorical_row_prob d b ds column j) j e.
Proof.
  intros Hl Ha. unfold inject_row, categorical_row_prob.
  rewrite (@read_snapshot ds column s j a Hl Ha).
  unfold Dict.getitem. destruct (Dict.get d a); reflexivity.
Qed.

Lemma nmar_categorical_total (ds : DataFrame) (k : nat) (column : string)
    (b : R) (s : Series) :
  Pandas.lookup (columns ds) column = Some s ->
  0 <= b <= 1 ->
  exists env', nmar_categorical g column (Fin b) (mkEnv ds k) = (Ok tt, env').
Proof.
  intros Hl Hb. unfold nmar_categorical.
  erewrite bind_step by (apply getitem_run; exact Hl).
  erewrite bind_step by apply cat_dict_of_run.
  erewrite bind_step by (apply getitem_run; exact Hl).
  cbn [frame pos]. unfold for_enumerate.
  eapply inject_loop_total
    with (ds0 := ds) (k0 := (k + List.length (Pandas.unique s))%nat)
         (Q := categorical_row_prob (categorical_assignment g k s) (Fin b) ds column).
  - intros j a e _ Ha _. rewrite Nat.sub_0_r in Ha.
    eapply nmar_categorical_body; eauto.
  - apply rows_done_start.
  - intros j Hj. cbn [Nat.add] in Hj.
    destruct (nth_error (values s) j) as [c|] eqn:Ec;
      [|apply nth_error_None in Ec; lia].
    destruct (@categorical_trial k ((k + List.length (Pandas.unique s)) + j)%nat s c b)
      as (pr & hit & Hg & Ht); [eapply nth_error_In; eauto|exact Hb|].
    exists (Np.mul pr (Fin b)), hit. split.
    + unfold categorical_row_prob.
      rewrite (@read_snapshot ds column s j c Hl Ec). now rewrite Hg.
    + split; [exact Ht|]. intros _. exists c. unfold cell. now rewrite Hl.
Qed.

Lemma mar_categorical_total (ds : DataFrame) (k : nat) (miss dep : string)
    (b : R) (s sm : Series) :
  Pandas.lookup (columns ds) dep = Some s ->
  is_categorical_dtype (dtype s) = true ->
  Pandas.lookup (columns ds) miss = Some sm ->
  (shape0 ds <= List.length (values s))%nat ->
  (shape0 ds <= List.length (values sm))%nat ->
  0 <= b <= 1 ->
  exists env', mar_categorical g miss dep (Fin b) (mkEnv ds k) = (Ok tt, env').
Proof.
  intros Hl Hcat Hm Hs Hsm Hb. unfold mar_categorical.
  erewrite bind_step by (apply getitem_run; exact Hl).
  erewrite bind_step by apply cat_dict_of_run.
  erewrite bind_step by reflexivity.
  cbn [frame pos]. unfold for_range, for_enumerate.
  eapply inject_loop_total
    with (ds0 := ds) (k0 := (k + List.length (Pandas.unique s))%nat)
         (Q := categorical_row_prob (categorical_assignment g k s) (Fin b) ds dep).
  - intros j a e _ Ha Hinv. rewrite Nat.sub_0_r in Ha.
    apply nth_error_seq_eq in Ha. subst a. cbn [Nat.add].
    eapply categorical_body; eauto.
  - apply rows_done_start.
  - intros j Hj. rewrite length_seq in Hj. cbn [Nat.add] in Hj.
    destruct (nth_error (values s) j) as [c|] eqn:Ec;
      [|apply nth_error_None in Ec; lia].
    destruct (@categorical_trial k ((k + List.length (Pandas.unique s)) + j)%nat s c b)
      as (pr & hit & Hg & Ht); [eapply nth_error_In; eauto|exact Hb|].
    exists (Np.mul pr (Fin b)), hit. split.
    + unfold categorical_row_prob.
      rewrite (@read_snapshot ds dep s j c Hl Ec). now rewrite Hg.
    + split; [exact Ht|]. intros _. unfold cell. rewrite Hm.
      destruct (nth_error (values sm) j) as [v|] eqn:Ev; [eauto|].
      apply nth_error_None in Ev. lia.
Qed.

End CategoricalBranch.

Lemma rows_done_categorical (g : Seed) (miss dep : string) (ds : DataFrame)
    (k0 n : nat) (d : Dict.t) (b : float64) (env' : Env) :
  rows_done g miss ds k0 (categorical_row_prob d b ds dep) n env' ->
  pos env' = k0 + n /\
  forall i, i < n ->
    exists c pr hit,
      read ds dep i = Ok c /\ Dict.get d c = Some pr /\
      trial_at g (k0 + i) (Np.mul pr b) = Ok hit /\
      forall v, cell ds miss i = Some v ->
                cell (frame env') miss i =
                  Some (if hit then nan else stored ds (frame env') miss v).
Proof.
  intros (Hpos & _ & Hdone & _). split; [exact Hpos|].
  intros i Hi. destruct (Hdone i Hi) as (q & hit & Hq & Ht & _ & Hc).
  unfold categorical_row_prob in Hq.
  destruct (read ds dep i) as [c|e]; [|discriminate].
  destruct (Dict.get d c) as [pr|] eqn:Eg; [|discriminate].
  injection Hq as <-. exists c, pr, hit. auto.
Qed.

(* ================================================================== *)
(** ** MAR with an absent target column *)

Lemma trial_at_run (g : Seed) (q : float64) (env : Env) (hit : bool) :
  trial_at g (pos env) q = Ok hit ->
  trial g q env = (Ok hit, mkEnv (frame env) (S (pos env))).
Proof.
  intros H. rewrite trial_run.
  destruct (NpRandom.choice_check _ _) eqn:Ec.
  - unfold trial_at in H. rewrite Ec in H. discriminate.
  - now rewrite H.
Qed.

Section AbsentTarget.

Variable g : Seed.
Variable miss : string.
Variable ds0 : DataFrame.
Variable k0 : nat.
Variable Q : nat -> Result float64.

Hypothesis miss_absent : Pandas.lookup (columns ds0) miss = None.

Lemma inject_row_miss (j : nat) (env : Env) (q : float64) :
  rows_done g miss ds0 k0 Q j env ->
  Q j = Ok q -> trial_at g (k0 + j) q = Ok false ->
  inject_row g miss (Q j) j env = (Ok tt, mkEnv (frame env) (S (k0 + j))).
Proof.
  intros (Hpos & _) Hq Ht. unfold inject_row. rewrite Hq.
  erewrite bind_step by reflexivity.
  rewrite <- Hpos in Ht |- *.
  pose proof (@trial_at_run g q env false Ht) as Hrun.
  erewrite bind_step by exact Hrun. reflexivity.
Qed.

Lemma inject_row_hit (j : nat) (env : Env) (q : float64) :
  rows_done g miss ds0 k0 Q j env ->
  Q j = Ok q -> trial_at g (k0 + j) q = Ok true ->
  inject_row g miss (Q j) j env =
    (Raise (KeyError (CStr miss)), mkEnv (frame env) (S (k0 + j))).
Proof.
  intros (Hpos & Hov & _) Hq Ht. unfold inject_row. rewrite Hq.
  erewrite bind_step by reflexivity.
  rewrite <- Hpos in Ht |- *.
  pose proof (@trial_at_run g q env true Ht) as Hrun.
  erewrite bind_step by exact Hrun.
  unfold Pandas.setitem_iloc_nan. cbn [frame].
  now rewrite (overwrite_lookup_None Hov miss_absent).
Qed.

(** With the target column absent, the loop raises the lookup error at
    the first row whose trial returns 1. *)
Lemma inject_loop_absent {A} (l : list A) (body : nat -> A -> M unit) :
  forall i env j q,
    (forall j a e, i <= j -> nth_error l (j - i) = Some a ->
                   rows_done g miss ds0 k0 Q j e ->
                   body j a e = inject_row g miss (Q j) j e) ->
    rows_done g miss ds0 k0 Q i env ->
    i <= j < i + List.length l ->
    (forall i', i <= i' < j ->
       exists q', Q i' = Ok q' /\ trial_at g (k0 + i') q' = Ok false) ->
    Q j = Ok q -> trial_at g (k0 + j) q = Ok true ->
    for_enumerate_from i l body env =
      (Raise (KeyError (CStr miss)), mkEnv (frame env) (S (k0 + j))).
Proof.
  induction l as [|a l IH]; intros i env j q Hb Hinv Hj Hbefore Hq Ht;
    simpl in *; [lia|].
  assert (Hbody : body i a env = inject_row g miss (Q i) i env).
  { apply Hb; [lia|now rewrite Nat.sub_diag|exact Hinv]. }
  destruct (Nat.eq_dec i j) as [->|Hne].
  - apply bind_raise. rewrite Hbody. exact (@inject_row_hit j env q Hinv Hq Ht).
  - destruct (Hbefore i) as (q' & Hq' & Ht'); [lia|].
    pose proof (@inject_row_miss i env q' Hinv Hq' Ht') as Hrow.
    erewrite bind_step by (rewrite Hbody; exact Hrow).
    pose proof (inject_row_ok Hinv Hrow) as Hinv'.
    rewrite (IH (S i) _ j q); [reflexivity| |exact Hinv'|lia| |exact Hq|exact Ht].
    + intros j' a' e Hj' Hn. apply Hb; [lia|].
      replace (j' - i) with (S (j' - S i)) by lia. exact Hn.
    + intros i' Hi'. apply Hbefore. lia.
Qed.

End AbsentTarget.

Section MarAbsentTarget.

Variable g : Seed.

Lemma mar_absent_target_raises (ds : DataFrame) (k : nat) (miss dep : string)
    (b : float64) (j : nat) (q : float64) :
  out_of_range b = false ->
  Pandas.lookup (columns ds) miss = None ->
  j < shape0 ds ->
  (forall i, i < j ->
     exists q', row_prob g ds k dep b i = Ok q' /\
                trial_at g (first_trial ds k dep + i) q' = Ok false) ->
  row_prob g ds k dep b j = Ok q ->
  trial_at g (first_trial ds k dep + j) q = Ok true ->
  mar g miss dep b (mkEnv ds k) =
    (Raise (KeyError (CStr miss)), mkEnv ds (S (first_trial ds k dep + j))).
Proof.
  intros Hb Hm Hj Hbefore Hq Ht. unfold mar. rewrite Hb.
  unfold row_prob, first_trial in *.
  destruct (Pandas.lookup (columns ds) dep) as [s|] eqn:Hl; [|discriminate].
  erewrite bind_step by (apply is_categorical_run; exact Hl).
  fold (is_categorical_dtype (dtype s)).
  destruct (is_categorical_dtype (dtype s)) eqn:Hcat.
  - unfold mar_categorical.
    erewrite bind_step by (apply getitem_run; exact Hl).
    erewrite bind_step by apply cat_dict_of_run.
    erewrite bind_step by reflexivity.
    cbn [frame pos]. unfold for_range, for_enumerate.
    erewrite inject_loop_absent
      with (ds0 := ds) (k0 := k + List.length (Pandas.unique s))
           (Q := categorical_row_prob (categorical_assignment g k s) b ds dep)
           (j := j) (q := q);
      [reflexivity|exact Hm| |apply rows_done_start| | |exact Hq|exact Ht].
    + intros j' a e _ Ha Hinv. rewrite Nat.sub_0_r in Ha.
      apply nth_error_seq_eq in Ha. subst a. cbn [Nat.add].
      eapply categorical_body; eauto.
    + rewrite length_seq. lia.
    + intros i' Hi'. apply Hbefore. lia.
  - destruct (Pandas.np_mean s) as [mean|e] eqn:Em; [|discriminate].
    destruct (Pandas.np_std s) as [std|e] eqn:Es; [|discriminate].
    unfold mar_numeric.
    erewrite bind_step by (apply getitem_run; exact Hl).
    rewrite Em. erewrite bind_step by reflexivity.
    erewrite bind_step by (apply getitem_run; exact Hl).
    rewrite Es. erewrite bind_step by reflexivity.
    erewrite bind_step by reflexivity.
    cbn [frame pos]. unfold for_range, for_enumerate.
    erewrite inject_loop_absent
      with (ds0 := ds) (k0 := k)
           (Q := numeric_row_prob mean std b ds dep) (j := j) (q := q);
      [reflexivity|exact Hm| |apply rows_done_start| | |exact Hq|exact Ht].
    + intros j' a e _ Ha Hinv. rewrite Nat.sub_0_r in Ha.
      apply nth_error_seq_eq in Ha. subst a. cbn [Nat.add].
      eapply numeric_body; exact Hinv.
    + rewrite length_seq. lia.
    + intros i' Hi'. apply Hbefore. lia.
Qed.

Lemma mar_absent_target_no_hit (ds : DataFrame) (k : nat) (miss dep : string)
    (b : float64) (env' : Env) :
  Pandas.lookup (columns ds) miss = None ->
  mar g miss dep b (mkEnv ds k) = (Ok tt, env') ->
  forall i, i < shape0 ds ->
    exists q, row_prob g ds k dep b i = Ok q /\
              trial_at g (first_trial ds k dep + i) q = Ok false.
Proof.
  intros Hm H i Hi. apply mar_returns in H as (_ & _ & Hdone & _).
  destruct (Hdone i Hi) as (q & hit & Hq & Ht & Hex & _).
  exists q. split; [exact Hq|]. destruct hit; [|exact Ht].
  destruct Hex as [v Hv]; [reflexivity|].
  unfold cell in Hv. rewrite Hm in Hv. discriminate.
Qed.

End MarAbsentTarget.

(* ================================================================== *)
(** * Properties of the three mechanisms *)

(** ** Zero variance of the dependent column *)

(** C1 (as the code has it).  On a non-empty numeric dependent column
    whose values are all the same integer [c], where the sum [n * c] of the
    column is an integer that float64 holds ([n * |c| <= 2^53], so that the
    sum, the mean and the deviation are computed without rounding), and
    with [b] in [0, 1], MAR and NMAR have no zero-variance fallback: the
    mean is [c], the standard deviation is 0, the z-score is 0/0 = NaN and so
    is the sigmoid; the sampler rejects the NaN probability, and the call
    raises a value error (not a division error) at the first row, leaving
    the dataset and the random stream as they were. *)
Theorem zero_variance_no_fallback
    (g : Seed) (ds : DataFrame) (k : nat) (miss dep : string) (b : R)
    (s : Series) (c : Z) (rest : list Cell) :
  Pandas.lookup (columns ds) dep = Some s ->
  dtype s = DInt64 \/ dtype s = DFloat64 ->
  values s = CNum (Fin (IZR c)) :: rest ->
  Forall (eq (CNum (Fin (IZR c)))) rest ->
  (Z.of_nat (List.length (values s)) * Z.abs c <= 2 ^ 53)%Z ->
  (0 <= b <= 1)%R ->
  Pandas.np_mean s = Ok (Fin (IZR c)) /\
  Pandas.np_std s = Ok (Fin 0%R) /\
  sig (norm (Fin (IZR c)) (Fin (IZR c)) (Fin 0%R)) = NaN /\
  nmar g dep (Fin b) (mkEnv ds k) = (Raise (ValueError msg_nan), mkEnv ds k) /\
  (shape0 ds <> 0 ->
   mar g miss dep (Fin b) (mkEnv ds k) = (Raise (ValueError msg_nan), mkEnv ds k)).
Proof.
  intros Hl Hd Hv Hr Hn Hb.
  pose proof (constant_in_range s c Hv Hn) as Hc.
  pose proof (constant_values _ Hv Hr) as Hs.
  split; [rewrite Hs; apply np_mean_constant; assumption|].
  split; [rewrite Hs; apply np_std_constant; assumption|].
  split; [now rewrite norm_zero_std|].
  split.
  - eapply nmar_zero_variance; eauto using in_range_not_out.
  - intros Hn0. eapply mar_zero_variance; eauto using in_range_not_out.
Qed.

Lemma zero_variance_no_fallback_witness :
  (Z.of_nat 2 * Z.abs 5 <= 2 ^ 53)%Z /\
  (0 <= 1 / 2 <= 1)%R /\
  nmar seed0 "revenue" (Fin (1 / 2)%R) (mkEnv frame_constant 0) =
    (Raise (ValueError msg_nan), mkEnv frame_constant 0).
Proof.
  assert (Hn : (Z.of_nat 2 * Z.abs 5 <= 2 ^ 53)%Z) by (vm_compute; discriminate).
  assert (Hb : (0 <= 1 / 2 <= 1)%R) by lra.
  split; [exact Hn|]. split; [exact Hb|].
  exact (proj1 (proj2 (proj2 (proj2
    (@zero_variance_no_fallback seed0 frame_constant 0 "sales" "revenue" (1 / 2)%R
       (mkSeries DInt64 [CNum (Fin 5%R); CNum (Fin 5%R)]) 5%Z [CNum (Fin 5%R)]
       eq_refl (or_introl eq_refl) eq_refl
       (Forall_cons _ eq_refl (Forall_nil _)) Hn Hb))))).
Defined.

(** C1 fails as stated: on the constant column [5, 5] NMAR and MAR with
    [b = 1/2] raise at the first row; the base probability of that row is
    NaN, not [sigmoid(0) = 1/2]. *)
Lemma zero_variance_counterexample :
  nmar seed0 "revenue" (Fin (1 / 2)%R) (mkEnv frame_constant 0) =
    (Raise (ValueError msg_nan), mkEnv frame_constant 0) /\
  mar seed0 "sales" "revenue" (Fin (1 / 2)%R) (mkEnv frame_constant 0) =
    (Raise (ValueError msg_nan), mkEnv frame_constant 0) /\
  Pandas.np_mean (mkSeries DInt64 [CNum (Fin 5%R); CNum (Fin 5%R)]) = Ok (Fin 5%R) /\
  Pandas.np_std (mkSeries DInt64 [CNum (Fin 5%R); CNum (Fin 5%R)]) = Ok (Fin 0%R) /\
  sig (norm (Fin 5%R) (Fin 5%R) (Fin 0%R)) <> sig (Fin 0%R).
Proof.
  assert (Hb : out_of_range (Fin (1 / 2)%R) = false) by (apply in_range_not_out; lra).
  assert (Hc : (Z.abs 5 <= 2 ^ 53)%Z) by (vm_compute; discriminate).
  split; [|split; [|split; [|split]]].
  - apply nmar_zero_variance
      with (s := mkSeries DInt64 [CNum (Fin 5%R); CNum (Fin 5%R)]) (c := 5%Z)
           (rest := [CNum (Fin 5%R)]); auto.
  - apply mar_zero_variance
      with (s := mkSeries DInt64 [CNum (Fin 5%R); CNum (Fin 5%R)]) (c := 5%Z)
           (rest := [CNum (Fin 5%R)]); auto.
    discriminate.
  - apply (@np_mean_constant DInt64 5%Z 1); [now left|exact Hc].
  - apply (@np_std_constant DInt64 5%Z 1); [now left|exact Hc].
  - rewrite norm_zero_std, sig_zero. discriminate.
Qed.

(** ** Tuning parameter out of range *)

(** C2. A tuning parameter outside [0, 1] ([p] of MCAR, [b] of MAR and
    NMAR) makes the call raise the validation error at once: the frame is
    exactly as it was and no random draw has been made. *)
Theorem out_of_range_raises_unchanged
    (g : Seed) (env : Env) (column miss dep : string) (x : float64) :
  outside_unit_interval x ->
  mcar g column x env = (Raise (Exception msg_p), env) /\
  mar g miss dep x env = (Raise (Exception msg_b), env) /\
  nmar g column x env = (Raise (Exception msg_b), env).
Proof.
  intros H. apply outside_out_of_range in H.
  unfold mcar, mar, nmar. rewrite H. repeat split.
Qed.

Lemma out_of_range_raises_unchanged_witness :
  outside_unit_interval (Fin 2%R) /\
  mcar seed0 "x" (Fin 2%R) (mkEnv frame_x 0) =
    (Raise (Exception msg_p), mkEnv frame_x 0).
Proof.
  assert (H : outside_unit_interval (Fin 2%R)) by (right; lra).
  split; [exact H|].
  exact (proj1 (out_of_range_raises_unchanged seed0 (mkEnv frame_x 0) "x" "x" "x" _ H)).
Defined.

(** ** MCAR at p = 0 and p = 1 *)

(** C3. On an existing column, MCAR with [p = 0] returns the dataset as
    it was (no cell of the column becomes missing), and MCAR with [p = 1]
    returns it with every cell of the column overwritten by the missing
    marker, the other columns being untouched. *)
Theorem mcar_extremes
    (g : Seed) (ds : DataFrame) (k : nat) (column : string) (s : Series) :
  Pandas.lookup (columns ds) column = Some s ->
  mcar g column (Fin 0%R) (mkEnv ds k) =
    (Ok tt, mkEnv ds (k + List.length (values s))) /\
  exists ds',
    mcar g column (Fin 1%R) (mkEnv ds k) =
      (Ok tt, mkEnv ds' (k + List.length (values s))) /\
    nan_overwrite column ds ds' /\
    forall i, i < List.length (values s) -> cell ds' column i = Some nan.
Proof.
  intros Hl. split; [now apply mcar_zero_run|now apply mcar_one_run].
Qed.

Lemma mcar_extremes_witness :
  Pandas.lookup (columns frame_x) "x" = Some (mkSeries DFloat64 [nan; CNum (Fin 3%R)]) /\
  mcar seed0 "x" (Fin 0%R) (mkEnv frame_x 0) = (Ok tt, mkEnv frame_x 2).
Proof.
  split; [reflexivity|].
  exact (proj1 (@mcar_extremes seed0 frame_x 0 "x" _ eq_refl)).
Defined.

(** ** MAR and NMAR at b = 0 *)

(** C4. MAR and NMAR called with [b = 0] leave the dataset exactly as it
    was, whatever the dependent column holds and whatever its type: no cell
    becomes missing.  A base probability that is a number gives the trial
    probability 0. *)
Theorem beta_zero_no_new_missing
    (g : Seed) (ds : DataFrame) (k : nat) (miss dep column : string) :
  frame (snd (mar g miss dep (Fin 0%R) (mkEnv ds k))) = ds /\
  frame (snd (nmar g column (Fin 0%R) (mkEnv ds k))) = ds /\
  forall r : R, Np.mul (Fin r) (Fin 0%R) = Fin 0%R.
Proof.
  split; [|split].
  - destruct (mar g miss dep (Fin 0%R) (mkEnv ds k)) as [r env'] eqn:E.
    assert (H : preserves (fun f => f = ds) (mar g miss dep (Fin 0%R))).
    { unfold mar, mar_categorical, mar_numeric. repeat preserves_zero_step. }
    exact (H (mkEnv ds k) r env' eq_refl E).
  - destruct (nmar g column (Fin 0%R) (mkEnv ds k)) as [r env'] eqn:E.
    assert (H : preserves (fun f => f = ds) (nmar g column (Fin 0%R))).
    { unfold nmar, nmar_categorical, nmar_numeric. repeat preserves_zero_step. }
    exact (H (mkEnv ds k) r env' eq_refl E).
  - intros r. simpl. f_equal. lra.
Qed.

(** ** One probability per category *)

(** C5. In the categorical branch of MAR and NMAR the assignment is
    built with exactly one standard-normal draw per distinct value of the
    dependent column, each passed through the sigmoid; every value of the
    column finds there the probability of the distinct value it equals, so
    equal values share one probability; and every row's trial is drawn with
    the probability of its own dependent value, times [b].  (A target cell
    of MAR that is not overwritten holds its value as the target column
    stores it after the call.) *)
Theorem categorical_probability_shared
    (g : Seed) (ds : DataFrame) (k : nat) (miss dep : string) (b : R) (s : Series) :
  Pandas.lookup (columns ds) dep = Some s ->
  is_categorical_dtype (dtype s) = true ->
  (0 <= b <= 1)%R ->
  let d := categorical_assignment g k s in
  let k1 := k + List.length (Pandas.unique s) in
  cat_dict_of g s (mkEnv ds k) = (Ok d, mkEnv ds k1) /\
  ForallOrdPairs (fun c c' => py_eqb c c' = false) (Pandas.unique s) /\
  (forall c, In c (values s) ->
     exists idx key,
       nth_error (Pandas.unique s) idx = Some key /\ py_eqb key c = true /\
       Dict.get d c = Some (sig (Fin (normal_at g (k + idx))))) /\
  (forall c c', py_eqb c c' = true -> Dict.get d c = Dict.get d c') /\
  (exists env',
     nmar g dep (Fin b) (mkEnv ds k) = (Ok tt, env') /\
     pos env' = k1 + List.length (values s) /\
     forall i c, nth_error (values s) i = Some c ->
       exists pr hit,
         Dict.get d c = Some pr /\
         trial_at g (k1 + i) (Np.mul pr (Fin b)) = Ok hit /\
         cell (frame env') dep i = Some (if hit then nan else c)) /\
  (forall env',
     mar g miss dep (Fin b) (mkEnv ds k) = (Ok tt, env') ->
     pos env' = k1 + shape0 ds /\
     forall i, i < shape0 ds ->
       exists c pr hit,
         read ds dep i = Ok c /\ Dict.get d c = Some pr /\
         trial_at g (k1 + i) (Np.mul pr (Fin b)) = Ok hit /\
         forall v, cell ds miss i = Some v ->
                   cell (frame env') miss i =
                     Some (if hit then nan else stored ds (frame env') miss v)) /\
  (forall sm,
     Pandas.lookup (columns ds) miss = Some sm ->
     shape0 ds <= List.length (values s) ->
     shape0 ds <= List.length (values sm) ->
     exists env', mar g miss dep (Fin b) (mkEnv ds k) = (Ok tt, env')).
Proof.
  intros Hl Hcat Hb d k1.
  assert (Hnmar : nmar g dep (Fin b) (mkEnv ds k) =
                  nmar_categorical g dep (Fin b) (mkEnv ds k)).
  { unfold nmar. rewrite (in_range_not_out Hb).
    erewrite bind_step by (apply is_categorical_run; exact Hl).
    fold (is_categorical_dtype (dtype s)). now rewrite Hcat. }
  assert (Hmar : mar g miss dep (Fin b) (mkEnv ds k) =
                 mar_categorical g miss dep (Fin b) (mkEnv ds k)).
  { unfold mar. rewrite (in_range_not_out Hb).
    erewrite bind_step by (apply is_categorical_run; exact Hl).
    fold (is_categorical_dtype (dtype s)). now rewrite Hcat. }
  split; [apply cat_dict_of_run|].
  split; [apply unique_from_distinct|].
  split; [intros c Hc; now apply categorical_get|].
  split; [intros c c' Hc; now apply get_py_eqb|].
  split; [|split].
  - destruct (@nmar_categorical_total g ds k dep b s Hl Hb) as [env' H].
    exists env'. rewrite Hnmar. split; [exact H|].
    apply nmar_categorical_returns with (s := s) in H; [|exact Hl].
    apply rows_done_categorical in H as [Hpos Hrows].
    split; [exact Hpos|]. intros i c Hc.
    destruct (Hrows i) as (c' & pr & hit & Hr & Hg & Ht & Hcell).
    { apply nth_error_Some. congruence. }
    rewrite (@read_snapshot ds dep s i c Hl Hc) in Hr. injection Hr as <-.
    exists pr, hit. split; [exact Hg|]. split; [exact Ht|].
    rewrite <- (@stored_categorical ds (frame env') dep s c Hl Hcat).
    apply Hcell. unfold cell. now rewrite Hl.
  - intros env' H. rewrite Hmar in H.
    apply mar_categorical_returns with (s := s) in H; [|exact Hl|exact Hcat].
    now apply rows_done_categorical in H.
  - intros sm Hm Hs Hsm. rewrite Hmar.
    eapply mar_categorical_total; eauto.
Qed.

Lemma categorical_probability_shared_witness :
  (0 <= 1 / 2 <= 1)%R /\
  cat_dict_of seed0 (mkSeries DObject [CStr "A"]) (mkEnv frame_region 0) =
    (Ok (categorical_assignment seed0 0 (mkSeries DObject [CStr "A"])),
     mkEnv frame_region 1).
Proof.
  assert (Hb : (0 <= 1 / 2 <= 1)%R) by lra.
  split; [exact Hb|].
  exact (proj1 (@categorical_probability_shared seed0 frame_region 0 "sales" "region"
                  (1 / 2)%R (mkSeries DObject [CStr "A"]) eq_refl eq_refl Hb)).
Defined.

(** ** Dispatch on the declared type *)

(** C6. Which branch MAR and NMAR take is decided by the declared type
    of the dependent column alone: object and bool columns take the
    categorical branch, columns of the other types (int64, float64, and
    also the pandas category dtype) the numeric one, whatever the cells
    hold. *)
Theorem branch_by_declared_type
    (g : Seed) (env : Env) (miss dep : string) (b : R) (s : Series) :
  Pandas.lookup (columns (frame env)) dep = Some s ->
  (0 <= b <= 1)%R ->
  is_categorical dep env =
    (Ok (match dtype s with
         | DObject | DBool => true
         | DInt64 | DFloat64 | DCategory => false
         end), env) /\
  mar g miss dep (Fin b) env =
    match dtype s with
    | DObject | DBool => mar_categorical g miss dep (Fin b) env
    | DInt64 | DFloat64 | DCategory => mar_numeric g miss dep (Fin b) env
    end /\
  nmar g dep (Fin b) env =
    match dtype s with
    | DObject | DBool => nmar_categorical g dep (Fin b) env
    | DInt64 | DFloat64 | DCategory => nmar_numeric g dep (Fin b) env
    end.
Proof.
  intros Hl Hb. pose proof (is_categorical_run _ _ Hl) as Hc.
  split; [exact Hc|].
  unfold mar, nmar. rewrite (in_range_not_out Hb).
  split; erewrite bind_step by exact Hc; destruct (dtype s); reflexivity.
Qed.

Lemma branch_by_declared_type_witness :
  (0 <= 1 / 2 <= 1)%R /\
  mar seed0 "sales" "region" (Fin (1 / 2)%R) (mkEnv frame_region 0) =
    mar_categorical seed0 "sales" "region" (Fin (1 / 2)%R) (mkEnv frame_region 0).
Proof.
  assert (Hb : (0 <= 1 / 2 <= 1)%R) by lra.
  split; [exact Hb|].
  exact (proj1 (proj2
    (@branch_by_declared_type seed0 (mkEnv frame_region 0) "sales" "region" (1 / 2)%R
       (mkSeries DObject [CStr "A"]) eq_refl Hb))).
Defined.

(** ** Absent columns *)

(** C7 (as the code has it).  With the tuning parameter in [0, 1]: MCAR
    and NMAR on an absent column, and MAR with an absent dependent column,
    raise the lookup error at once, with the dataset unchanged and no random
    draw made.  MAR with an absent target column never changes the dataset
    and looks the target column up only when a trial returns 1: it raises
    the lookup error at the first row whose trial returns 1, and when it
    returns normally every trial has returned 0. *)
Theorem absent_column_lookup_error
    (g : Seed) (ds : DataFrame) (k : nat) (column miss dep : string) (x : R) :
  (0 <= x <= 1)%R ->
  (Pandas.lookup (columns ds) column = None ->
   mcar g column (Fin x) (mkEnv ds k) = (Raise (KeyError (CStr column)), mkEnv ds k) /\
   nmar g column (Fin x) (mkEnv ds k) = (Raise (KeyError (CStr column)), mkEnv ds k)) /\
  (Pandas.lookup (columns ds) dep = None ->
   mar g miss dep (Fin x) (mkEnv ds k) = (Raise (KeyError (CStr dep)), mkEnv ds k)) /\
  (Pandas.lookup (columns ds) miss = None ->
   frame (snd (mar g miss dep (Fin x) (mkEnv ds k))) = ds /\
   (forall j q,
      j < shape0 ds ->
      (forall i, i < j ->
         exists q', row_prob g ds k dep (Fin x) i = Ok q' /\
                    trial_at g (first_trial ds k dep + i) q' = Ok false) ->
      row_prob g ds k dep (Fin x) j = Ok q ->
      trial_at g (first_trial ds k dep + j) q = Ok true ->
      mar g miss dep (Fin x) (mkEnv ds k) =
        (Raise (KeyError (CStr miss)), mkEnv ds (S (first_trial ds k dep + j)))) /\
   (forall env',
      mar g miss dep (Fin x) (mkEnv ds k) = (Ok tt, env') ->
      forall i, i < shape0 ds ->
        exists q, row_prob g ds k dep (Fin x) i = Ok q /\
                  trial_at g (first_trial ds k dep + i) q = Ok false)).
Proof.
  intros Hx. pose proof (in_range_not_out Hx) as Hr.
  split; [|split].
  - intros Hl. unfold mcar, nmar. rewrite Hr. split.
    + apply bind_raise. now apply getitem_absent.
    + apply bind_raise. now apply is_categorical_absent.
  - intros Hl. unfold mar. rewrite Hr.
    apply bind_raise. now apply is_categorical_absent.
  - intros Hl. split; [|split].
    + destruct (mar g miss dep (Fin x) (mkEnv ds k)) as [r env'] eqn:E.
      exact (@mar_absent_target_frame g ds miss dep (Fin x) Hl (mkEnv ds k) r env'
               eq_refl E).
    + intros j q Hj Hbefore Hq Ht.
      exact (@mar_absent_target_raises g ds k miss dep (Fin x) j q Hr Hl Hj Hbefore Hq Ht).
    + intros env' H i Hi.
      exact (@mar_absent_target_no_hit g ds k miss dep (Fin x) env' Hl H i Hi).
Qed.

Lemma absent_column_lookup_error_witness :
  (0 <= 1 / 2 <= 1)%R /\
  Pandas.lookup (columns frame_region) "sales" = None /\
  mcar seed0 "sales" (Fin (1 / 2)%R) (mkEnv frame_region 0) =
    (Raise (KeyError (CStr "sales")), mkEnv frame_region 0).
Proof.
  assert (Hb : (0 <= 1 / 2 <= 1)%R) by lra.
  split; [exact Hb|]. split; [reflexivity|].
  exact (proj1 (proj1
    (@absent_column_lookup_error seed0 frame_region 0 "sales" "sales" "region"
       (1 / 2)%R Hb) eq_refl)).
Defined.

(** C7 fails as stated for the target column of MAR: "sales" is absent
    from the frame, yet the call (with [b = 1/2]) returns normally, because
    the column is only looked up when a trial returns 1. *)
Lemma absent_target_counterexample :
  Pandas.lookup (columns frame_region) "sales" = None /\
  mar seed_high "sales" "region" (Fin (1 / 2)%R) (mkEnv frame_region 0) =
    (Ok tt, mkEnv frame_region 2).
Proof.
  split; [reflexivity|apply mar_absent_target_returns].
Qed.

(** ** The trial probability needs no clamping *)

(** C8 (as the code has it).  For every float64 [x] other than NaN and
    every [b] in [0, 1]: [0 <= sig(x) <= 1] and [0 <= sig(x) * b <= 1], so
    the two branch probabilities [sig(x) * b] and [1 - sig(x) * b] of the
    trial lie in [0, 1] and sum to 1, and the sampler accepts them as they
    are.  The bounds on [sig(x)] are not strict. *)
Theorem trial_probability_well_formed (x : float64) (b : R) :
  x <> NaN ->
  (0 <= b <= 1)%R ->
  exists s : R,
    sig x = Fin s /\
    (0 <= s <= 1)%R /\
    (0 <= s * b <= 1)%R /\
    Np.mul (sig x) (Fin b) = Fin (s * b) /\
    Np.sub (Fin 1%R) (Np.mul (sig x) (Fin b)) = Fin (1 - s * b) /\
    (0 <= 1 - s * b <= 1)%R /\
    (s * b + (1 - s * b) = 1)%R /\
    NpRandom.choice_check [1%Z; 0%Z]
      [Np.mul (sig x) (Fin b); Np.sub (Fin 1%R) (Np.mul (sig x) (Fin b))] = None.
Proof.
  intros Hx Hb.
  assert (Hs : exists s : R, sig x = Fin s /\ (0 <= s <= 1)%R).
  { destruct x as [r| | |]; [| | |now destruct Hx].
    - exists (1 / (1 + exp (- r)))%R. split; [apply sig_Fin|].
      pose proof (sig_Fin_range r). lra.
    - exists (1 / (1 + 0))%R. split; [|lra].
      unfold sig. cbn [Np.neg Np.exp Np.add]. apply div_Fin. lra.
    - exists 0%R. split; [reflexivity|lra]. }
  destruct Hs as (s & Es & Hs). exists s.
  assert (Hsb : (0 <= s * b <= 1)%R) by nra.
  rewrite Es. cbn [Np.mul].
  split; [reflexivity|]. split; [exact Hs|]. split; [exact Hsb|].
  split; [reflexivity|]. split; [reflexivity|].
  split; [lra|]. split; [lra|].
  apply check_Fin. exact Hsb.
Qed.

Lemma trial_probability_well_formed_witness :
  Fin 0%R <> NaN /\ (0 <= 1 / 2 <= 1)%R /\
  exists s : R, sig (Fin 0%R) = Fin s /\ (0 <= s <= 1)%R /\ (0 <= s * (1 / 2) <= 1)%R.
Proof.
  assert (Hx : Fin 0%R <> NaN) by discriminate.
  assert (Hb : (0 <= 1 / 2 <= 1)%R) by lra.
  split; [exact Hx|]. split; [exact Hb|].
  destruct (@trial_probability_well_formed (Fin 0%R) (1 / 2)%R Hx Hb)
    as (s & H1 & H2 & H3 & _).
  exists s. auto.
Defined.

(** C8 fails as stated, in float64.  [np.exp(-40.0)] is below 2^-53, so
    [1 + np.exp(-40.0)] rounds to 1.0 and [sig(40.0)] is exactly 1.0: it is
    not below 1, and neither is [sig(40.0) * b] for [b = 1.0].  (The same
    holds of the float64 values next to [np.exp(-40.0)], and of 2^-53
    itself.)  [np.exp(745.0)] overflows to infinity, so [sig(-745.0)] is
    exactly 0.0: it is not above 0. *)
Lemma sigmoid_bounds_counterexample :
  Binary64.sig_of_exp Binary64.exp_minus_40 = Binary64.one /\
  Binary64.ltb (Binary64.sig_of_exp Binary64.exp_minus_40) Binary64.one = false /\
  Binary64.ltb (Binary64.mul (Binary64.sig_of_exp Binary64.exp_minus_40) Binary64.one)
               Binary64.one = false /\
  Forall (fun e => Binary64.sig_of_exp e = Binary64.one)
         [SFpred Binary64.prec Binary64.emax Binary64.exp_minus_40;
          SFsucc Binary64.prec Binary64.emax Binary64.exp_minus_40;
          Binary64.half_ulp_of_one] /\
  Binary64.sig_of_exp Binary64.exp_745 = Binary64.zero /\
  Binary64.ltb Binary64.zero (Binary64.sig_of_exp Binary64.exp_745) = false.
Proof.
  split; [reflexivity|]. split; [reflexivity|]. split; [reflexivity|].
  split; [repeat constructor|]. split; reflexivity.
Qed.

(** ** The missing marker is never reversed *)

(** C9. A cell that holds the missing marker before an MCAR, MAR or NMAR
    call holds it after the call (whether the call returns or raises). *)
Theorem missing_marker_is_terminal
    (g : Seed) (ds : DataFrame) (k : nat) (name : string) (i : nat) (c : Cell) :
  cell ds name i = Some c -> is_missing c = true ->
  (forall column p,
      cell (frame (snd (mcar g column p (mkEnv ds k)))) name i = Some nan) /\
  (forall miss dep b,
      cell (frame (snd (mar g miss dep b (mkEnv ds k)))) name i = Some nan) /\
  (forall column b,
      cell (frame (snd (nmar g column b (mkEnv ds k)))) name i = Some nan).
Proof.
  intros Hc Hm. repeat split; intros.
  - destruct (mcar g column p (mkEnv ds k)) as [r env'] eqn:E.
    eapply overwrite_missing_stays; [|exact Hc|exact Hm].
    eapply preserves_mcar; [|exact E]. apply cast_overwrite_refl.
  - destruct (mar g miss dep b (mkEnv ds k)) as [r env'] eqn:E.
    eapply overwrite_missing_stays; [|exact Hc|exact Hm].
    eapply preserves_mar; [|exact E]. apply cast_overwrite_refl.
  - destruct (nmar g column b (mkEnv ds k)) as [r env'] eqn:E.
    eapply overwrite_missing_stays; [|exact Hc|exact Hm].
    eapply preserves_nmar; [|exact E]. apply cast_overwrite_refl.
Qed.

Lemma missing_marker_is_terminal_witness :
  cell frame_x "x" 0 = Some nan /\
  cell (frame (snd (mcar seed0 "x" (Fin 1%R) (mkEnv frame_x 0)))) "x" 0 = Some nan.
Proof.
  split; [reflexivity|].
  exact (proj1 (missing_marker_is_terminal seed0 frame_x 0 "x" 0
                  (c := nan) eq_refl eq_refl) "x"%string (Fin 1%R)).
Defined.

(** ** What a normal return leaves alone *)

(** C10 (as the code has it).  When MCAR, MAR or NMAR returns normally,
    the row count, the column names and the length of every column are
    unchanged, every column other than the target one is exactly as it was,
    and in the target column every row whose trial returned 0 holds its
    original value as the column stores it after the call.  That is the
    original value itself, except in an int64 column of which a cell was
    overwritten: the column has become float64 and holds every integer
    converted to float64, which is exact up to magnitude 2^53. *)
Theorem normal_return_frame_effect
    (g : Seed) (ds : DataFrame) (k : nat) (env' : Env) :
  (forall column p,
     mcar g column p (mkEnv ds k) = (Ok tt, env') ->
     frame_effect column ds (frame env') /\
     forall i v,
       cell ds column i = Some v -> trial_at g (k + i) p = Ok false ->
       cell (frame env') column i = Some (stored ds (frame env') column v)) /\
  (forall miss dep b,
     mar g miss dep b (mkEnv ds k) = (Ok tt, env') ->
     frame_effect miss ds (frame env') /\
     forall i v q,
       cell ds miss i = Some v -> row_prob g ds k dep b i = Ok q ->
       trial_at g (first_trial ds k dep + i) q = Ok false ->
       cell (frame env') miss i = Some (stored ds (frame env') miss v)) /\
  (forall column b,
     nmar g column b (mkEnv ds k) = (Ok tt, env') ->
     frame_effect column ds (frame env') /\
     forall i v q,
       cell ds column i = Some v -> row_prob g ds k column b i = Ok q ->
       trial_at g (first_trial ds k column + i) q = Ok false ->
       cell (frame env') column i = Some (stored ds (frame env') column v)) /\
  (forall col v,
     stored ds (frame env') col v = v \/
     exists s s' x,
       Pandas.lookup (columns ds) col = Some s /\
       Pandas.lookup (columns (frame env')) col = Some s' /\
       dtype s = DInt64 /\ dtype s' = DFloat64 /\ v = CNum x /\
       stored ds (frame env') col v = CNum (Np.as_float64 x)) /\
  (forall z : Z, (Z.abs z <= 2 ^ 53)%Z -> Np.to_float64 (IZR z) = IZR z).
Proof.
  split; [|split; [|split; [|split]]].
  - intros column p H. split.
    + apply cast_overwrite_frame_effect.
      eapply preserves_mcar; [|exact H]. apply cast_overwrite_refl.
    + intros i v Hv Ht.
      destruct (Pandas.lookup (columns ds) column) as [s|] eqn:Hl.
      * eapply rows_done_kept with (Q := fun _ => Ok p);
          [eapply mcar_returns; eauto|exact Hv|reflexivity|exact Ht].
      * unfold cell in Hv. rewrite Hl in Hv. discriminate.
  - intros miss dep b H. split.
    + apply cast_overwrite_frame_effect.
      eapply preserves_mar; [|exact H]. apply cast_overwrite_refl.
    + intros i v q. eapply rows_done_kept. eapply mar_returns; eauto.
  - intros column b H. split.
    + apply cast_overwrite_frame_effect.
      eapply preserves_nmar; [|exact H]. apply cast_overwrite_refl.
    + intros i v q. destruct (@nmar_returns g ds k column b env' H) as (s & _ & Hr).
      eapply rows_done_kept. exact Hr.
  - intros col v. unfold stored.
    destruct (Pandas.lookup (columns ds) col) as [s|]; [|now left].
    destruct (Pandas.lookup (columns (frame env')) col) as [s'|]; [|now left].
    destruct (dtype s) eqn:Ed; try (left; reflexivity).
    destruct (dtype s') eqn:Ed'; try (left; reflexivity).
    destruct v as [t|t|x]; try (left; reflexivity).
    right. exists s, s', x. auto 10.
  - exact to_float64_exact.
Qed.

Lemma normal_return_frame_effect_witness :
  mcar seed0 "x" (Fin 0%R) (mkEnv frame_x 0) = (Ok tt, mkEnv frame_x 2) /\
  frame_effect "x" frame_x frame_x.
Proof.
  assert (H : mcar seed0 "x" (Fin 0%R) (mkEnv frame_x 0) = (Ok tt, mkEnv frame_x 2)).
  { exact (@mcar_zero_run seed0 frame_x 0 "x" _ eq_refl). }
  split; [exact H|].
  exact (proj1 (proj1 (@normal_return_frame_effect seed0 frame_x 0 (mkEnv frame_x 2))
                  "x"%string (Fin 0%R) H)).
Defined.

(** C10 fails as stated: MCAR with [p = 1/2] on the int64 column
    [2^53 + 1, 5] returns normally; the trial of row 0 returns 0 (its
    sample is 3/4) and the trial of row 1 returns 1, which turns the column
    into float64; row 0 then holds 2^53, not its original value. *)
Lemma unhit_row_counterexample :
  mcar seed_late "id" (Fin (1 / 2)%R) (mkEnv frame_ids 0) =
    (Ok tt, mkEnv frame_ids_after 2) /\
  trial_at seed_late 0 (Fin (1 / 2)%R) = Ok false /\
  cell frame_ids "id" 0 = Some (CNum (Fin 9007199254740993%R)) /\
  cell frame_ids_after "id" 0 = Some (CNum (Fin 9007199254740992%R)) /\
  CNum (Fin 9007199254740993%R) <> CNum (Fin 9007199254740992%R).
Proof.
  assert (Ht0 : trial_at seed_late 0 (Fin (1 / 2)%R) = Ok false).
  { rewrite trial_at_Fin by lra. cbn [uniform_at seed_late].
    destruct (Rlt_dec (3 / 4) (1 / 2)); [lra|reflexivity]. }
  assert (Ht1 : trial_at seed_late 1 (Fin (1 / 2)%R) = Ok true).
  { rewrite trial_at_Fin by lra. cbn [uniform_at seed_late].
    destruct (Rlt_dec 0 (1 / 2)); [reflexivity|lra]. }
  split; [|split; [exact Ht0|split; [reflexivity|split; [reflexivity|]]]].
  - unfold mcar. rewrite in_range_not_out by lra.
    erewrite bind_step by (apply getitem_run; reflexivity).
    unfold for_enumerate. cbn [values for_enumerate_from].
    erewrite bind_step;
      [|erewrite bind_step by (apply trial_at_run; exact Ht0); reflexivity].
    cbn [frame pos].
    erewrite bind_step;
      [reflexivity|erewrite bind_step by (apply trial_at_run; exact Ht1)].
    cbn [frame pos]. unfold Pandas.setitem_iloc_nan.
    cbn [frame pos columns frame_ids Pandas.lookup String.eqb Ascii.eqb Bool.eqb
         values dtype List.length Nat.ltb Nat.leb Pandas.upcast_for_nan map
         Pandas.astype Pandas.list_set Pandas.replace shape0 Np.as_float64].
    rewrite !to_float64_IZR.
    change (Np.nearest_float64 9007199254740993) with 9007199254740992%Z.
    reflexivity.
  - intros H. injection H as H. apply eq_IZR in H. discriminate.
Qed.

(* ================================================================== *)
(** * Further properties *)

(** ** The Bernoulli trial, characterised *)

Section TrialCharacterised.

Local Open Scope R_scope.

Variable g : Seed.

Lemma ltb_Fin_true (a b : R) : a < b -> Np.ltb (Fin a) (Fin b) = true.
Proof. intros H. simpl. destruct (Rlt_dec a b); [reflexivity|lra]. Qed.

Lemma check_negative (r : R) :
  r < 0 \/ 1 < r ->
  NpRandom.choice_check [1%Z; 0%Z] [Fin r; Np.sub (Fin 1) (Fin r)] =
    Some (ValueError msg_negative).
Proof.
  intros Hr. unfold NpRandom.choice_check. cbn [List.length Nat.eqb negb].
  unfold NpRandom.kahan_sum.
  cbn [fold_left Np.sub Np.neg Np.add Np.isnan existsb].
  destruct Hr as [Hr|Hr].
  - rewrite (ltb_Fin_true (a := r) (b := 0)) by lra. reflexivity.
  - rewrite (ltb_Fin_false (a := r) (b := 0)) by lra.
    rewrite (ltb_Fin_true (a := 1 + - r) (b := 0)) by lra. reflexivity.
Qed.

Lemma check_special (q : float64) :
  (forall r, q <> Fin r) ->
  NpRandom.choice_check [1%Z; 0%Z] [q; Np.sub (Fin 1) q] = Some (ValueError msg_nan).
Proof.
  intros Hq. destruct q as [r| | |]; [now destruct (Hq r)| | |]; reflexivity.
Qed.

(** A trial that returns was given a probability of [0, 1], and returns 1
    exactly when the uniform sample is below it. *)
Lemma trial_at_ok_inv (k : nat) (q : float64) (hit : bool) :
  trial_at g k q = Ok hit ->
  exists r, q = Fin r /\ 0 <= r <= 1 /\ hit = below (uniform_at g k) r.
Proof.
  intros H. destruct q as [r| | |]; try discriminate.
  destruct (Rlt_dec r 0) as [Hn|Hn].
  { unfold trial_at in H. rewrite check_negative in H by auto. discriminate. }
  destruct (Rlt_dec 1 r) as [Hp|Hp].
  { unfold trial_at in H. rewrite check_negative in H by auto. discriminate. }
  exists r. split; [reflexivity|]. split; [lra|].
  rewrite trial_at_Fin in H by lra. unfold below. congruence.
Qed.

End TrialCharacterised.

(** X1. The trial [np.random.choice([1, 0], p = [q, 1 - q]) == 1]: with
    [q] in [0, 1] it makes one uniform draw and succeeds exactly when the
    sample is below [q]; with [q] below 0 or above 1 the sampler raises
    "probabilities are not non-negative", and with a NaN or infinite [q] it
    raises "probabilities contain NaN", in both cases without a draw. *)
Theorem trial_characterised (g : Seed) (env : Env) (r : R) :
  ((0 <= r <= 1)%R ->
   trial g (Fin r) env =
     (Ok (below (uniform_at g (pos env)) r), mkEnv (frame env) (S (pos env)))) /\
  ((r < 0 \/ 1 < r)%R ->
   trial g (Fin r) env = (Raise (ValueError msg_negative), env)) /\
  trial g NaN env = (Raise (ValueError msg_nan), env) /\
  trial g PInf env = (Raise (ValueError msg_nan), env) /\
  trial g NInf env = (Raise (ValueError msg_nan), env).
Proof.
  split; [|split; [|split; [|split]]].
  - intros Hr. rewrite trial_run, check_Fin by exact Hr.
    now rewrite trial_at_Fin by exact Hr.
  - intros Hr. rewrite trial_run. now rewrite check_negative by exact Hr.
  - apply trial_NaN.
  - rewrite trial_run. reflexivity.
  - rewrite trial_run. reflexivity.
Qed.

Lemma trial_characterised_witness :
  (0 <= 1 / 2 <= 1)%R /\
  trial seed_high (Fin (1 / 2)%R) (mkEnv frame_x 0) =
    (Ok (below (3 / 4) (1 / 2)), mkEnv frame_x 1).
Proof.
  assert (Hb : (0 <= 1 / 2 <= 1)%R) by lra.
  split; [exact Hb|].
  exact (proj1 (trial_characterised seed_high (mkEnv frame_x 0) (1 / 2)%R) Hb).
Defined.

(* ================================================================== *)
(** ** MCAR, cell by cell *)

Section McarCells.

Local Open Scope R_scope.

Variable g : Seed.

(** MCAR with [p] in [0, 1] on an existing column returns normally, and
    tells of every cell what it holds afterwards. *)
Lemma mcar_run (ds : DataFrame) (k : nat) (column : string) (p : R) (s : Series) :
  Pandas.lookup (columns ds) column = Some s ->
  0 <= p <= 1 ->
  exists ds',
    mcar g column (Fin p) (mkEnv ds k) =
      (Ok tt, mkEnv ds' (k + List.length (values s))) /\
    cast_overwrite column ds ds' /\
    forall i v, nth_error (values s) i = Some v ->
      cell ds' column i =
        Some (if below (uniform_at g (k + i)) p then nan else stored ds ds' column v).
Proof.
  intros Hl Hp.
  destruct (@mcar_total g ds k column (Fin p) s Hl) as [env' H].
  - now apply in_range_not_out.
  - intros j. eexists. now apply trial_at_Fin.
  - exists (frame env').
    pose proof (@mcar_returns g ds k column _ s env' Hl H) as (Hpos & Hov & Hdone & _).
    split; [|split; [exact Hov|]].
    + rewrite H. f_equal. destruct env' as [f n]. simpl in *. congruence.
    + intros i v Hv.
      assert (Hi : (i < List.length (values s))%nat).
      { apply nth_error_Some. congruence. }
      destruct (Hdone i Hi) as (q & hit & Hq & Ht & _ & Hc).
      injection Hq as <-. rewrite trial_at_Fin in Ht by exact Hp.
      injection Ht as <-. unfold below. apply Hc. unfold cell. now rewrite Hl.
Qed.

End McarCells.

(** X2. MCAR with [p] in [0, 1] on an existing column never raises: it
    makes exactly one uniform draw per row, and row [i] ends up missing
    exactly when its sample is below [p] (or when it was missing already);
    a row that is not overwritten holds its value as the column stores it
    after the call (an int64 column of which a cell was overwritten has
    become float64: its integers are converted, exactly up to magnitude
    2^53); nothing else in the frame changes. *)
Theorem mcar_cell_by_cell
    (g : Seed) (ds : DataFrame) (k : nat) (column : string) (p : R) (s : Series) :
  Pandas.lookup (columns ds) column = Some s ->
  (0 <= p <= 1)%R ->
  exists ds',
    mcar g column (Fin p) (mkEnv ds k) =
      (Ok tt, mkEnv ds' (k + List.length (values s))) /\
    frame_effect column ds ds' /\
    (forall i v, nth_error (values s) i = Some v ->
       cell ds' column i =
         Some (if below (uniform_at g (k + i)) p then nan else stored ds ds' column v)) /\
    (forall v, dtype s <> DInt64 -> stored ds ds' column v = v) /\
    (forall z : Z, (Z.abs z <= 2 ^ 53)%Z ->
       stored ds ds' column (CNum (Fin (IZR z))) = CNum (Fin (IZR z))).
Proof.
  intros Hl Hp. destruct (@mcar_run g ds k column p s Hl Hp) as (ds' & H & Hov & Hc).
  exists ds'. split; [exact H|]. split; [now apply cast_overwrite_frame_effect|].
  split; [exact Hc|]. split.
  - intros v Hd. unfold stored. rewrite Hl.
    destruct (Pandas.lookup (columns ds') column); [|reflexivity].
    now apply astype_other.
  - intros z Hz. unfold stored. rewrite Hl.
    destruct (Pandas.lookup (columns ds') column) as [s'|]; [|reflexivity].
    destruct (dtype s), (dtype s'); try reflexivity.
    cbn [Pandas.astype Np.as_float64]. now rewrite to_float64_exact.
Qed.

Lemma mcar_cell_by_cell_witness :
  (0 <= 1 / 2 <= 1)%R /\
  exists ds',
    mcar seed_high "x" (Fin (1 / 2)%R) (mkEnv frame_x 0) = (Ok tt, mkEnv ds' 2) /\
    cell ds' "x" 1 = Some (if below (3 / 4) (1 / 2) then nan else CNum (Fin 3%R)).
Proof.
  assert (Hb : (0 <= 1 / 2 <= 1)%R) by lra.
  split; [exact Hb|].
  destruct (@mcar_cell_by_cell seed_high frame_x 0 "x" (1 / 2)%R _ eq_refl Hb)
    as (ds' & H & _ & Hc & Hs & _).
  exists ds'. split; [exact H|].
  rewrite (Hc 1 (CNum (Fin 3%R)) eq_refl).
  rewrite (Hs (CNum (Fin 3%R))); [reflexivity|discriminate].
Defined.

(** X3. MCAR is monotone in [p] along a fixed random stream: started in
    the same state, every cell that is missing after the call with [p1] is
    missing after the call with a larger [p2]. *)
Theorem mcar_monotone
    (g : Seed) (ds : DataFrame) (k : nat) (column : string) (p1 p2 : R) (i : nat) :
  (0 <= p1)%R -> (p1 <= p2)%R -> (p2 <= 1)%R ->
  cell (frame (snd (mcar g column (Fin p1) (mkEnv ds k)))) column i = Some nan ->
  cell (frame (snd (mcar g column (Fin p2) (mkEnv ds k)))) column i = Some nan.
Proof.
  intros H0 H12 H1.
  destruct (Pandas.lookup (columns ds) column) as [s|] eqn:Hl.
  - destruct (@mcar_run g ds k column p1 s Hl) as (d1 & E1 & _ & C1); [lra|].
    destruct (@mcar_run g ds k column p2 s Hl) as (d2 & E2 & O2 & C2); [lra|].
    rewrite E1, E2. cbn [snd frame]. intros Hc.
    destruct (nth_error (values s) i) as [v|] eqn:Hv.
    + rewrite (C1 i v Hv) in Hc. rewrite (C2 i v Hv).
      unfold below in *.
      destruct (Rlt_dec (uniform_at g (k + i)) p1) as [Hu|Hu].
      * destruct (Rlt_dec (uniform_at g (k + i)) p2); [reflexivity|lra].
      * injection Hc as Hc. apply stored_nan_inv in Hc. subst v.
        rewrite stored_nan. now destruct (Rlt_dec _ _).
    + pose proof (overwrite_cell column i O2) as Hcell.
      unfold cell at 1 in Hcell. rewrite Hl, Hv in Hcell.
      pose proof (@mcar_run g ds k column p1 s Hl) as (d1' & E1' & O1 & _); [lra|].
      assert (d1' = d1) by congruence. subst d1'.
      pose proof (overwrite_cell column i O1) as Hcell1.
      unfold cell at 1 in Hcell1. rewrite Hl, Hv in Hcell1.
      rewrite Hc in Hcell1. contradiction.
  - unfold mcar at 1. rewrite in_range_not_out by lra.
    erewrite bind_raise by (apply getitem_absent; exact Hl).
    cbn [snd frame]. unfold cell. now rewrite Hl.
Qed.

Lemma mcar_monotone_witness :
  (0 <= 1 / 2)%R /\ (1 / 2 <= 1)%R /\ (1 <= 1)%R /\
  cell (frame (snd (mcar seed0 "x" (Fin (1 / 2)%R) (mkEnv frame_x 0)))) "x" 0 = Some nan /\
  cell (frame (snd (mcar seed0 "x" (Fin 1%R) (mkEnv frame_x 0)))) "x" 0 = Some nan.
Proof.
  assert (H0 : (0 <= 1 / 2)%R) by lra.
  assert (H1 : (1 / 2 <= 1)%R) by lra.
  assert (H2 : (1 <= 1)%R) by lra.
  assert (Hc : cell (frame (snd (mcar seed0 "x" (Fin (1 / 2)%R) (mkEnv frame_x 0))))
                 "x" 0 = Some nan).
  { destruct (mcar seed0 "x" (Fin (1 / 2)%R) (mkEnv frame_x 0)) as [r env'] eqn:E.
    apply (@overwrite_missing_stays "x" frame_x (frame (snd (r, env'))) "x" 0 nan);
      [|reflexivity|reflexivity].
    exact (@preserves_mcar seed0 frame_x "x" (Fin (1 / 2)%R)
             (mkEnv frame_x 0) r env' (cast_overwrite_refl "x" frame_x) E). }
  split; [exact H0|]. split; [exact H1|]. split; [exact H2|]. split; [exact Hc|].
  exact (@mcar_monotone seed0 frame_x 0 "x" (1 / 2)%R 1%R 0 H0 H1 H2 Hc).
Defined.

(* ================================================================== *)
(** ** A NaN tuning parameter *)

Lemma mul_nan_never_hits (pr : float64) : never_hits (Np.mul pr NaN).
Proof. left. now destruct pr. Qed.

Lemma nan_never_hits : never_hits NaN.
Proof. now left. Qed.

Ltac preserves_nan_step :=
  match goal with
  | |- preserves _ (bind (trial _ _) _) =>
      apply preserves_inject_never;
      first [apply mul_nan_never_hits | apply nan_never_hits]
  | |- preserves _ (bind _ _) => apply preserves_bind; [|intros ?]
  | |- preserves _ (for_range _ _) => apply preserves_for_range; intros ?
  | |- preserves _ (for_enumerate _ _) =>
      apply preserves_for_enumerate_from; intros ? ?
  | |- preserves _ (if ?c then _ else _) => destruct c
  | |- preserves _ _ => solve [apply frame_fixed_preserves; auto with frame_fixed]
  end.

(** X4. A NaN tuning parameter is not caught by the range check (both
    comparisons with NaN are false).  No call with it ever changes the
    dataset; MCAR with [p = NaN] returns normally on a column without rows
    and otherwise raises the sampler's "probabilities contain NaN" at the
    first row. *)
Theorem nan_parameter_passes_guard
    (g : Seed) (ds : DataFrame) (k : nat) (column miss dep : string) (s : Series) :
  out_of_range NaN = false /\
  frame (snd (mcar g column NaN (mkEnv ds k))) = ds /\
  frame (snd (mar g miss dep NaN (mkEnv ds k))) = ds /\
  frame (snd (nmar g column NaN (mkEnv ds k))) = ds /\
  (Pandas.lookup (columns ds) column = Some s ->
   (values s = [] -> mcar g column NaN (mkEnv ds k) = (Ok tt, mkEnv ds k)) /\
   (values s <> [] ->
    mcar g column NaN (mkEnv ds k) = (Raise (ValueError msg_nan), mkEnv ds k))).
Proof.
  split; [reflexivity|]. split; [|split; [|split]].
  - destruct (mcar g column NaN (mkEnv ds k)) as [r env'] eqn:E.
    assert (H : preserves (fun f => f = ds) (mcar g column NaN)).
    { unfold mcar. repeat preserves_nan_step. }
    exact (H (mkEnv ds k) r env' eq_refl E).
  - destruct (mar g miss dep NaN (mkEnv ds k)) as [r env'] eqn:E.
    assert (H : preserves (fun f => f = ds) (mar g miss dep NaN)).
    { unfold mar, mar_categorical, mar_numeric. repeat preserves_nan_step. }
    exact (H (mkEnv ds k) r env' eq_refl E).
  - destruct (nmar g column NaN (mkEnv ds k)) as [r env'] eqn:E.
    assert (H : preserves (fun f => f = ds) (nmar g column NaN)).
    { unfold nmar, nmar_categorical, nmar_numeric. repeat preserves_nan_step. }
    exact (H (mkEnv ds k) r env' eq_refl E).
  - intros Hl. unfold mcar. cbn [out_of_range Np.ltb Np.gtb orb].
    erewrite bind_step by (apply getitem_run; exact Hl).
    split.
    + intros ->. reflexivity.
    + intros Hne. destruct (values s) as [|v rest]; [contradiction|].
      unfold for_enumerate. cbn [for_enumerate_from].
      apply bind_raise. apply bind_raise. apply trial_NaN.
Qed.

Lemma nan_parameter_passes_guard_witness :
  Pandas.lookup (columns frame_x) "x" = Some (mkSeries DFloat64 [nan; CNum (Fin 3%R)]) /\
  mcar seed0 "x" NaN (mkEnv frame_x 0) = (Raise (ValueError msg_nan), mkEnv frame_x 0).
Proof.
  split; [reflexivity|].
  refine (proj2 (proj2 (proj2 (proj2 (proj2
    (@nan_parameter_passes_guard seed0 frame_x 0 "x" "x" "x" _)))) eq_refl) _).
  discriminate.
Defined.

(* ================================================================== *)
(** ** Two loops that do the same rows *)

Section LoopEq.

Variable g : Seed.
Variable miss : string.
Variable ds0 : DataFrame.
Variable k0 : nat.
Variable Q : nat -> Result float64.

(** Two loops of the same length whose iterations are the same injection
    steps give the same run, whether it returns or raises. *)
Lemma inject_loop_eq {A B} (l : list A) :
  forall (l' : list B) (body : nat -> A -> M unit) (body' : nat -> B -> M unit)
         (i : nat) (env : Env),
    List.length l = List.length l' ->
    (forall j a e, i <= j -> nth_error l (j - i) = Some a ->
                   rows_done g miss ds0 k0 Q j e ->
                   body j a e = inject_row g miss (Q j) j e) ->
    (forall j a e, i <= j -> nth_error l' (j - i) = Some a ->
                   rows_done g miss ds0 k0 Q j e ->
                   body' j a e = inject_row g miss (Q j) j e) ->
    rows_done g miss ds0 k0 Q i env ->
    for_enumerate_from i l body env = for_enumerate_from i l' body' env.
Proof.
  induction l as [|a l IH]; intros [|a' l'] body body' i env Hlen Hb Hb' Hinv;
    simpl in Hlen; try discriminate; [reflexivity|].
  cbn [for_enumerate_from].
  assert (E : body i a env = inject_row g miss (Q i) i env).
  { apply Hb; [lia|now rewrite Nat.sub_diag|exact Hinv]. }
  assert (E' : body' i a' env = inject_row g miss (Q i) i env).
  { apply Hb'; [lia|now rewrite Nat.sub_diag|exact Hinv]. }
  unfold bind. rewrite E, E'.
  destruct (inject_row g miss (Q i) i env) as [[[]|e] env1] eqn:Er; [|reflexivity].
  apply IH.
  - now injection Hlen.
  - intros j x e Hj Hn. apply Hb; [lia|].
    replace (j - i) with (S (j - S i)) by lia. exact Hn.
  - intros j x e Hj Hn. apply Hb'; [lia|].
    replace (j - i) with (S (j - S i)) by lia. exact Hn.
  - eapply inject_row_ok; eauto.
Qed.

End LoopEq.

Lemma nmar_numeric_body (g : Seed) (ds : DataFrame) (column : string) (s : Series)
    (mean std b : float64) (j : nat) (a : Cell) (e : Env) :
  Pandas.lookup (columns ds) column = Some s ->
  nth_error (values s) j = Some a ->
  (x <- as_float a ;;
   let prob := sig (norm x mean std) in
   hit <- trial g (Np.mul prob b) ;;
   if hit then Pandas.setitem_iloc_nan column j else ret tt) e =
  inject_row g column (numeric_row_prob mean std b ds column j) j e.
Proof.
  intros Hl Ha. unfold inject_row, numeric_row_prob.
  rewrite (@read_snapshot ds column s j a Hl Ha).
  unfold as_float. destruct (to_float a); reflexivity.
Qed.

Lemma bind_getitem {B} (name : string) (s : Series) (K : Series -> M B) (env : Env) :
  Pandas.lookup (columns (frame env)) name = Some s ->
  bind (Pandas.getitem name) K env = K s env.
Proof. intros Hl. apply bind_step. now apply getitem_run. Qed.

Lemma bind_lift_ok {A B} (a : A) (K : A -> M B) (env : Env) :
  bind (lift (Ok a)) K env = K a env.
Proof. reflexivity. Qed.

Lemma bind_lift_raise {A B} (e : PyExc) (K : A -> M B) (env : Env) :
  bind (lift (Raise e)) K env = (Raise e, env).
Proof. reflexivity. Qed.

Lemma bind_get_shape0 {B} (K : nat -> M B) (env : Env) :
  bind Pandas.get_shape0 K env = K (shape0 (frame env)) env.
Proof. reflexivity. Qed.

Lemma bind_cat_dict_of {B} (g : Seed) (s : Series) (K : Dict.t -> M B) (env : Env) :
  bind (cat_dict_of g s) K env =
  K (categorical_assignment g (pos env) s)
    (mkEnv (frame env) (pos env + List.length (Pandas.unique s))).
Proof. apply bind_step. apply cat_dict_of_run. Qed.

Lemma bind_is_categorical {B} (name : string) (s : Series) (K : bool -> M B) (env : Env) :
  Pandas.lookup (columns (frame env)) name = Some s ->
  bind (is_categorical name) K env = K (is_categorical_dtype (dtype s)) env.
Proof. intros Hl. apply bind_step. now apply is_categorical_run. Qed.

(** Runs the statements before the loop of a mechanism. *)
Ltac run_prelude Hl :=
  repeat first
    [ erewrite bind_getitem by exact Hl
    | rewrite bind_lift_ok
    | rewrite bind_lift_raise
    | rewrite bind_get_shape0
    | rewrite bind_cat_dict_of
    | erewrite bind_is_categorical by exact Hl ];
  cbn [frame pos].

(** X5. MAR called with the target column as its own dependent column is
    NMAR: on a frame whose row count is the length of that column the two
    calls give the same result, the same dataset and the same use of the
    random stream, although MAR reads each value from the frame as it goes
    and NMAR iterates over the column. *)
Theorem mar_on_itself_is_nmar
    (g : Seed) (ds : DataFrame) (k : nat) (column : string) (b : float64) (s : Series) :
  Pandas.lookup (columns ds) column = Some s ->
  shape0 ds = List.length (values s) ->
  mar g column column b (mkEnv ds k) = nmar g column b (mkEnv ds k).
Proof.
  intros Hl Hn. unfold mar, nmar. destruct (out_of_range b); [reflexivity|].
  run_prelude Hl.
  destruct (is_categorical_dtype (dtype s)) eqn:Hcat.
  - unfold mar_categorical, nmar_categorical. run_prelude Hl.
    unfold for_range, for_enumerate.
    apply inject_loop_eq
      with (g := g) (miss := column) (ds0 := ds)
           (k0 := k + List.length (Pandas.unique s))
           (Q := categorical_row_prob (categorical_assignment g k s) b ds column).
    + rewrite length_seq. exact Hn.
    + intros j a e _ Ha Hinv. rewrite Nat.sub_0_r in Ha.
      apply nth_error_seq_eq in Ha. subst a. cbn [Nat.add].
      eapply categorical_body; eauto.
    + intros j a e _ Ha _. rewrite Nat.sub_0_r in Ha.
      eapply nmar_categorical_body; eauto.
    + apply rows_done_start.
  - unfold mar_numeric, nmar_numeric. run_prelude Hl.
    destruct (Pandas.np_mean s) as [mean|e1]; run_prelude Hl; [|reflexivity].
    destruct (Pandas.np_std s) as [std|e2]; run_prelude Hl; [|reflexivity].
    unfold for_range, for_enumerate.
    apply inject_loop_eq
      with (g := g) (miss := column) (ds0 := ds) (k0 := k)
           (Q := numeric_row_prob mean std b ds column).
    + rewrite length_seq. exact Hn.
    + intros j a e _ Ha Hinv. rewrite Nat.sub_0_r in Ha.
      apply nth_error_seq_eq in Ha. subst a. cbn [Nat.add].
      eapply numeric_body; exact Hinv.
    + intros j a e _ Ha _. rewrite Nat.sub_0_r in Ha.
      eapply nmar_numeric_body; eauto.
    + apply rows_done_start.
Qed.

Lemma mar_on_itself_is_nmar_witness :
  Pandas.lookup (columns frame_region) "region" = Some (mkSeries DObject [CStr "A"]) /\
  shape0 frame_region = 1 /\
  mar seed0 "region" "region" (Fin (1 / 2)%R) (mkEnv frame_region 0) =
  nmar seed0 "region" (Fin (1 / 2)%R) (mkEnv frame_region 0).
Proof.
  split; [reflexivity|]. split; [reflexivity|].
  exact (@mar_on_itself_is_nmar seed0 frame_region 0 "region" (Fin (1 / 2)%R)
           (mkSeries DObject [CStr "A"]) eq_refl eq_refl).
Defined.

(* ================================================================== *)
(** ** One category only *)

Section SingleCategory.

Local Open Scope R_scope.

Variable g : Seed.

Lemma mul_sig_Fin (z b : R) : Np.mul (sig (Fin z)) (Fin b) = Fin (sigma z * b).
Proof. rewrite sig_Fin. reflexivity. Qed.

Lemma sigma_range (z : R) : 0 < sigma z < 1.
Proof. apply sig_Fin_range. Qed.

(** With one distinct value, every row in range has the one probability. *)
Lemma single_category_prob (ds : DataFrame) (k : nat) (dep : string) (s : Series)
    (c : Cell) (b : R) (j : nat) :
  Pandas.lookup (columns ds) dep = Some s ->
  Pandas.unique s = [c] ->
  (j < List.length (values s))%nat ->
  categorical_row_prob (categorical_assignment g k s) (Fin b) ds dep j =
    Ok (Fin (sigma (normal_at g k) * b)).
Proof.
  intros Hl Hu Hj. unfold categorical_row_prob.
  destruct (nth_error (values s) j) as [v|] eqn:Hv;
    [|apply nth_error_None in Hv; lia].
  rewrite (@read_snapshot ds dep s j v Hl Hv).
  destruct (@categorical_get g k s v) as (idx & key & Hk & _ & Hg);
    [eapply nth_error_In; eauto|].
  rewrite Hu in Hk. destruct idx as [|idx]; [|now destruct idx].
  rewrite Hg, Nat.add_0_r. now rewrite mul_sig_Fin.
Qed.

End SingleCategory.

(** X6. When the categorical dependent column holds exactly one distinct
    value, MAR is MCAR on the target column with [p = sig(z) * b], where [z]
    is the one normal draw: the two calls, MAR from a stream position and
    MCAR from the next one, give the same result, dataset and stream
    position. *)
Theorem single_category_mar_is_mcar
    (g : Seed) (ds : DataFrame) (k : nat) (miss dep : string) (b : R)
    (s sm : Series) (c : Cell) :
  Pandas.lookup (columns ds) dep = Some s ->
  is_categorical_dtype (dtype s) = true ->
  Pandas.unique s = [c] ->
  Pandas.lookup (columns ds) miss = Some sm ->
  shape0 ds = List.length (values sm) ->
  shape0 ds <= List.length (values s) ->
  (0 <= b <= 1)%R ->
  mar g miss dep (Fin b) (mkEnv ds k) =
  mcar g miss (Fin (sigma (normal_at g k) * b)) (mkEnv ds (S k)).
Proof.
  intros Hl Hcat Hu Hm Hn Hs Hb.
  pose proof (sigma_range (normal_at g k)) as Hz.
  unfold mar, mcar. rewrite !in_range_not_out by nra.
  run_prelude Hl. rewrite Hcat. unfold mar_categorical. run_prelude Hl.
  run_prelude Hm. rewrite Hu. cbn [List.length]. rewrite Nat.add_1_r.
  unfold for_range, for_enumerate.
  apply inject_loop_eq
    with (g := g) (miss := miss) (ds0 := ds) (k0 := S k)
         (Q := categorical_row_prob (categorical_assignment g k s) (Fin b) ds dep).
  - rewrite length_seq. exact Hn.
  - intros j a e _ Ha Hinv. rewrite Nat.sub_0_r in Ha.
    apply nth_error_seq_eq in Ha. subst a. cbn [Nat.add].
    eapply categorical_body; eauto.
  - intros j a e _ Ha _. rewrite Nat.sub_0_r in Ha.
    rewrite (@single_category_prob g ds k dep s c b j Hl Hu).
    + reflexivity.
    + assert (j < List.length (values sm)) by (apply nth_error_Some; congruence).
      lia.
  - apply rows_done_start.
Qed.

Lemma single_category_mar_is_mcar_witness :
  (0 <= 1 / 2 <= 1)%R /\
  Pandas.unique (mkSeries DObject [CStr "A"; CStr "A"]) = [CStr "A"] /\
  mar seed0 "sales" "region" (Fin (1 / 2)%R) (mkEnv frame_single 0) =
  mcar seed0 "sales" (Fin (sigma 0 * (1 / 2))%R) (mkEnv frame_single 1).
Proof.
  assert (Hb : (0 <= 1 / 2 <= 1)%R) by lra.
  assert (Hu : Pandas.unique (mkSeries DObject [CStr "A"; CStr "A"]) = [CStr "A"])
    by reflexivity.
  split; [exact Hb|]. split; [exact Hu|].
  exact (@single_category_mar_is_mcar seed0 frame_single 0 "sales" "region" (1 / 2)%R
           (mkSeries DObject [CStr "A"; CStr "A"])
           (mkSeries DFloat64 (number_cells [1%R; 2%R])) (CStr "A")
           eq_refl eq_refl Hu eq_refl eq_refl (le_n 2) Hb).
Defined.

(* ================================================================== *)
(** ** A missing value in a numeric dependent column *)

Lemma norm_NaN (mean std : float64) : norm NaN mean std = NaN.
Proof. unfold norm, Np.sub. now destruct mean, std. Qed.

Lemma row_prob_missing (g : Seed) (ds : DataFrame) (k : nat) (dep : string)
    (b : float64) (s : Series) (i : nat) (q : float64) :
  Pandas.lookup (columns ds) dep = Some s ->
  is_categorical_dtype (dtype s) = false ->
  nth_error (values s) i = Some nan ->
  row_prob g ds k dep b i = Ok q -> q = NaN.
Proof.
  intros Hl Hc Hi. unfold row_prob. rewrite Hl, Hc.
  destruct (Pandas.np_mean s) as [mean|e]; [|discriminate].
  destruct (Pandas.np_std s) as [std|e]; [|discriminate].
  unfold numeric_row_prob. rewrite (@read_snapshot ds dep s i nan Hl Hi).
  cbn [to_float nan]. rewrite norm_NaN. intros H. injection H as <-.
  change (sig NaN) with NaN. now destruct b.
Qed.

Lemma trial_at_NaN (g : Seed) (k : nat) :
  trial_at g k NaN = Raise (ValueError msg_nan).
Proof. reflexivity. Qed.

(** X8. The numeric branch cannot get past a dependent value that is
    already missing: the mean and the deviation skip it, but its own
    z-score is NaN, so neither NMAR on a numeric column that holds a missing
    cell, nor MAR whose numeric dependent column holds one within the rows
    of the frame, returns normally. *)
Theorem numeric_branch_rejects_missing
    (g : Seed) (ds : DataFrame) (k : nat) (miss dep : string) (b : float64)
    (s : Series) (i : nat) :
  Pandas.lookup (columns ds) dep = Some s ->
  is_categorical_dtype (dtype s) = false ->
  nth_error (values s) i = Some nan ->
  fst (nmar g dep b (mkEnv ds k)) <> Ok tt /\
  (i < shape0 ds -> fst (mar g miss dep b (mkEnv ds k)) <> Ok tt).
Proof.
  intros Hl Hc Hi. split.
  - destruct (nmar g dep b (mkEnv ds k)) as [[[]|e] env'] eqn:E; [|discriminate].
    exfalso. destruct (@nmar_returns g ds k dep b env' E) as (s' & Hl' & _ & _ & Hdone & _).
    assert (s' = s) by congruence. subst s'.
    destruct (Hdone i) as (q & hit & Hq & Ht & _).
    { apply nth_error_Some. congruence. }
    rewrite (@row_prob_missing g ds k dep b s i q Hl Hc Hi Hq) in Ht. discriminate.
  - intros Hlt.
    destruct (mar g miss dep b (mkEnv ds k)) as [[[]|e] env'] eqn:E; [|discriminate].
    exfalso. destruct (@mar_returns g ds k miss dep b env' E) as (_ & _ & Hdone & _).
    destruct (Hdone i Hlt) as (q & hit & Hq & Ht & _).
    rewrite (@row_prob_missing g ds k dep b s i q Hl Hc Hi Hq) in Ht. discriminate.
Qed.

Lemma numeric_branch_rejects_missing_witness :
  Pandas.lookup (columns frame_x) "x" = Some (mkSeries DFloat64 [nan; CNum (Fin 3%R)]) /\
  fst (nmar seed0 "x" (Fin (1 / 2)%R) (mkEnv frame_x 0)) <> Ok tt.
Proof.
  split; [reflexivity|].
  exact (proj1 (@numeric_branch_rejects_missing seed0 frame_x 0 "x" "x" (Fin (1 / 2)%R)
                  (mkSeries DFloat64 [nan; CNum (Fin 3%R)]) 0 eq_refl eq_refl eq_refl)).
Defined.

(* ================================================================== *)
(** ** Larger values are more likely to go missing *)

Section SigmoidOrder.

Local Open Scope R_scope.

Lemma sigma_increasing (x y : R) : x < y -> sigma x < sigma y.
Proof.
  intros H. unfold sigma.
  pose proof (exp_pos (- x)) as Hx. pose proof (exp_pos (- y)) as Hy.
  assert (He : exp (- y) < exp (- x)) by (apply exp_increasing; lra).
  unfold Rdiv. rewrite !Rmult_1_l.
  apply Rinv_lt_contravar; [|lra].
  apply Rmult_lt_0_compat; lra.
Qed.

Lemma sigma_monotone (x y : R) : x <= y -> sigma x <= sigma y.
Proof.
  intros [H| ->]; [left; now apply sigma_increasing|right; reflexivity].
Qed.

Lemma numeric_prob_value (x mean std b : R) :
  std <> 0 ->
  Np.mul (sig (norm (Fin x) (Fin mean) (Fin std))) (Fin b) =
    Fin (sigma ((x - mean) / std) * b).
Proof.
  intros Hs. unfold norm. cbn [Np.sub Np.neg Np.add].
  rewrite div_Fin by exact Hs. now rewrite sig_Fin.
Qed.

End SigmoidOrder.

(** X9. In the numeric branch, with a positive standard deviation and
    [b >= 0], the trial probability [sig((x - mean) / std) * b] of a row
    lies between 0 and [b] and does not decrease with the row's dependent
    value [x]: a larger value is at least as likely to be made missing. *)
Theorem numeric_probability_monotone (mean std b x y : R) :
  (0 < std)%R -> (0 <= b)%R -> (x <= y)%R ->
  exists qx qy : R,
    Np.mul (sig (norm (Fin x) (Fin mean) (Fin std))) (Fin b) = Fin qx /\
    Np.mul (sig (norm (Fin y) (Fin mean) (Fin std))) (Fin b) = Fin qy /\
    (0 <= qx)%R /\ (qx <= qy)%R /\ (qy <= b)%R.
Proof.
  intros Hs Hb Hxy.
  exists (sigma ((x - mean) / std) * b)%R, (sigma ((y - mean) / std) * b)%R.
  split; [apply numeric_prob_value; lra|].
  split; [apply numeric_prob_value; lra|].
  assert (Hinv : (0 < / std)%R) by now apply Rinv_0_lt_compat.
  pose proof (sigma_range ((x - mean) / std)) as Hx.
  pose proof (sigma_range ((y - mean) / std)) as Hy.
  split; [nra|]. split; [|nra].
  apply Rmult_le_compat_r; [exact Hb|]. apply sigma_monotone.
  unfold Rdiv. apply Rmult_le_compat_r; lra.
Qed.

Lemma numeric_probability_monotone_witness :
  (0 < 1)%R /\ (0 <= 1 / 2)%R /\ (1 <= 3)%R /\
  exists qx qy : R,
    Np.mul (sig (norm (Fin 1%R) (Fin 2%R) (Fin 1%R))) (Fin (1 / 2)%R) = Fin qx /\
    Np.mul (sig (norm (Fin 3%R) (Fin 2%R) (Fin 1%R))) (Fin (1 / 2)%R) = Fin qy /\
    (qx <= qy)%R.
Proof.
  assert (H1 : (0 < 1)%R) by lra.
  assert (H2 : (0 <= 1 / 2)%R) by lra.
  assert (H3 : (1 <= 3)%R) by lra.
  split; [exact H1|]. split; [exact H2|]. split; [exact H3|].
  destruct (@numeric_probability_monotone 2 1 (1 / 2) 1 3 H1 H2 H3)
    as (qx & qy & Hx & Hy & _ & Hle & _).
  exists qx, qy. auto.
Defined.

(* ================================================================== *)
(** ** The use of the random stream *)

(** X10. A call that returns normally has made exactly one draw per row,
    after one draw per distinct value in the categorical branch: the number
    of draws depends on the frame alone, not on the tuning parameter nor on
    how the trials turned out. *)
Theorem one_draw_per_row (g : Seed) (ds : DataFrame) (k : nat) (env' : Env) :
  (forall column p s,
     Pandas.lookup (columns ds) column = Some s ->
     mcar g column p (mkEnv ds k) = (Ok tt, env') ->
     pos env' = k + List.length (values s)) /\
  (forall miss dep b,
     mar g miss dep b (mkEnv ds k) = (Ok tt, env') ->
     pos env' = first_trial ds k dep + shape0 ds) /\
  (forall column b s,
     Pandas.lookup (columns ds) column = Some s ->
     nmar g column b (mkEnv ds k) = (Ok tt, env') ->
     pos env' = first_trial ds k column + List.length (values s)).
Proof.
  split; [|split].
  - intros column p s Hl H.
    now destruct (@mcar_returns g ds k column p s env' Hl H) as (Hpos & _).
  - intros miss dep b H.
    now destruct (@mar_returns g ds k miss dep b env' H) as (Hpos & _).
  - intros column b s Hl H.
    destruct (@nmar_returns g ds k column b env' H) as (s' & Hl' & Hpos & _).
    assert (s' = s) by congruence. now subst s'.
Qed.

Lemma one_draw_per_row_witness :
  mcar seed0 "x" (Fin 0%R) (mkEnv frame_x 0) = (Ok tt, mkEnv frame_x 2) /\
  pos (mkEnv frame_x 2) = 0 + 2.
Proof.
  assert (H : mcar seed0 "x" (Fin 0%R) (mkEnv frame_x 0) = (Ok tt, mkEnv frame_x 2)).
  { exact (@mcar_zero_run seed0 frame_x 0 "x" _ eq_refl). }
  split; [exact H|].
  exact (proj1 (@one_draw_per_row seed0 frame_x 0 (mkEnv frame_x 2))
           "x"%string (Fin 0%R) _ eq_refl H).
Defined.

(* ================================================================== *)
(** ** More missingness with a larger beta *)

Section BetaOrder.

Local Open Scope R_scope.

Variable g : Seed.

Lemma row_prob_base (ds : DataFrame) (k : nat) (dep : string) (b : float64) (i : nat) :
  row_prob g ds k dep b i =
  match base_prob g ds k dep i with
  | Ok pr => Ok (Np.mul pr b)
  | Raise e => Raise e
  end.
Proof.
  unfold row_prob, base_prob, categorical_row_prob, numeric_row_prob.
  destruct (Pandas.lookup (columns ds) dep) as [s|]; [|reflexivity].
  destruct (is_categorical_dtype (dtype s)).
  - destruct (read ds dep i) as [c|e]; [|reflexivity].
    now destruct (Dict.get _ c).
  - destruct (Pandas.np_mean s) as [mean|e]; [|reflexivity].
    destruct (Pandas.np_std s) as [std|e]; [|reflexivity].
    destruct (read ds dep i) as [c|e]; [|reflexivity].
    now destruct (to_float c).
Qed.

(** Along one stream, a trial that succeeds with [pr * b1] succeeds with
    [pr * b2] for a larger [b2]. *)
Lemma trial_beta_monotone (k : nat) (pr : float64) (b1 b2 : R) (hit2 : bool) :
  0 <= b1 <= b2 ->
  trial_at g k (Np.mul pr (Fin b1)) = Ok true ->
  trial_at g k (Np.mul pr (Fin b2)) = Ok hit2 ->
  hit2 = true.
Proof.
  intros Hb H1 H2.
  apply trial_at_ok_inv in H1 as (r1 & E1 & Hr1 & Hh1).
  apply trial_at_ok_inv in H2 as (r2 & E2 & Hr2 & Hh2).
  destruct pr as [r| | |].
  - cbn [Np.mul] in E1, E2. injection E1 as <-. injection E2 as <-.
    pose proof (uniform_range g k) as Hu. subst hit2. unfold below in *.
    destruct (Rlt_dec (uniform_at g k) (r * b1)) as [Hlt|]; [|discriminate].
    destruct (Rlt_dec (uniform_at g k) (r * b2)) as [|Hge]; [reflexivity|].
    exfalso. apply Hge.
    assert (0 < r) by nra. nra.
  - cbn [Np.mul] in E1. now destruct (Np.Rsign b1).
  - cbn [Np.mul] in E1. now destruct (Np.Rsign b1).
  - discriminate.
Qed.

Lemma rows_done_monotone (miss : string) (ds : DataFrame) (k0 n : nat)
    (Q1 Q2 : nat -> Result float64) (e1 e2 : Env) :
  rows_done g miss ds k0 Q1 n e1 ->
  rows_done g miss ds k0 Q2 n e2 ->
  (forall i q1 q2 hit2,
     Q1 i = Ok q1 -> Q2 i = Ok q2 ->
     trial_at g (k0 + i) q1 = Ok true -> trial_at g (k0 + i) q2 = Ok hit2 ->
     hit2 = true) ->
  forall i, cell (frame e1) miss i = Some nan -> cell (frame e2) miss i = Some nan.
Proof.
  intros (_ & Hov1 & Hd1 & Ht1) (_ & _ & Hd2 & Ht2) Hmono i Hc.
  destruct (Nat.lt_ge_cases i n) as [Hi|Hi].
  - destruct (Hd1 i Hi) as (q1 & h1 & Hq1 & Htr1 & _ & Hc1).
    destruct (Hd2 i Hi) as (q2 & h2 & Hq2 & Htr2 & _ & Hc2).
    pose proof (overwrite_cell miss i Hov1) as Hcell. rewrite Hc in Hcell.
    destruct (cell ds miss i) as [v|] eqn:Hv; [|contradiction].
    rewrite (Hc1 v eq_refl) in Hc. rewrite (Hc2 v eq_refl).
    destruct h1.
    + now rewrite (Hmono i q1 q2 h2 Hq1 Hq2 Htr1 Htr2).
    + injection Hc as Hc. apply stored_nan_inv in Hc. subst v.
      rewrite stored_nan. now destruct h2.
  - rewrite Ht1 in Hc by exact Hi. rewrite Ht2 by exact Hi.
    destruct (cell ds miss i) as [v|]; [|discriminate].
    simpl in Hc |- *. injection Hc as Hc. apply stored_nan_inv in Hc. subst v.
    now rewrite stored_nan.
Qed.

Lemma row_prob_beta_monotone (ds : DataFrame) (k : nat) (dep : string) (b1 b2 : R)
    (k' i : nat) (q1 q2 : float64) (hit2 : bool) :
  0 <= b1 <= b2 ->
  row_prob g ds k dep (Fin b1) i = Ok q1 ->
  row_prob g ds k dep (Fin b2) i = Ok q2 ->
  trial_at g k' q1 = Ok true -> trial_at g k' q2 = Ok hit2 -> hit2 = true.
Proof.
  intros Hb H1 H2. rewrite row_prob_base in H1, H2.
  destruct (base_prob g ds k dep i) as [pr|e]; [|discriminate].
  injection H1 as <-. injection H2 as <-. now apply trial_beta_monotone.
Qed.

End BetaOrder.

(** X11. MAR and NMAR are monotone in [b] along a fixed random stream:
    when the calls with [b1] and with a larger [b2], started in the same
    state, both return normally, every cell of the target column that is
    missing after the call with [b1] is missing after the call with [b2]. *)
Theorem beta_monotone
    (g : Seed) (ds : DataFrame) (k : nat) (miss dep column : string)
    (b1 b2 : R) (e1 e2 : Env) (i : nat) :
  (0 <= b1)%R -> (b1 <= b2)%R ->
  (mar g miss dep (Fin b1) (mkEnv ds k) = (Ok tt, e1) ->
   mar g miss dep (Fin b2) (mkEnv ds k) = (Ok tt, e2) ->
   cell (frame e1) miss i = Some nan -> cell (frame e2) miss i = Some nan) /\
  (nmar g column (Fin b1) (mkEnv ds k) = (Ok tt, e1) ->
   nmar g column (Fin b2) (mkEnv ds k) = (Ok tt, e2) ->
   cell (frame e1) column i = Some nan -> cell (frame e2) column i = Some nan).
Proof.
  intros H0 H12. split.
  - intros E1 E2.
    apply (@rows_done_monotone g miss ds (first_trial ds k dep) (shape0 ds)
             (row_prob g ds k dep (Fin b1)) (row_prob g ds k dep (Fin b2)) e1 e2).
    + now apply mar_returns.
    + now apply mar_returns.
    + intros j q1 q2 hit2. apply row_prob_beta_monotone. lra.
  - intros E1 E2.
    destruct (@nmar_returns g ds k column (Fin b1) e1 E1) as (s1 & Hl1 & R1).
    destruct (@nmar_returns g ds k column (Fin b2) e2 E2) as (s2 & Hl2 & R2).
    assert (s2 = s1) by congruence. subst s2.
    apply (@rows_done_monotone g column ds (first_trial ds k column)
             (List.length (values s1))
             (row_prob g ds k column (Fin b1)) (row_prob g ds k column (Fin b2)) e1 e2
             R1 R2).
    intros j q1 q2 hit2. apply row_prob_beta_monotone. lra.
Qed.

Lemma nmar_categorical_eq (g : Seed) (ds : DataFrame) (k : nat) (column : string)
    (b : R) (s : Series) :
  Pandas.lookup (columns ds) column = Some s ->
  is_categorical_dtype (dtype s) = true ->
  (0 <= b <= 1)%R ->
  nmar g column (Fin b) (mkEnv ds k) = nmar_categorical g column (Fin b) (mkEnv ds k).
Proof.
  intros Hl Hc Hb. unfold nmar. rewrite in_range_not_out by exact Hb.
  run_prelude Hl. now rewrite Hc.
Qed.

Lemma beta_monotone_witness :
  (0 <= 1 / 2)%R /\ (1 / 2 <= 1)%R /\
  exists e1 e2,
    nmar seed0 "c" (Fin (1 / 2)%R) (mkEnv frame_object 0) = (Ok tt, e1) /\
    nmar seed0 "c" (Fin 1%R) (mkEnv frame_object 0) = (Ok tt, e2) /\
    cell (frame e1) "c" 0 = Some nan /\
    cell (frame e2) "c" 0 = Some nan.
Proof.
  assert (H0 : (0 <= 1 / 2)%R) by lra.
  assert (H1 : (1 / 2 <= 1)%R) by lra.
  assert (Hb1 : (0 <= 1 / 2 <= 1)%R) by lra.
  assert (Hb2 : (0 <= 1 <= 1)%R) by lra.
  split; [exact H0|]. split; [exact H1|].
  destruct (@nmar_categorical_total seed0 frame_object 0 "c" (1 / 2)%R
              (mkSeries DObject [nan]) eq_refl Hb1) as [e1 E1].
  destruct (@nmar_categorical_total seed0 frame_object 0 "c" 1%R
              (mkSeries DObject [nan]) eq_refl Hb2) as [e2 E2].
  rewrite <- (@nmar_categorical_eq seed0 frame_object 0 "c" (1 / 2)%R
                (mkSeries DObject [nan]) eq_refl eq_refl Hb1) in E1.
  rewrite <- (@nmar_categorical_eq seed0 frame_object 0 "c" 1%R
                (mkSeries DObject [nan]) eq_refl eq_refl Hb2) in E2.
  assert (Hc : cell (frame e1) "c" 0 = Some nan).
  { apply (@overwrite_missing_stays "c" frame_object (frame e1) "c" 0 nan);
      [|reflexivity|reflexivity].
    exact (@preserves_nmar seed0 frame_object "c" (Fin (1 / 2)%R)
             (mkEnv frame_object 0) (Ok tt) e1 (cast_overwrite_refl "c" frame_object) E1). }
  exists e1, e2. split; [exact E1|]. split; [exact E2|]. split; [exact Hc|].
  exact (proj2 (@beta_monotone seed0 frame_object 0 "c" "c" "c" (1 / 2)%R 1%R e1 e2 0
                  H0 H1) E1 E2 Hc).
Defined.

(* ================================================================== *)
(** ** The branch of a column outlives the calls *)

Section Dispatch.

Lemma upcast_keeps_dispatch (d : DType) :
  is_categorical_dtype (Pandas.upcast_for_nan d) = is_categorical_dtype d.
Proof. now destruct d. Qed.

Lemma same_dispatch_refl (ds : DataFrame) : same_dispatch ds ds.
Proof.
  unfold same_dispatch. induction (columns ds); constructor; auto.
Qed.

Lemma same_dispatch_replace (cols0 cols : list (string * Series))
    (name : string) (s : Series) (vals : list Cell) :
  Forall2 (fun c c' : string * Series =>
             fst c' = fst c /\
             is_categorical_dtype (dtype (snd c')) = is_categorical_dtype (dtype (snd c)))
          cols0 cols ->
  Pandas.lookup cols name = Some s ->
  Forall2 (fun c c' : string * Series =>
             fst c' = fst c /\
             is_categorical_dtype (dtype (snd c')) = is_categorical_dtype (dtype (snd c)))
          cols0
          (Pandas.replace cols name (mkSeries (Pandas.upcast_for_nan (dtype s)) vals)).
Proof.
  intros H. induction H as [|[n0 s0] [n s1] cols0 cols [Hn Hd] H IH]; intros Hl;
    simpl in *; [constructor|].
  destruct (String.eqb n name) eqn:E.
  - injection Hl as ->. constructor; [|exact H]. split; [exact Hn|].
    cbn [snd dtype]. now rewrite upcast_keeps_dispatch.
  - constructor; [split; assumption|]. apply IH. exact Hl.
Qed.

Lemma preserves_dispatch_setitem (ds0 : DataFrame) (name : string) (i : nat) :
  preserves (same_dispatch ds0) (Pandas.setitem_iloc_nan name i).
Proof.
  intros env r env' Hd. unfold Pandas.setitem_iloc_nan.
  destruct (Pandas.lookup (columns (frame env)) name) as [s|] eqn:El.
  - destruct (i <? List.length (values s)); intros H; injection H as _ <-.
    + unfold same_dispatch. cbn [frame columns].
      now apply same_dispatch_replace.
    + exact Hd.
  - intros H. injection H as _ <-. exact Hd.
Qed.

Lemma same_dispatch_lookup (ds ds' : DataFrame) (name : string) :
  same_dispatch ds ds' ->
  option_map (fun s => is_categorical_dtype (dtype s)) (Pandas.lookup (columns ds') name) =
  option_map (fun s => is_categorical_dtype (dtype s)) (Pandas.lookup (columns ds) name).
Proof.
  unfold same_dispatch. intros H.
  induction H as [|[n0 s0] [n s1] cols0 cols [Hn Hd] H IH]; simpl in *; [reflexivity|].
  subst n0. destruct (String.eqb n name); [|exact IH].
  simpl. now rewrite Hd.
Qed.

Lemma is_categorical_result (name : string) (env : Env) :
  fst (is_categorical name env) =
  match Pandas.lookup (columns (frame env)) name with
  | Some s => Ok (is_categorical_dtype (dtype s))
  | None => Raise (KeyError (CStr name))
  end.
Proof.
  destruct (Pandas.lookup (columns (frame env)) name) as [s|] eqn:Hl.
  - now rewrite (@is_categorical_run name env s Hl).
  - now rewrite (@is_categorical_absent name env Hl).
Qed.

End Dispatch.

(** X12. The calls never change which branch a column takes: whatever
    MCAR, MAR or NMAR did to the dataset (an overwritten int64 column has
    become float64, a bool column object), the categorical test gives for
    every column name the answer it gave before the call. *)
Theorem dispatch_is_stable
    (g : Seed) (ds : DataFrame) (k k' : nat) (name : string) :
  (forall column p,
     fst (is_categorical name (mkEnv (frame (snd (mcar g column p (mkEnv ds k)))) k')) =
     fst (is_categorical name (mkEnv ds k'))) /\
  (forall miss dep b,
     fst (is_categorical name (mkEnv (frame (snd (mar g miss dep b (mkEnv ds k)))) k')) =
     fst (is_categorical name (mkEnv ds k'))) /\
  (forall column b,
     fst (is_categorical name (mkEnv (frame (snd (nmar g column b (mkEnv ds k)))) k')) =
     fst (is_categorical name (mkEnv ds k'))).
Proof.
  assert (Hkey : forall ds', same_dispatch ds ds' ->
            fst (is_categorical name (mkEnv ds' k')) =
            fst (is_categorical name (mkEnv ds k'))).
  { intros ds' Hd. rewrite !is_categorical_result. cbn [frame].
    pose proof (@same_dispatch_lookup ds ds' name Hd) as Hl.
    destruct (Pandas.lookup (columns ds') name), (Pandas.lookup (columns ds) name);
      simpl in Hl; congruence. }
  split; [|split]; intros; apply Hkey.
  - destruct (mcar g column p (mkEnv ds k)) as [r env'] eqn:E.
    assert (H : preserves (same_dispatch ds) (mcar g column p)).
    { unfold mcar. repeat preserves_step. apply preserves_dispatch_setitem. }
    exact (H (mkEnv ds k) r env' (same_dispatch_refl ds) E).
  - destruct (mar g miss dep b (mkEnv ds k)) as [r env'] eqn:E.
    assert (H : preserves (same_dispatch ds) (mar g miss dep b)).
    { unfold mar, mar_categorical, mar_numeric.
      repeat preserves_step; apply preserves_dispatch_setitem. }
    exact (H (mkEnv ds k) r env' (same_dispatch_refl ds) E).
  - destruct (nmar g column b (mkEnv ds k)) as [r env'] eqn:E.
    assert (H : preserves (same_dispatch ds) (nmar g column b)).
    { unfold nmar, nmar_categorical, nmar_numeric.
      repeat preserves_step; apply preserves_dispatch_setitem. }
    exact (H (mkEnv ds k) r env' (same_dispatch_refl ds) E).
Qed.
